(** * The caffe command-line tool (tools/caffe.cpp)

    A shallow embedding of the command driver: the command registry and
    [main], the device selector [get_gpus], the [train], [test] and [time]
    commands with the detection and classification aggregators, followed by
    the properties proved about them.

    Conventions.
    - [int] is a 32-bit signed integer carried in [Z]; arithmetic on it
      wraps ([wrap_int]).
    - [float] is IEEE binary32 and [double] IEEE binary64, both carried in
      [spec_float] with the operations of [SpecFloat] at the matching
      precision, rounding to nearest even.
    - Effects are a trace of events (log lines and calls into the rest of
      the library) with early termination: [LOG(FATAL)] and failed [CHECK]s
      abort, an uncaught exception terminates, an out-of-range vector access
      is undefined.  What the outside world answers is read from an [Env]. *)

From Stdlib Require Import ZArith List String Ascii Lia Bool.
From Stdlib Require Import Floats.SpecFloat.
From stdpp Require Import base gmap strings list sorting pretty.

Open Scope string_scope.
Open Scope list_scope.
Open Scope Z_scope.

(* ===================================================================== *)
(** * Machine numbers *)
(* ===================================================================== *)

Module Int.
Definition min_int : Z := - 2 ^ 31.
Definition max_int : Z := 2 ^ 31 - 1.

Definition in_range (z : Z) : bool := (min_int <=? z) && (z <=? max_int).

(** Two's complement wrap-around of a 32-bit signed integer. *)
Definition wrap_int (z : Z) : Z := (z + 2 ^ 31) mod 2 ^ 32 - 2 ^ 31.

Definition add (a b : Z) : Z := wrap_int (a + b).
End Int.

Abbreviation float := spec_float (only parsing).
Abbreviation double := spec_float (only parsing).

Module F32.
Definition prec : Z := 24.
Definition emax : Z := 128.

Definition add : float -> float -> float := SFadd prec emax.
Definition mul : float -> float -> float := SFmul prec emax.
Definition div : float -> float -> float := SFdiv prec emax.

(** Conversion of an integer to [float]. *)
Definition of_Z (z : Z) : float := binary_normalize prec emax z 0 false.

Definition zero : float := S754_zero false.
Definition one : float := of_Z 1.

Definition is_zero (f : float) : bool :=
  match f with S754_zero _ => true | _ => false end.

(** [static_cast<int>(f)]: truncation toward zero.  Outside the range of
    [int], and for infinities and NaN, the conversion is undefined in C++;
    the value chosen here is the one the x86 conversion instruction
    delivers, [INT_MIN]. *)
Definition to_int (f : float) : Z :=
  match f with
  | S754_zero _ => 0
  | S754_finite s m e =>
      let z := Z.quot (cond_Zopp s (Zpos m) * 2 ^ Z.max e 0) (2 ^ Z.max (- e) 0) in
      if Int.in_range z then z else Int.min_int
  | _ => Int.min_int
  end.
End F32.

Module F64.
Definition prec : Z := 53.
Definition emax : Z := 1024.

Definition add : double -> double -> double := SFadd prec emax.
Definition div : double -> double -> double := SFdiv prec emax.
Definition of_Z (z : Z) : double := binary_normalize prec emax z 0 false.
Definition zero : double := S754_zero false.

(** Widening of a [float]; every binary32 value is a binary64 value. *)
Definition of_float (f : float) : double :=
  match f with
  | S754_finite s m e => binary_normalize prec emax (cond_Zopp s (Zpos m)) e false
  | _ => f
  end.
End F64.

(* ===================================================================== *)
(** * Builds, flags and the outside world *)
(* ===================================================================== *)

(** The preprocessor switches the file is compiled under. *)
Record Build := {
  CPU_ONLY : bool;
  USE_CUDA : bool;
  USE_NCCL : bool;
  USE_GREENTEA : bool;
  USE_LIBDNN : bool;
  WITH_PYTHON_LAYER : bool
}.

(** The gflags of the tool, with their defaults in [default_flags]. *)
Record Flags := {
  FLAGS_gpu : string;
  FLAGS_solver : string;
  FLAGS_model : string;
  FLAGS_phase : string;
  FLAGS_level : Z;
  FLAGS_stage : string;
  FLAGS_snapshot : string;
  FLAGS_weights : string;
  FLAGS_iterations : Z;
  FLAGS_sigint_effect : string;
  FLAGS_sighup_effect : string;
  FLAGS_lt : bool;
  FLAGS_detection : bool;
  FLAGS_ap : string
}.

Definition default_flags : Flags := {|
  FLAGS_gpu := EmptyString; FLAGS_solver := EmptyString;
  FLAGS_model := EmptyString; FLAGS_phase := EmptyString;
  FLAGS_level := 0; FLAGS_stage := EmptyString; FLAGS_snapshot := EmptyString;
  FLAGS_weights := EmptyString; FLAGS_iterations := 50;
  FLAGS_sigint_effect := "stop"; FLAGS_sighup_effect := "snapshot";
  FLAGS_lt := false; FLAGS_detection := false; FLAGS_ap := "11point"
|}.

Inductive Phase := TRAIN | TEST.
Inductive Mode := CPU | GPU.
Inductive SolverAction := NONE | STOP | SNAPSHOT.
Inductive SolverMode := SolverMode_CPU | SolverMode_GPU.

(** The fields of [caffe::SolverParameter] the tool reads or writes; an
    optional protobuf field is an [option]. *)
Record SolverParameter := {
  solver_mode : option SolverMode;
  device_id : option Z;
  train_state_level : Z;
  train_state_stage : list string
}.

(** An output blob as the tool sees it: its [height()] and its flat
    [cpu_data()]; [count()] is the length of the data. *)
Record Blob := {
  height : Z;
  cpu_data : list float
}.

Definition count (b : Blob) : nat := List.length (cpu_data b).

Inductive NetRef := solver_net | solver_test_net (j : nat).

Inductive Severity := INFO | WARNING | ERROR | FATAL.

(** What is streamed into a log line with [<<], as values; [Text.line]
    gives the text. *)
Inductive Item :=
| Str (s : string)
| Int (z : Z)
| Flt (f : float)
| Dbl (d : double).

Inductive Timer :=
| total_timer
| forward_timer
| iter_timer
| layer_timers (i : nat).

(** Calls into the library that change the outside world. *)
Inductive ExtCall :=
| EnumerateDevices (silent : bool)
| SetDevices (gpus : list Z)
| SetDevice (id : Z)
| DeviceQuery
| TeardownDevice (id : Z)
| set_mode (m : Mode)
| set_solver_count (n : Z)
| Synchronize
| GlobalInit
| ShowUsageWithFlagsRestrict
| PyErr_Print
| ReadSolverParamsFromTextFileOrDie (path : string)
| NewSignalHandler (sigint sighup : SolverAction)
| CreateSolver (p : SolverParameter)
| SetActionFunction
| Restore (path : string)
| CopyTrainedLayersFrom (net : NetRef) (file : string)
| NCCL_Run (gpus : list Z) (snapshot : option string)
| Solve
| NewNet (model : string) (ph : Phase) (level : Z) (stages : option (list string))
| NetCopyTrainedLayersFrom (file : string)
| NetForward
| NetBackward
| LayerForward (i : nat)
| LayerBackward (i : nat)
| LayerTune (i : nat)
| TimerStart (t : Timer)
| TimerStop (t : Timer).

Inductive Event :=
| Log (sev : Severity) (msg : list Item)
| Call (c : ExtCall).

(** What the outside world answers. *)
Record Env := {
  (** [Caffe::EnumerateDevices]: the number of devices. *)
  device_count : Z;
  (** [Caffe::GetDefaultDevice()->backend() == BACKEND_OpenCL]. *)
  backend_is_OpenCL : bool;
  (** The solver file parsed, or [None] where the read dies. *)
  solver_file : string -> option SolverParameter;
  (** [solver->test_nets().size()]. *)
  test_nets_size : nat;
  (** What the i-th call of [caffe_net.Forward(&iter_loss)] delivers:
      the output blobs and the loss. *)
  forward : nat -> list Blob * float;
  (** [blob_names()[output_blob_indices()[j]]]. *)
  output_name : nat -> string;
  (** [blob_loss_weights()[output_blob_indices()[j]]]. *)
  output_loss_weight : nat -> float;
  (** [caffe::ComputeAP], reduced to the average precision it stores where
      it returns.  What it checks on its arguments and on the method name
      is fatal inside the library and is not part of this world. *)
  ComputeAP : list (float * Z) -> Z -> list (float * Z) -> string -> float;
  (** [caffe_net.layers()]: the layer names, in declared order. *)
  layer_names : list string;
  (** Which layers are [LibDNNConvolutionLayer]s. *)
  layer_is_libdnn_conv : nat -> bool;
  (** Timer readings of [time]: [forward_timer.MicroSeconds()] in
      iteration [j], [layer_timers[i].MicroSeconds()] after the forward and
      after the backward pass of iteration [j], [iter_timer.MilliSeconds()]
      and [total_timer.MilliSeconds()]. *)
  forward_us : nat -> float;
  layer_forward_us : nat -> nat -> float;
  layer_backward_us : nat -> nat -> float;
  iter_ms : nat -> float;
  total_ms : float
}.

(* ===================================================================== *)
(** * Effects: a trace with early termination *)
(* ===================================================================== *)

Inductive Stop :=
| Fatal                      (* LOG(FATAL), a failed CHECK: abort() *)
| Thrown (what : string)     (* an exception nobody catches *)
| Undefined (what : string). (* undefined behaviour *)

Inductive Res (A : Type) :=
| Ret (a : A)
| Halt (s : Stop).
Arguments Ret {A} a.
Arguments Halt {A} s.

Definition M (A : Type) : Type := list Event * Res A.

Definition ret {A} (a : A) : M A := ([], Ret a).

Definition bind {A B} (m : M A) (k : A -> M B) : M B :=
  match m with
  | (t, Ret a) => let '(t', r) := k a in (t ++ t', r)
  | (t, Halt s) => (t, Halt s)
  end.

#[global] Instance M_ret : MRet M := @ret.
#[global] Instance M_bind : MBind M := fun A B k m => bind m k.

Definition emit (c : ExtCall) : M unit := ([Call c], Ret tt).

Definition halt {A} (s : Stop) : M A := ([], Halt s).

(** [LOG(sev) << ...]; at severity [FATAL] the process aborts. *)
Definition LOG (sev : Severity) (msg : list Item) : M unit :=
  match sev with
  | FATAL => ([Log FATAL msg], Halt Fatal)
  | _ => ([Log sev msg], Ret tt)
  end.

(** [CHECK(cond) << msg] and its comparison variants. *)
Definition CHECK (cond : bool) (what : string) (msg : string) : M unit :=
  if cond then ret tt else LOG FATAL [Str ("Check failed: " +:+ what); Str msg].

(** A [for] loop over the elements of a list, threading a state. *)
Fixpoint foldM {A S} (f : S -> A -> M S) (l : list A) (s : S) : M S :=
  match l with
  | [] => ret s
  | x :: l' => s' ← f s x; foldM f l' s'
  end.

Definition forM_ {A} (f : A -> M unit) (l : list A) : M unit :=
  foldM (fun _ x => f x) l tt.

(** The indices [0 .. n-1] of a counting loop. *)
Definition upto (n : nat) : list nat := seq 0 n.

Definition trace {A} (m : M A) : list Event := fst m.
Definition result {A} (m : M A) : Res A := snd m.

(* ===================================================================== *)
(** * Strings: splitting and integer conversion *)
(* ===================================================================== *)

Definition is_comma (c : ascii) : bool := Ascii.eqb c ","%char.

(** [boost::split(out, s, pred)] without token compression: the string is
    cut at every separator; an empty string gives one empty token. *)
Fixpoint split (sep : ascii -> bool) (s : string) : list string :=
  match s with
  | EmptyString => [EmptyString]
  | String c s' =>
      if sep c then EmptyString :: split sep s'
      else match split sep s' with
           | t :: ts => String c t :: ts
           | [] => [String c EmptyString]
           end
  end.

Definition digit_of (c : ascii) : option Z :=
  let n := Z.of_N (N_of_ascii c) in
  if (48 <=? n) && (n <=? 57) then Some (n - 48) else None.

Fixpoint parse_digits (acc : Z) (s : string) : option Z :=
  match s with
  | EmptyString => Some acc
  | String c s' =>
      match digit_of c with
      | Some d => parse_digits (10 * acc + d) s'
      | None => None
      end
  end.

(** [boost::lexical_cast<int>(s)]: an optional sign, then at least one
    decimal digit and nothing else; the value has to fit an [int].
    [None] stands for [bad_lexical_cast]. *)
Definition lexical_cast_int (s : string) : option Z :=
  let '(neg, body) :=
    match s with
    | String "-"%char r => (true, r)
    | String "+"%char r => (false, r)
    | _ => (false, s)
    end in
  match body with
  | EmptyString => None
  | _ =>
      match parse_digits 0 body with
      | Some n =>
          let v := if neg : bool then - n else n in
          if Int.in_range v then Some v else None
      | None => None
      end
  end.

(** [boost::lexical_cast<string>(int)]. *)
Definition lexical_cast_string (z : Z) : string := pretty z.

(** A name between double quotes, as the messages print it. *)
Definition quoted (s : string) : string :=
  String (ascii_of_nat 34) s +:+ String (ascii_of_nat 34) EmptyString.

Definition nonempty (s : string) : bool := negb (String.eqb s EmptyString).

(* ===================================================================== *)
(** * The device selector *)
(* ===================================================================== *)

Section Commands.
Variable build : Build.
Variable env : Env.

(** The macro [NO_GPU] of a CPU-only build. *)
Definition NO_GPU : M unit :=
  LOG FATAL [Str "Cannot use GPU in CPU-only Caffe: check mode."].

(** Parse GPU ids or use all available devices.  [gpus] is the vector the
    caller passes in; the result is the vector afterwards. *)
Definition get_gpus (gpu : string) (gpus : list Z) : M (list Z) :=
  if String.eqb gpu "all" then
    n ← (if CPU_ONLY build then NO_GPU;; ret 0
         else emit (EnumerateDevices true);; ret (device_count env));
    ret (gpus ++ map Z.of_nat (upto (Z.to_nat n)))
  else if nonempty gpu then
    foldM (fun (gpus : list Z) (s : string) =>
             match lexical_cast_int s with
             | Some id => ret (gpus ++ [id])
             | None => halt (Thrown "bad_lexical_cast")
             end)
          (split is_comma gpu) gpus
  else
    CHECK (Nat.eqb (List.length gpus) 0) "gpus->size() == 0" EmptyString;;
    ret gpus.

(** Parse phase from flags. *)
Definition get_phase_from_flags (F : Flags) (default_value : Phase) : M Phase :=
  if String.eqb (FLAGS_phase F) EmptyString then ret default_value
  else if String.eqb (FLAGS_phase F) "TRAIN" then ret TRAIN
  else if String.eqb (FLAGS_phase F) "TEST" then ret TEST
  else LOG FATAL [Str ("phase must be " +:+ quoted "TRAIN" +:+ " or " +:+ quoted "TEST")];;
       ret TRAIN.


(** Parse stages from flags. *)
Definition get_stages_from_flags (F : Flags) : list string :=
  split is_comma (FLAGS_stage F).

(** The teardown every command ends with in an OpenCL build. *)
Definition teardown_device (gpus : list Z) : M unit :=
  if USE_GREENTEA build then
    if backend_is_OpenCL env then
      match gpus with
      | g0 :: _ => if 0 <=? g0 then emit (TeardownDevice g0) else ret tt
      | [] => ret tt
      end
    else ret tt
  else ret tt.

(** Device Query: show diagnostic information for a GPU device, or
    enumerate all devices if none is specified. *)
Definition device_query (F : Flags) : M Z :=
  (if negb (nonempty (FLAGS_gpu F)) || String.eqb (FLAGS_gpu F) "all" then
     emit (EnumerateDevices false)
   else if CPU_ONLY build then ret tt
   else
     LOG INFO [Str "Querying GPUs "; Str (FLAGS_gpu F)];;
     gpus ← get_gpus (FLAGS_gpu F) [];
     emit (SetDevices gpus);;
     forM_ (fun g => emit (SetDevice g);; emit DeviceQuery) gpus;;
     teardown_device gpus);;
  ret 0.

(** Load the weights from the specified caffemodel(s) into the train and
    test nets. *)
Definition CopyLayers (model_list : string) : M unit :=
  forM_ (fun name =>
           LOG INFO [Str "Finetuning from "; Str name];;
           emit (CopyTrainedLayersFrom solver_net name);;
           forM_ (fun j => emit (CopyTrainedLayersFrom (solver_test_net j) name))
                 (upto (test_nets_size env)))
        (split is_comma model_list).

(** Translate the signal effect the user specified on the command-line to
    the corresponding enumeration. *)
Definition GetRequestedAction (flag_value : string) : M SolverAction :=
  if String.eqb flag_value "stop" then ret STOP
  else if String.eqb flag_value "snapshot" then ret SNAPSHOT
  else if String.eqb flag_value "none" then ret NONE
  else
    LOG FATAL [Str "Invalid signal effect "; Str (quoted flag_value);
               Str " was specified"];;
    ret NONE.

(** The [ostringstream] of the "Using GPUs" line. *)
Definition gpus_to_string (gpus : list Z) : string :=
  String.concat ", " (map lexical_cast_string gpus).

(** The signal handler both [train] and [autotune] install.  The two
    arguments of the constructor are evaluated in an order C++ leaves to
    the compiler; the one for SIGINT is taken first here, so where both
    effects are invalid the fatal line of a build may name the other. *)
Definition make_signal_handler (F : Flags) : M unit :=
  sigint ← GetRequestedAction (FLAGS_sigint_effect F);
  sighup ← GetRequestedAction (FLAGS_sighup_effect F);
  emit (NewSignalHandler sigint sighup).

(** Train / Finetune a model. *)
Definition train (F : Flags) : M Z :=
  CHECK (0 <? Z.of_nat (String.length (FLAGS_solver F)))
        "FLAGS_solver.size() > 0" "Need a solver definition to train.";;
  CHECK (negb (nonempty (FLAGS_snapshot F)) || negb (nonempty (FLAGS_weights F)))
        "!FLAGS_snapshot.size() || !FLAGS_weights.size()"
        "Give a snapshot to resume training or weights to finetune but not both.";;
  let stages := get_stages_from_flags F in
  emit (ReadSolverParamsFromTextFileOrDie (FLAGS_solver F));;
  read ← match solver_file env (FLAGS_solver F) with
         | Some p => ret p
         | None => LOG FATAL [Str "Failed to parse SolverParameter file: ";
                              Str (FLAGS_solver F)];;
                   halt Fatal
         end;
  let solver_param :=
    {| solver_mode := solver_mode read;
       device_id := device_id read;
       train_state_level := FLAGS_level F;
       train_state_stage := train_state_stage read ++ stages |} in
  (* If the gpus flag is not provided, allow the mode and device to be set
     in the solver prototxt. *)
  let gpu :=
    if negb (nonempty (FLAGS_gpu F)) then
      match solver_mode solver_param with
      | Some SolverMode_GPU =>
          match device_id solver_param with
          | Some id => lexical_cast_string id
          | None => lexical_cast_string 0
          end
      | _ => FLAGS_gpu F
      end
    else FLAGS_gpu F in
  gpus ← get_gpus gpu [];
  solver_param ←
    match gpus with
    | [] => LOG INFO [Str "Use CPU."];; emit (set_mode CPU);; ret solver_param
    | g0 :: _ =>
        if CPU_ONLY build then ret solver_param
        else
          (* Load all devices that will be used *)
          emit (SetDevices gpus);;
          LOG INFO [Str "Using GPUs "; Str (gpus_to_string gpus)];;
          (* Initialize the first device *)
          emit (SetDevice g0);;
          emit (set_mode GPU);;
          emit (set_solver_count (Z.of_nat (List.length gpus)));;
          ret {| solver_mode := solver_mode solver_param;
                 device_id := Some g0;
                 train_state_level := train_state_level solver_param;
                 train_state_stage := train_state_stage solver_param |}
    end;
  make_signal_handler F;;
  emit (CreateSolver solver_param);;
  emit SetActionFunction;;
  (if nonempty (FLAGS_snapshot F) then
     LOG INFO [Str "Resuming from "; Str (FLAGS_snapshot F)];;
     emit (Restore (FLAGS_snapshot F))
   else if nonempty (FLAGS_weights F) then CopyLayers (FLAGS_weights F)
   else ret tt);;
  LOG INFO [Str "Starting Optimization"];;
  (if (1 <? List.length gpus)%nat then
     if USE_CUDA build then
       if USE_NCCL build then
         emit (NCCL_Run gpus (if nonempty (FLAGS_snapshot F)
                              then Some (FLAGS_snapshot F) else None))
       else
         LOG FATAL [Str "Multi-GPU execution not available - rebuild with USE_NCCL"]
     else ret tt
   else emit Solve);;
  LOG INFO [Str "Optimization Done."];;
  teardown_device gpus;;
  ret 0.


(* ------------------------------------------------------------------- *)
(** ** Detection evaluation *)
(* ------------------------------------------------------------------- *)

(** [result_vec[i]].  A blob of [height()] rows holds five numbers per
    row; reading past the data is outside what the source defines and
    reads as zero here. *)
Definition read (result_vec : list float) (i : nat) : float :=
  nth i result_vec F32.zero.

(** [m[j]] on a map of maps: the inner map, empty where [j] is new. *)
Definition at_output {V} (m : gmap nat (gmap Z V)) (j : nat) : gmap Z V :=
  default ∅ (m !! j).

(** [m[j][label]] on a map of vectors: empty where the label is new. *)
Definition at_label {V} (m : gmap Z (list V)) (label : Z) : list V :=
  default [] (m !! label).

Record DetectionAccumulator := {
  all_true_pos : gmap nat (gmap Z (list (float * Z)));
  all_false_pos : gmap nat (gmap Z (list (float * Z)));
  all_num_pos : gmap nat (gmap Z Z)
}.

Definition empty_accumulator : DetectionAccumulator :=
  {| all_true_pos := ∅; all_false_pos := ∅; all_num_pos := ∅ |}.

(** The body of the loop over [k]: row [k] of output blob [j]. *)
Definition detection_row (j : nat) (result_vec : list float)
    (acc : DetectionAccumulator) (k : nat) : DetectionAccumulator :=
  let item_id := F32.to_int (read result_vec (k * 5)) in
  let label := F32.to_int (read result_vec (k * 5 + 1)) in
  if item_id =? -1 then
    (* Special row of storing number of positives for a label. *)
    let num_pos := at_output (all_num_pos acc) j in
    let n := F32.to_int (read result_vec (k * 5 + 2)) in
    let num_pos' :=
      match num_pos !! label with
      | None => <[label := n]> num_pos
      | Some old => <[label := Int.add old n]> num_pos
      end in
    {| all_true_pos := all_true_pos acc;
       all_false_pos := all_false_pos acc;
       all_num_pos := <[j := num_pos']> (all_num_pos acc) |}
  else
    (* Normal row storing detection status. *)
    let score := read result_vec (k * 5 + 2) in
    let tp := F32.to_int (read result_vec (k * 5 + 3)) in
    let fp := F32.to_int (read result_vec (k * 5 + 4)) in
    if (tp =? 0) && (fp =? 0) then
      (* Ignore such case. *)
      acc
    else
      let true_pos := at_output (all_true_pos acc) j in
      let false_pos := at_output (all_false_pos acc) j in
      {| all_true_pos :=
           <[j := <[label := at_label true_pos label ++ [(score, tp)]]> true_pos]>
             (all_true_pos acc);
         all_false_pos :=
           <[j := <[label := at_label false_pos label ++ [(score, fp)]]> false_pos]>
             (all_false_pos acc);
         all_num_pos := all_num_pos acc |}.

(** The loop over the rows of output blob [j]. *)
Definition detection_blob (acc : DetectionAccumulator) (jb : nat * Blob)
    : DetectionAccumulator :=
  fold_left (detection_row (fst jb) (cpu_data (snd jb)))
            (upto (Z.to_nat (height (snd jb)))) acc.

(** The loop over the output blobs of one forward pass. *)
Definition detection_result (acc : DetectionAccumulator) (result : list Blob)
    : DetectionAccumulator :=
  fold_left detection_blob (combine (upto (List.length result)) result) acc.

(** The first loop of [test_detection]: one forward pass per iteration. *)
Definition detection_accumulate (iterations : Z) : DetectionAccumulator :=
  fold_left (fun acc i => detection_result acc (fst (forward env i)))
            (upto (Z.to_nat iterations)) empty_accumulator.

(** The labels of a positives table in the order [std::map] iterates. *)
Definition label_le (a b : Z * Z) : Prop := fst a <= fst b.
#[local] Instance label_le_dec a b : Decision (label_le a b) :=
  Z_le_dec (fst a) (fst b).

Definition in_label_order (num_pos : gmap Z Z) : list (Z * Z) :=
  merge_sort label_le (map_to_list num_pos).

(** One round of the loop over the labels of [num_pos]: the running sum
    of average precisions, with the warnings logged. *)
Definition mAP_step (true_pos false_pos : gmap Z (list (float * Z)))
    (ap : string) (mAP : float) (it : Z * Z) : M float :=
  let label := fst it in
  let label_num_pos := snd it in
  match true_pos !! label with
  | None => LOG WARNING [Str "Missing true_pos for label: "; Int label];; ret mAP
  | Some label_true_pos =>
      match false_pos !! label with
      | None => LOG WARNING [Str "Missing false_pos for label: "; Int label];; ret mAP
      | Some label_false_pos =>
          ret (F32.add mAP (ComputeAP env label_true_pos label_num_pos label_false_pos ap))
      end
  end.

(** The mean average precision of one output: the sum over the labels of
    [num_pos], divided by [num_pos.size()]. *)
Definition mean_AP (true_pos false_pos : gmap Z (list (float * Z)))
    (num_pos : gmap Z Z) (ap : string) : M float :=
  mAP ← foldM (mAP_step true_pos false_pos ap) (in_label_order num_pos) F32.zero;
  ret (F32.div mAP (F32.of_Z (Z.of_nat (size num_pos)))).

(** The second loop of [test_detection]. *)
Definition detection_report (acc : DetectionAccumulator) (ap : string) : M unit :=
  forM_ (fun i =>
           true_pos ← match all_true_pos acc !! i with
                      | Some m => ret m
                      | None => LOG FATAL [Str "Missing output_blob true_pos: ";
                                           Int (Z.of_nat i)];; halt Fatal
                      end;
           false_pos ← match all_false_pos acc !! i with
                       | Some m => ret m
                       | None => LOG FATAL [Str "Missing output_blob false_pos: ";
                                            Int (Z.of_nat i)];; halt Fatal
                       end;
           num_pos ← match all_num_pos acc !! i with
                     | Some m => ret m
                     | None => LOG FATAL [Str "Missing output_blob num_pos: ";
                                          Int (Z.of_nat i)];; halt Fatal
                     end;
           mAP ← mean_AP true_pos false_pos num_pos ap;
           LOG INFO [Str "    Test net output #"; Int (Z.of_nat i); Str ": ";
                     Str (output_name env i); Str " = "; Flt mAP])
        (upto (size (all_true_pos acc))).

Definition test_detection (F : Flags) : M Z :=
  forM_ (fun _ => emit NetForward) (upto (Z.to_nat (FLAGS_iterations F)));;
  detection_report (detection_accumulate (FLAGS_iterations F)) (FLAGS_ap F);;
  ret 0.


(* --------------------------------------------------------------------- *)
(** ** Classification evaluation *)
(* --------------------------------------------------------------------- *)

(** The running sums of [test]: [loss], [test_score] and
    [test_score_output_id]. *)
Record ScoreAccumulator := {
  loss : float;
  test_score : list float;
  test_score_output_id : list nat
}.

Definition empty_scores : ScoreAccumulator :=
  {| loss := F32.zero; test_score := []; test_score_output_id := [] |}.

(** The body of the loop over [k]: one scalar of output blob [j] in
    iteration [i], at flattened index [idx].  The sum at [idx] exists from
    iteration 0 on; an index past the end of [test_score] is an
    out-of-range vector access. *)
Definition score_step (i j : nat) (st : ScoreAccumulator * nat) (score : float)
    : M (ScoreAccumulator * nat) :=
  let '(acc, idx) := st in
  acc' ← (if Nat.eqb i 0 then
            ret {| loss := loss acc;
                   test_score := test_score acc ++ [score];
                   test_score_output_id := test_score_output_id acc ++ [j] |}
          else
            match test_score acc !! idx with
            | Some sum =>
                ret {| loss := loss acc;
                       test_score := <[idx := F32.add sum score]> (test_score acc);
                       test_score_output_id := test_score_output_id acc |}
            | None => halt (Undefined "test_score[idx]")
            end);
  LOG INFO [Str "Batch "; Int (Z.of_nat i); Str ", "; Str (output_name env j);
            Str " = "; Flt score];;
  ret (acc', S idx).

(** The loop over the scalars of output blob [j]. *)
Definition score_blob (i : nat) (st : ScoreAccumulator * nat) (jb : nat * Blob)
    : M (ScoreAccumulator * nat) :=
  foldM (score_step i (fst jb)) (cpu_data (snd jb)) st.

(** Iteration [i] of the loop of [test]. *)
Definition score_iteration (acc : ScoreAccumulator) (i : nat) : M ScoreAccumulator :=
  emit NetForward;;
  let '(result, iter_loss) := forward env i in
  let acc := {| loss := F32.add (loss acc) iter_loss;
                test_score := test_score acc;
                test_score_output_id := test_score_output_id acc |} in
  st ← foldM (score_blob i) (combine (upto (List.length result)) result) (acc, 0%nat);
  ret (fst st).

Definition score_accumulate (iterations : Z) : M ScoreAccumulator :=
  foldM score_iteration (upto (Z.to_nat iterations)) empty_scores.

(** [loss /= FLAGS_iterations]. *)
Definition mean_loss (acc : ScoreAccumulator) (iterations : Z) : float :=
  F32.div (loss acc) (F32.of_Z iterations).

(** [test_score[i] / FLAGS_iterations], for every [i]. *)
Definition mean_scores (acc : ScoreAccumulator) (iterations : Z) : list float :=
  map (fun sum => F32.div sum (F32.of_Z iterations)) (test_score acc).

(** The line reporting one mean score. *)
Definition score_line (j : nat) (mean_score : float) : list Item :=
  let loss_weight := output_loss_weight env j in
  [Str (output_name env j); Str " = "; Flt mean_score] ++
  (if F32.is_zero loss_weight then []
   else [Str " (* "; Flt loss_weight; Str " = ";
         Flt (F32.mul loss_weight mean_score); Str " loss)"]).

Definition score_report (acc : ScoreAccumulator) (iterations : Z) : M unit :=
  LOG INFO [Str "Loss: "; Flt (mean_loss acc iterations)];;
  forM_ (fun '(j, mean_score) => LOG INFO (score_line j mean_score))
        (combine (test_score_output_id acc) (mean_scores acc iterations)).

(** The device set-up [test] and [time] share. *)
Definition use_device (gpus : list Z) : M unit :=
  match gpus with
  | g0 :: _ =>
      if CPU_ONLY build then ret tt
      else
        LOG INFO [Str "Use GPU with device ID "; Int g0];;
        emit (SetDevices gpus);;
        emit (set_mode GPU);;
        emit (SetDevice g0)
  | [] => LOG INFO [Str "Use CPU."];; emit (set_mode CPU)
  end.

(** Test: score a model. *)
Definition test (F : Flags) : M Z :=
  CHECK (0 <? Z.of_nat (String.length (FLAGS_model F)))
        "FLAGS_model.size() > 0" "Need a model definition to score.";;
  CHECK (0 <? Z.of_nat (String.length (FLAGS_weights F)))
        "FLAGS_weights.size() > 0" "Need model weights to score.";;
  let stages := get_stages_from_flags F in
  (* Set device id and mode *)
  gpus ← get_gpus (FLAGS_gpu F) [];
  use_device gpus;;
  (* Instantiate the caffe net. *)
  emit (NewNet (FLAGS_model F) TEST (FLAGS_level F) (Some stages));;
  emit (NetCopyTrainedLayersFrom (FLAGS_weights F));;
  LOG INFO [Str "Running for "; Int (FLAGS_iterations F); Str " iterations."];;
  (if FLAGS_detection F then
     test_detection F;; ret tt
   else
     acc ← score_accumulate (FLAGS_iterations F);
     score_report acc (FLAGS_iterations F));;
  teardown_device gpus;;
  ret 0.


(* --------------------------------------------------------------------- *)
(** ** The benchmark *)
(* --------------------------------------------------------------------- *)

(** The accumulators of [time]. *)
Record TimeAccumulator := {
  forward_time_per_layer : list double;
  backward_time_per_layer : list double;
  forward_time : double;
  backward_time : double
}.

Definition nlayers : nat := List.length (layer_names env).

Definition time_start : TimeAccumulator :=
  {| forward_time_per_layer := replicate nlayers F64.zero;
     backward_time_per_layer := replicate nlayers F64.zero;
     forward_time := F64.zero;
     backward_time := F64.zero |}.

(** [v[i] += x] on a vector of [double]. *)
Definition add_at (v : list double) (i : nat) (x : double) : list double :=
  alter (fun old => F64.add old x) i v.

(** [if (FLAGS_lt) { ... }]. *)
Definition when (b : bool) (m : M unit) : M unit := if b then m else ret tt.

Definition forward_pass (lt : bool) : M unit :=
  forM_ (fun i =>
           when lt (emit (TimerStart (layer_timers i)));;
           emit (LayerForward i);;
           when lt (emit (TimerStop (layer_timers i))))
        (upto nlayers).

Definition backward_pass (lt : bool) : M unit :=
  forM_ (fun i =>
           when lt (emit (TimerStart (layer_timers i)));;
           emit (LayerBackward i);;
           when lt (emit (TimerStop (layer_timers i))))
        (rev (upto nlayers)).

(** The per-layer forward sums of iteration [j], taken when [FLAGS_lt]. *)
Definition add_forward_layers (j : nat) (acc : TimeAccumulator) : TimeAccumulator :=
  fold_left (fun acc i =>
               {| forward_time_per_layer :=
                    add_at (forward_time_per_layer acc) i
                           (F64.of_float (layer_forward_us env j i));
                  backward_time_per_layer := backward_time_per_layer acc;
                  forward_time := forward_time acc;
                  backward_time := backward_time acc |})
            (upto nlayers) acc.

(** The per-layer backward sums of iteration [j] and the aggregate backward
    time, both taken when [FLAGS_lt]. *)
Definition add_backward_layers (j : nat) (acc : TimeAccumulator) : TimeAccumulator :=
  fold_left (fun acc i =>
               let per_layer :=
                 add_at (backward_time_per_layer acc) i
                        (F64.of_float (layer_backward_us env j i)) in
               {| forward_time_per_layer := forward_time_per_layer acc;
                  backward_time_per_layer := per_layer;
                  forward_time := forward_time acc;
                  backward_time :=
                    F64.add (backward_time acc) (nth i per_layer F64.zero) |})
            (upto nlayers) acc.

(** Iteration [j] of the benchmark loop. *)
Definition time_iteration (lt : bool) (phase : Phase) (acc : TimeAccumulator)
    (j : nat) : M TimeAccumulator :=
  emit (TimerStart iter_timer);;
  emit (TimerStart forward_timer);;
  forward_pass lt;;
  emit Synchronize;;
  let acc := {| forward_time_per_layer := forward_time_per_layer acc;
                backward_time_per_layer := backward_time_per_layer acc;
                forward_time :=
                  F64.add (forward_time acc) (F64.of_float (forward_us env j));
                backward_time := backward_time acc |} in
  let acc := if lt then add_forward_layers j acc else acc in
  acc ← match phase with
        | TRAIN =>
            backward_pass lt;;
            emit Synchronize;;
            ret (if lt then add_backward_layers j acc else acc)
        | TEST => ret acc
        end;
  LOG INFO [Str "Iteration: "; Int (Z.of_nat j + 1);
            Str " forward-backward time: "; Flt (iter_ms env j); Str " ms."];;
  ret acc.

Definition time_loop (lt : bool) (phase : Phase) (iterations : Z) : M TimeAccumulator :=
  foldM (time_iteration lt phase) (upto (Z.to_nat iterations)) time_start.

(** [x / 1000 / FLAGS_iterations] on a [double]. *)
Definition average_ms (x : double) (iterations : Z) : double :=
  F64.div (F64.div x (F64.of_Z 1000)) (F64.of_Z iterations).

Definition tab : string := String (ascii_of_nat 9) EmptyString.

Definition time_report (lt : bool) (iterations : Z) (acc : TimeAccumulator) : M unit :=
  when lt
    (LOG INFO [Str "Average time per layer: "];;
     forM_ (fun '(i, layername) =>
              LOG INFO [Str layername; Str (tab +:+ "forward: ");
                        Dbl (average_ms (nth i (forward_time_per_layer acc) F64.zero)
                                        iterations);
                        Str " ms."];;
              LOG INFO [Str layername; Str (tab +:+ "backward: ");
                        Dbl (average_ms (nth i (backward_time_per_layer acc) F64.zero)
                                        iterations);
                        Str " ms."])
           (combine (upto nlayers) (layer_names env)));;
  emit (TimerStop total_timer);;
  LOG INFO [Str "Average Forward pass: ";
            Dbl (average_ms (forward_time acc) iterations); Str " ms."];;
  LOG INFO [Str "Average Backward pass: ";
            Dbl (average_ms (backward_time acc) iterations); Str " ms."];;
  LOG INFO [Str "Average Forward-Backward: ";
            Flt (F32.div (total_ms env) (F32.of_Z iterations)); Str " ms."];;
  LOG INFO [Str "Total Time: "; Flt (total_ms env); Str " ms."];;
  LOG INFO [Str "*** Benchmark ends ***"].

(** Time: benchmark the execution time of a model. *)
Definition time (F : Flags) : M Z :=
  CHECK (0 <? Z.of_nat (String.length (FLAGS_model F)))
        "FLAGS_model.size() > 0" "Need a model definition to time.";;
  phase ← get_phase_from_flags F TRAIN;
  let stages := get_stages_from_flags F in
  (* Set device id and mode *)
  gpus ← get_gpus (FLAGS_gpu F) [];
  use_device gpus;;
  (* Instantiate the caffe net. *)
  emit (NewNet (FLAGS_model F) phase (FLAGS_level F) (Some stages));;
  (* Do a clean forward and backward pass, so that memory allocation are
     done and future iterations will be more stable. *)
  LOG INFO [Str "Performing Forward"];;
  emit NetForward;;
  LOG INFO [Str "Initial loss: "; Flt (snd (forward env 0))];;
  match phase with
  | TRAIN => LOG INFO [Str "Performing Backward"];; emit NetBackward
  | TEST => ret tt
  end;;
  LOG INFO [Str "*** Benchmark begins ***"];;
  LOG INFO [Str "Testing for "; Int (FLAGS_iterations F); Str " iterations."];;
  emit (TimerStart total_timer);;
  acc ← time_loop (FLAGS_lt F) phase (FLAGS_iterations F);
  time_report (FLAGS_lt F) (FLAGS_iterations F) acc;;
  teardown_device gpus;;
  ret 0.

Definition autotune (F : Flags) : M Z :=
  CHECK (0 <? Z.of_nat (String.length (FLAGS_model F)))
        "FLAGS_model.size() > 0" "Need a model definition to time.";;
  gpus ← get_gpus (FLAGS_gpu F) [];
  match gpus with
  | [] => LOG INFO [Str "Use CPU."];; emit (set_mode CPU)
  | g0 :: _ =>
      if CPU_ONLY build then ret tt
      else
        (* Load all devices that will be used *)
        emit (SetDevices gpus);;
        LOG INFO [Str "Using GPUs "; Str (gpus_to_string gpus)];;
        (* Initialize the first device *)
        emit (SetDevice g0);;
        emit (set_mode GPU);;
        emit (set_solver_count (Z.of_nat (List.length gpus)))
  end;;
  make_signal_handler F;;
  emit (NewNet (FLAGS_model F) TRAIN 0 None);;
  forM_ (fun i =>
           when (USE_LIBDNN build && layer_is_libdnn_conv env i) (emit (LayerTune i)))
        (upto nlayers);;
  ret 0.

(* --------------------------------------------------------------------- *)
(** ** The command registry and [main] *)
(* --------------------------------------------------------------------- *)

(** A [BrewFunction] is a pointer to one of the commands of the file. *)
Inductive BrewFunction :=
| fn_actions
| fn_device_query
| fn_train
| fn_test
| fn_time
| fn_autotune.

(** [RegisterBrewFunction(func)]: [g_brew_map[#func] = &func]. *)
Definition RegisterBrewFunction (name : string) (f : BrewFunction)
    (m : gmap string BrewFunction) : gmap string BrewFunction :=
  <[name := f]> m.

(** The registry once the static registerers have run, in the order the
    file declares them. *)
Definition g_brew_map : gmap string BrewFunction :=
  RegisterBrewFunction "autotune" fn_autotune
    (RegisterBrewFunction "time" fn_time
      (RegisterBrewFunction "test" fn_test
        (RegisterBrewFunction "train" fn_train
          (RegisterBrewFunction "device_query" fn_device_query
            (RegisterBrewFunction "actions" fn_actions ∅))))).

(** The names of a registry in the order [std::map] iterates. *)
Definition name_le (a b : string) : Prop := String.leb a b = true.
#[local] Instance name_le_dec a b : Decision (name_le a b) :=
  decide (String.leb a b = true).

Definition in_name_order (m : gmap string BrewFunction) : list string :=
  merge_sort name_le (map fst (map_to_list m)).

Definition actions : M Z :=
  LOG ERROR [Str "Available caffe actions:"];;
  forM_ (fun name => LOG ERROR [Str tab; Str name]) (in_name_order g_brew_map);;
  ret 0.

(** [g_brew_map[name]]: the pointer stored, a null pointer where [name] is
    new. *)
Definition GetBrewFunction (name : string) : M (option BrewFunction) :=
  match g_brew_map !! name with
  | Some f => ret (Some f)
  | None =>
      LOG ERROR [Str "Unknown action: "; Str name];;
      ret (g_brew_map !! "actions")
  end.

(** Calling through a [BrewFunction].  The library calls of the commands
    do not throw here, so no command ends in [bp::error_already_set];
    [main] has its handler all the same. *)
Definition call (F : Flags) (f : option BrewFunction) : M Z :=
  match f with
  | Some fn_actions => actions
  | Some fn_device_query => device_query F
  | Some fn_train => train F
  | Some fn_test => test F
  | Some fn_time => time F
  | Some fn_autotune => autotune F
  | None => halt (Undefined "call through a null BrewFunction")
  end.

(** [main] once [GlobalInit] has taken the flags out of the command line:
    [argv] is what is left of it, [F] the flags.  The value is the exit
    status of the process where [main] returns. *)
Definition main (F : Flags) (argv : list string) : M Z :=
  emit GlobalInit;;
  match argv with
  | [_; command] =>
      f ← GetBrewFunction command;
      match call F f with
      | (t, Halt (Thrown "bp::error_already_set")) =>
          if WITH_PYTHON_LAYER build then (t, Ret tt);; emit PyErr_Print;; ret 1
          else (t, Halt (Thrown "bp::error_already_set"))
      | (t, Halt s) => (t, Halt s)
      | (t, Ret r) => (t, Ret (if r =? 0 then 0 else 1))
      end
  | _ => emit ShowUsageWithFlagsRestrict;; ret 0
  end.

End Commands.

(* ===================================================================== *)
(** * Vocabulary of the properties *)
(* ===================================================================== *)

(** How a process ends: [main] returns a status, or the process is killed
    on the way. *)
Inductive ProcessEnd :=
| Exited (status : Z)
| Killed (s : Stop).

Definition process_end (m : M Z) : ProcessEnd :=
  match result m with
  | Ret status => Exited status
  | Halt s => Killed s
  end.

(** The fatal log lines of a trace. *)
Definition is_fatal_log (e : Event) : bool :=
  match e with
  | Log FATAL _ => true
  | _ => false
  end.

(** The events that build a solver, load state into it or run it. *)
Definition touches_solver (e : Event) : bool :=
  match e with
  | Call (CreateSolver _) | Call SetActionFunction | Call (Restore _)
  | Call (CopyTrainedLayersFrom _ _) | Call (NCCL_Run _ _) | Call Solve => true
  | _ => false
  end.

(** What an iteration of the benchmark without per-layer timing leaves
    alone: the per-layer tables and the aggregate backward time. *)
Definition untimed (env : Env) (acc : TimeAccumulator) : Prop :=
  forward_time_per_layer acc = replicate (nlayers env) F64.zero /\
  backward_time_per_layer acc = replicate (nlayers env) F64.zero /\
  backward_time acc = F64.zero.

(** The tokens of a device list written out: joined with commas. *)
Definition join_tokens (tokens : list string) : string :=
  String.concat "," tokens.

(** A token holds no comma. *)
Fixpoint comma_free (s : string) : bool :=
  match s with
  | EmptyString => true
  | String c s' => negb (is_comma c) && comma_free s'
  end.

(** [caffe ... -gpu 1,0,1]: a list with a device named twice. *)
Definition tokens_1_0_1 : list string := ["1"; "0"; "1"].

(** ** Classification scores, as the specification words them *)

(** The scalars of a forward pass, flattened over its output blobs. *)
Definition scalars (result : list Blob) : list float := flat_map cpu_data result.

(** The same with the index of the blob each comes from. *)
Definition tagged_scalars (jbs : list (nat * Blob)) : list (nat * float) :=
  flat_map (fun jb => map (pair (fst jb)) (cpu_data (snd jb))) jbs.

(** [sums[k] += scores[k]] for every [k], in [float] arithmetic. *)
Definition add_scores (sums scores : list float) : list float :=
  zip_with F32.add sums scores.

(** [f] times [2^c], where nothing overflows. *)
Definition scale (c : Z) (f : float) : float :=
  match f with
  | S754_finite s m e => S754_finite s m (e + c)
  | _ => f
  end.

(** What [k] rounds of adding [2^c] to a [float] sum come to: the sum
    follows [k * 2^c] up to [k = 2^24] and stays there. *)
Definition sum_of_rounds (c : Z) (k : Z) : float :=
  scale c (F32.of_Z (Z.min k (2 ^ 24))).

(** ** Detection rows, as the specification words them *)

(** One row of an output blob, decoded the way [test_detection] reads it. *)
Record Row := {
  row_item_id : Z;
  row_label : Z;
  row_third : float;   (* the count of a sentinel row, the score of a record *)
  row_tp : Z;
  row_fp : Z
}.

Definition row_at (result_vec : list float) (k : nat) : Row :=
  {| row_item_id := F32.to_int (read result_vec (k * 5));
     row_label := F32.to_int (read result_vec (k * 5 + 1));
     row_third := read result_vec (k * 5 + 2);
     row_tp := F32.to_int (read result_vec (k * 5 + 3));
     row_fp := F32.to_int (read result_vec (k * 5 + 4)) |}.

(** The rows of a run in the order they are met, each with the index of
    the output blob it comes from. *)
Definition rows_of_blob (jb : nat * Blob) : list (nat * Row) :=
  map (fun k => (fst jb, row_at (cpu_data (snd jb)) k))
      (upto (Z.to_nat (height (snd jb)))).

Definition rows_of_result (result : list Blob) : list (nat * Row) :=
  flat_map rows_of_blob (combine (upto (List.length result)) result).

Definition rows_seen (env : Env) (iterations : Z) : list (nat * Row) :=
  flat_map (fun i => rows_of_result (fst (forward env i)))
           (upto (Z.to_nat iterations)).

(** A sentinel row carries item id -1. *)
Definition is_sentinel (r : Row) : bool := row_item_id r =? -1.

(** A detection record that counts: not a sentinel, and not both flags
    zero. *)
Definition is_record (r : Row) : bool :=
  negb (is_sentinel r) && negb ((row_tp r =? 0) && (row_fp r =? 0)).

Definition for_label (j : nat) (label : Z) (x : nat * Row) : bool :=
  Nat.eqb (fst x) j && (row_label (snd x) =? label).

(** The counts the sentinel rows of output [j] carry for [label]. *)
Definition sentinel_counts (rows : list (nat * Row)) (j : nat) (label : Z) : list Z :=
  map (fun x => F32.to_int (row_third (snd x)))
      (List.filter (fun x => for_label j label x && is_sentinel (snd x)) rows).

(** Their sum, in [int] arithmetic; no entry where there is no sentinel. *)
Definition summed_positives (rows : list (nat * Row)) (j : nat) (label : Z) : option Z :=
  match sentinel_counts rows j label with
  | [] => None
  | n :: ns => Some (fold_left Int.add ns n)
  end.

(** The records of output [j] for [label], in the order met. *)
Definition records (rows : list (nat * Row)) (j : nat) (label : Z) : list Row :=
  map snd (List.filter (fun x => for_label j label x && is_record (snd x)) rows).

Definition true_pos_pairs (rs : list Row) : list (float * Z) :=
  map (fun r => (row_third r, row_tp r)) rs.

Definition false_pos_pairs (rs : list Row) : list (float * Z) :=
  map (fun r => (row_third r, row_fp r)) rs.

(** The entry of a map of vectors that holds [l]: none for an empty [l]. *)
Definition entry_of {A} (l : list A) : option (list A) :=
  match l with
  | [] => None
  | _ => Some l
  end.

(** [m.find(j)->second.find(label)] on a map of maps. *)
Definition find2 {V} (m : gmap nat (gmap Z V)) (j : nat) (label : Z) : option V :=
  match m !! j with
  | Some inner => inner !! label
  | None => None
  end.

(** [detection_row] on a decoded row. *)
Definition detection_step (acc : DetectionAccumulator) (x : nat * Row)
    : DetectionAccumulator :=
  let j := fst x in
  let r := snd x in
  if is_sentinel r then
    let num_pos := at_output (all_num_pos acc) j in
    let n := F32.to_int (row_third r) in
    {| all_true_pos := all_true_pos acc;
       all_false_pos := all_false_pos acc;
       all_num_pos :=
         <[j := match num_pos !! row_label r with
                | None => <[row_label r := n]> num_pos
                | Some old => <[row_label r := Int.add old n]> num_pos
                end]> (all_num_pos acc) |}
  else if (row_tp r =? 0) && (row_fp r =? 0) then acc
  else
    let true_pos := at_output (all_true_pos acc) j in
    let false_pos := at_output (all_false_pos acc) j in
    {| all_true_pos :=
         <[j := <[row_label r := at_label true_pos (row_label r)
                                   ++ [(row_third r, row_tp r)]]> true_pos]>
           (all_true_pos acc);
       all_false_pos :=
         <[j := <[row_label r := at_label false_pos (row_label r)
                                   ++ [(row_third r, row_fp r)]]> false_pos]>
           (all_false_pos acc);
       all_num_pos := all_num_pos acc |}.

(** What the accumulator holds once the rows [rows] have gone through it:
    per output and label, the summed sentinel counts and the pairs of the
    records. *)
Definition holds (rows : list (nat * Row)) (acc : DetectionAccumulator) : Prop :=
  forall (j : nat) (label : Z),
    find2 (all_num_pos acc) j label = summed_positives rows j label /\
    find2 (all_true_pos acc) j label = entry_of (true_pos_pairs (records rows j label)) /\
    find2 (all_false_pos acc) j label = entry_of (false_pos_pairs (records rows j label)).

(** ** The mean average precision, as the specification words it *)

(** A label of the positives table is scored when it has both a
    true-positive and a false-positive sequence. *)
Definition is_scored (true_pos false_pos : gmap Z (list (float * Z))) (it : Z * Z) : bool :=
  match true_pos !! fst it, false_pos !! fst it with
  | Some _, Some _ => true
  | _, _ => false
  end.

Definition scored_labels (true_pos false_pos : gmap Z (list (float * Z)))
    (num_pos : gmap Z Z) : list (Z * Z) :=
  List.filter (is_scored true_pos false_pos) (in_label_order num_pos).

(** The average precision of a label, from the external formula. *)
Definition AP_of (env : Env) (true_pos false_pos : gmap Z (list (float * Z)))
    (ap : string) (it : Z * Z) : float :=
  ComputeAP env (at_label true_pos (fst it)) (snd it) (at_label false_pos (fst it)) ap.

(** The sum of the average precisions of the labels [its], from zero, in
    [float] arithmetic and in the order of [its]. *)
Definition AP_sum (env : Env) (true_pos false_pos : gmap Z (list (float * Z)))
    (ap : string) (its : list (Z * Z)) (from : float) : float :=
  fold_left (fun mAP it => F32.add mAP (AP_of env true_pos false_pos ap it)) its from.

(** The warning a label that is not scored is logged with. *)
Definition missing_warning (true_pos false_pos : gmap Z (list (float * Z)))
    (it : Z * Z) : list Event :=
  match true_pos !! fst it with
  | None => [Log WARNING [Str "Missing true_pos for label: "; Int (fst it)]]
  | Some _ =>
      match false_pos !! fst it with
      | None => [Log WARNING [Str "Missing false_pos for label: "; Int (fst it)]]
      | Some _ => []
      end
  end.

(* ===================================================================== *)
(** * Inputs the properties are tried on *)
(* ===================================================================== *)

(** The numbers of the worked example: 0.9, 0.8, 0.7 and 0.5 as [float]s. *)
Definition tenths (n : Z) : float := F32.div (F32.of_Z n) (F32.of_Z 10).

(** A record row with both flags zero, as the flat data of a blob of one
    row. *)
Definition ignored_row_data : list float :=
  [F32.of_Z 1; F32.of_Z 5; tenths 7; F32.of_Z 0; F32.of_Z 0].

(** Two forward passes over one output blob, all rows for label 5: a
    sentinel of 3 with the records (0.9,1,0) and (0.8,0,1), then a sentinel
    of 2 with the record (0.5,1,0) and a row with both flags zero. *)
Definition example_pass_0 : Blob := {|
  height := 3;
  cpu_data := [F32.of_Z (-1); F32.of_Z 5; F32.of_Z 3; F32.of_Z (-1); F32.of_Z (-1);
               F32.of_Z 0; F32.of_Z 5; tenths 9; F32.of_Z 1; F32.of_Z 0;
               F32.of_Z 0; F32.of_Z 5; tenths 8; F32.of_Z 0; F32.of_Z 1]
|}.

Definition example_pass_1 : Blob := {|
  height := 3;
  cpu_data := [F32.of_Z (-1); F32.of_Z 5; F32.of_Z 2; F32.of_Z (-1); F32.of_Z (-1);
               F32.of_Z 1; F32.of_Z 5; tenths 7; F32.of_Z 0; F32.of_Z 0;
               F32.of_Z 1; F32.of_Z 5; tenths 5; F32.of_Z 1; F32.of_Z 0]
|}.

(** A positives table of two labels of which only label 5 has records. *)
Definition two_labels : gmap Z Z := <[7 := 2]> (<[5 := 3]> ∅).
Definition only_label_5 : gmap Z (list (float * Z)) :=
  <[5 := [(tenths 9, 1)]]> ∅.

Definition example_detection_env : Env := {|
  device_count := 0;
  backend_is_OpenCL := false;
  solver_file := fun _ => None;
  test_nets_size := 0;
  forward := fun i => match i with
                      | O => ([example_pass_0], F32.zero)
                      | _ => ([example_pass_1], F32.zero)
                      end;
  output_name := fun _ => "detection_eval";
  output_loss_weight := fun _ => F32.zero;
  ComputeAP := fun _ _ _ _ => F32.one;
  layer_names := [];
  layer_is_libdnn_conv := fun _ => false;
  forward_us := fun _ => F32.zero;
  layer_forward_us := fun _ _ => F32.zero;
  layer_backward_us := fun _ _ => F32.zero;
  iter_ms := fun _ => F32.zero;
  total_ms := F32.zero
|}.

Definition flags_snapshot_and_weights : Flags := {|
  FLAGS_gpu := EmptyString; FLAGS_solver := "solver.prototxt";
  FLAGS_model := EmptyString; FLAGS_phase := EmptyString;
  FLAGS_level := 0; FLAGS_stage := EmptyString;
  FLAGS_snapshot := "iter_100.solverstate";
  FLAGS_weights := "pretrained.caffemodel"; FLAGS_iterations := 50;
  FLAGS_sigint_effect := "stop"; FLAGS_sighup_effect := "snapshot";
  FLAGS_lt := false; FLAGS_detection := false; FLAGS_ap := "11point"
|}.

(** An OpenCL build: no CUDA, hence no NCCL. *)
Definition opencl_build : Build := {|
  CPU_ONLY := false; USE_CUDA := false; USE_NCCL := false;
  USE_GREENTEA := true; USE_LIBDNN := true; WITH_PYTHON_LAYER := false
|}.

(** A CUDA build with NCCL left out. *)
Definition cuda_build : Build := {|
  CPU_ONLY := false; USE_CUDA := true; USE_NCCL := false;
  USE_GREENTEA := false; USE_LIBDNN := false; WITH_PYTHON_LAYER := false
|}.

Definition plain_solver : SolverParameter := {|
  solver_mode := None; device_id := None;
  train_state_level := 0; train_state_stage := []
|}.

(** A world with two devices and a net of one layer whose every timer
    reading is one (microsecond or millisecond). *)
Definition small_env : Env := {|
  device_count := 2;
  backend_is_OpenCL := false;
  solver_file := fun _ => Some plain_solver;
  test_nets_size := 1;
  forward := fun _ => ([], F32.one);
  output_name := fun _ => "prob";
  output_loss_weight := fun _ => F32.zero;
  ComputeAP := fun _ _ _ _ => F32.one;
  layer_names := ["conv1"];
  layer_is_libdnn_conv := fun _ => false;
  forward_us := fun _ => F32.one;
  layer_forward_us := fun _ _ => F32.one;
  layer_backward_us := fun _ _ => F32.one;
  iter_ms := fun _ => F32.one;
  total_ms := F32.one
|}.

(** [caffe train -solver solver.prototxt -gpu 0,1]. *)
Definition flags_train_two_gpus : Flags := {|
  FLAGS_gpu := "0,1"; FLAGS_solver := "solver.prototxt";
  FLAGS_model := EmptyString; FLAGS_phase := EmptyString;
  FLAGS_level := 0; FLAGS_stage := EmptyString;
  FLAGS_snapshot := EmptyString;
  FLAGS_weights := EmptyString; FLAGS_iterations := 50;
  FLAGS_sigint_effect := "stop"; FLAGS_sighup_effect := "snapshot";
  FLAGS_lt := false; FLAGS_detection := false; FLAGS_ap := "11point"
|}.

(** [caffe time -model net.prototxt -iterations 1]. *)
Definition flags_time_once : Flags := {|
  FLAGS_gpu := EmptyString; FLAGS_solver := EmptyString;
  FLAGS_model := "net.prototxt"; FLAGS_phase := EmptyString;
  FLAGS_level := 0; FLAGS_stage := EmptyString;
  FLAGS_snapshot := EmptyString;
  FLAGS_weights := EmptyString; FLAGS_iterations := 1;
  FLAGS_sigint_effect := "stop"; FLAGS_sighup_effect := "snapshot";
  FLAGS_lt := false; FLAGS_detection := false; FLAGS_ap := "11point"
|}.

(** A world whose every forward pass delivers the scalars 2.0 and 4.0 in
    one output blob, with loss 1.0. *)
Definition identical_passes_env : Env := {|
  device_count := 0;
  backend_is_OpenCL := false;
  solver_file := fun _ => None;
  test_nets_size := 0;
  forward := fun _ => ([ {| height := 1; cpu_data := [F32.of_Z 2; F32.of_Z 4] |} ],
                       F32.one);
  output_name := fun _ => "prob";
  output_loss_weight := fun _ => F32.zero;
  ComputeAP := fun _ _ _ _ => F32.zero;
  layer_names := [];
  layer_is_libdnn_conv := fun _ => false;
  forward_us := fun _ => F32.zero;
  layer_forward_us := fun _ _ => F32.zero;
  layer_backward_us := fun _ _ => F32.zero;
  iter_ms := fun _ => F32.zero;
  total_ms := F32.zero
|}.

(** A world whose forward pass [i] delivers [i + 1] scalars: the count
    grows from pass to pass. *)
Definition growing_passes_env : Env := {|
  device_count := 0;
  backend_is_OpenCL := false;
  solver_file := fun _ => None;
  test_nets_size := 0;
  forward := fun i => ([ {| height := 1; cpu_data := repeat F32.one (S i) |} ],
                       F32.one);
  output_name := fun _ => "prob";
  output_loss_weight := fun _ => F32.zero;
  ComputeAP := fun _ _ _ _ => F32.zero;
  layer_names := [];
  layer_is_libdnn_conv := fun _ => false;
  forward_us := fun _ => F32.zero;
  layer_forward_us := fun _ _ => F32.zero;
  layer_backward_us := fun _ _ => F32.zero;
  iter_ms := fun _ => F32.zero;
  total_ms := F32.zero
|}.

(* ===================================================================== *)
(** * Vocabulary of the further properties *)
(* ===================================================================== *)

(** ** Traces *)

(** Every event of a computation satisfies [P]. *)
Definition only_events {A} (P : Event -> Prop) (m : M A) : Prop :=
  forall e, In e (trace m) -> P e.

(** Every call of a computation into the library satisfies [Q]; log lines
    are free. *)
Definition only_calls {A} (Q : ExtCall -> Prop) (m : M A) : Prop :=
  only_events (fun e => match e with Call c => Q c | Log _ _ => True end) m.

(** The computation does not return. *)
Definition stops {A} (m : M A) : Prop := exists s, result m = Halt s.

(** The calls a forward-only evaluation is made of: device selection,
    building the net and loading its weights, forward passes. *)
Definition is_evaluation_call (c : ExtCall) : bool :=
  match c with
  | EnumerateDevices _ | SetDevices _ | SetDevice _ | set_mode _
  | TeardownDevice _ | NewNet _ TEST _ _ | NetCopyTrainedLayersFrom _
  | NetForward => true
  | _ => false
  end.

(** The calls that run a backward pass. *)
Definition is_backward_call (c : ExtCall) : bool :=
  match c with
  | NetBackward | LayerBackward _ => true
  | _ => false
  end.

(** The calls that select or release an accelerator. *)
Definition is_device_call (c : ExtCall) : bool :=
  match c with
  | EnumerateDevices _ | SetDevices _ | SetDevice _ | set_mode GPU
  | set_solver_count _ | TeardownDevice _ | DeviceQuery => true
  | _ => false
  end.

Definition is_NCCL_Run (c : ExtCall) : bool :=
  match c with
  | NCCL_Run _ _ => true
  | _ => false
  end.

(** The names [GetRequestedAction] knows. *)
Definition is_signal_effect (s : string) : bool :=
  String.eqb s "stop" || String.eqb s "snapshot" || String.eqb s "none".

(** ** Further inputs *)

(** [caffe time -model net.prototxt -phase TEST]. *)
Definition flags_time_test_phase : Flags := {|
  FLAGS_gpu := EmptyString; FLAGS_solver := EmptyString;
  FLAGS_model := "net.prototxt"; FLAGS_phase := "TEST";
  FLAGS_level := 0; FLAGS_stage := EmptyString;
  FLAGS_snapshot := EmptyString;
  FLAGS_weights := EmptyString; FLAGS_iterations := 1;
  FLAGS_sigint_effect := "stop"; FLAGS_sighup_effect := "snapshot";
  FLAGS_lt := true; FLAGS_detection := false; FLAGS_ap := "11point"
|}.

(** [caffe time -model net.prototxt -phase VAL]. *)
Definition flags_time_unknown_phase : Flags := {|
  FLAGS_gpu := EmptyString; FLAGS_solver := EmptyString;
  FLAGS_model := "net.prototxt"; FLAGS_phase := "VAL";
  FLAGS_level := 0; FLAGS_stage := EmptyString;
  FLAGS_snapshot := EmptyString;
  FLAGS_weights := EmptyString; FLAGS_iterations := 1;
  FLAGS_sigint_effect := "stop"; FLAGS_sighup_effect := "snapshot";
  FLAGS_lt := false; FLAGS_detection := false; FLAGS_ap := "11point"
|}.

(** [caffe train -solver solver.prototxt -model net.prototxt
    -sigint_effect quit]. *)
Definition flags_train_unknown_signal : Flags := {|
  FLAGS_gpu := EmptyString; FLAGS_solver := "solver.prototxt";
  FLAGS_model := "net.prototxt"; FLAGS_phase := EmptyString;
  FLAGS_level := 0; FLAGS_stage := EmptyString;
  FLAGS_snapshot := EmptyString;
  FLAGS_weights := EmptyString; FLAGS_iterations := 50;
  FLAGS_sigint_effect := "quit"; FLAGS_sighup_effect := "snapshot";
  FLAGS_lt := false; FLAGS_detection := false; FLAGS_ap := "11point"
|}.

(** [caffe train -solver solver.prototxt]. *)
Definition flags_train_plain : Flags := {|
  FLAGS_gpu := EmptyString; FLAGS_solver := "solver.prototxt";
  FLAGS_model := EmptyString; FLAGS_phase := EmptyString;
  FLAGS_level := 0; FLAGS_stage := EmptyString;
  FLAGS_snapshot := EmptyString;
  FLAGS_weights := EmptyString; FLAGS_iterations := 50;
  FLAGS_sigint_effect := "stop"; FLAGS_sighup_effect := "snapshot";
  FLAGS_lt := false; FLAGS_detection := false; FLAGS_ap := "11point"
|}.

(** [caffe train -solver solver.prototxt -snapshot iter_100.solverstate]. *)
Definition flags_train_resume : Flags := {|
  FLAGS_gpu := EmptyString; FLAGS_solver := "solver.prototxt";
  FLAGS_model := EmptyString; FLAGS_phase := EmptyString;
  FLAGS_level := 0; FLAGS_stage := EmptyString;
  FLAGS_snapshot := "iter_100.solverstate";
  FLAGS_weights := EmptyString; FLAGS_iterations := 50;
  FLAGS_sigint_effect := "stop"; FLAGS_sighup_effect := "snapshot";
  FLAGS_lt := false; FLAGS_detection := false; FLAGS_ap := "11point"
|}.

(** A solver file that asks for the GPU mode on device 1. *)
Definition gpu_solver : SolverParameter := {|
  solver_mode := Some SolverMode_GPU; device_id := Some 1;
  train_state_level := 0; train_state_stage := []
|}.

Definition gpu_solver_env : Env := {|
  device_count := 2;
  backend_is_OpenCL := false;
  solver_file := fun _ => Some gpu_solver;
  test_nets_size := 1;
  forward := fun _ => ([], F32.one);
  output_name := fun _ => "prob";
  output_loss_weight := fun _ => F32.zero;
  ComputeAP := fun _ _ _ _ => F32.one;
  layer_names := ["conv1"];
  layer_is_libdnn_conv := fun _ => false;
  forward_us := fun _ => F32.one;
  layer_forward_us := fun _ _ => F32.one;
  layer_backward_us := fun _ _ => F32.one;
  iter_ms := fun _ => F32.one;
  total_ms := F32.one
|}.

(** Three sums, as a pass of three scalars leaves them. *)
Definition three_sums : ScoreAccumulator := {|
  loss := F32.one;
  test_score := [F32.one; F32.one; F32.one];
  test_score_output_id := [0%nat; 0%nat; 0%nat]
|}.

(** The commas of a string. *)
Fixpoint commas (s : string) : nat :=
  match s with
  | EmptyString => 0
  | String c s' => (if is_comma c then 1 else 0) + commas s'
  end.

(** A call on layer [i] between the start and the stop of its timer, where
    layers are timed. *)
Definition timed_layer_call (lt : bool) (call : nat -> ExtCall) (i : nat) : list Event :=
  (if lt then [Call (TimerStart (layer_timers i))] else []) ++
  [Call (call i)] ++
  (if lt then [Call (TimerStop (layer_timers i))] else []).

(** What copying the layers of one file comes to: the file is announced,
    then loaded into the train net and into every test net in turn. *)
Definition copies_of (env : Env) (name : string) : list Event :=
  Log INFO [Str "Finetuning from "; Str name] ::
  Call (CopyTrainedLayersFrom solver_net name) ::
  map (fun j => Call (CopyTrainedLayersFrom (solver_test_net j) name))
      (upto (test_nets_size env)).

(** The calls of [CopyLayers] on a trace. *)
Definition is_copy (e : Event) : bool :=
  match e with
  | Call (CopyTrainedLayersFrom _ _) => true
  | _ => false
  end.

(** The sum of timer readings in a [double], from zero, in the order
    read. *)
Definition sum_readings (readings : list float) : double :=
  fold_left (fun s x => F64.add s (F64.of_float x)) readings F64.zero.

(** What the benchmark has summed after [k] iterations, but for the
    aggregate backward time. *)
Definition timed_so_far (env : Env) (lt : bool) (phase : Phase) (k : nat)
    (acc : TimeAccumulator) : Prop :=
  forward_time acc = sum_readings (map (forward_us env) (upto k)) /\
  List.length (forward_time_per_layer acc) = nlayers env /\
  List.length (backward_time_per_layer acc) = nlayers env /\
  (forall i, (i < nlayers env)%nat ->
     forward_time_per_layer acc !! i =
     Some (if lt then sum_readings (map (fun j => layer_forward_us env j i) (upto k))
           else F64.zero)) /\
  (forall i, (i < nlayers env)%nat ->
     backward_time_per_layer acc !! i =
     Some (match lt, phase with
           | true, TRAIN => sum_readings (map (fun j => layer_backward_us env j i) (upto k))
           | _, _ => F64.zero
           end)).

(** ** Detection tables *)

(** No output of a table of tables has an empty inner table. *)
Definition inhabited {V} (m : gmap nat (gmap Z V)) : Prop :=
  forall (j : nat) (inner : gmap Z V), m !! j = Some inner -> inner <> ∅.

(** The log lines about a false-positive table that is not there. *)
Definition is_missing_false_pos (e : Event) : bool :=
  match e with
  | Log _ (Str what :: _) =>
      String.eqb what "Missing output_blob false_pos: " ||
      String.eqb what "Missing false_pos for label: "
  | _ => false
  end.


(** The index of the output blob of every scalar of a forward pass, in
    the order of the scalars. *)
Definition output_ids (result : list Blob) : list nat :=
  map fst (tagged_scalars (combine (upto (List.length result)) result)).

(** Whatever the computation returns satisfies [P]. *)
Definition returns_only {A} (P : A -> Prop) (m : M A) : Prop :=
  forall a, result m = Ret a -> P a.

Definition is_Restore (c : ExtCall) : bool :=
  match c with
  | Restore _ => true
  | _ => false
  end.

(** The values of [-phase] that [get_phase_from_flags] knows. *)
Definition is_phase_name (s : string) : bool :=
  String.eqb s EmptyString || String.eqb s "TRAIN" || String.eqb s "TEST".


(* ===================================================================== *)
(** * Log lines as they are printed *)
(* ===================================================================== *)

(** [os << x] for a [float] or a [double] under the default format flags,
    as [LOG(...) << x] and an [ostringstream] print it: the conversion [%g]
    of [printf] with precision 6.  The exact binary value is rounded, half
    to even, to six significant decimal digits; with [X] the decimal
    exponent of the rounded value, the fixed notation is used for
    [-4 <= X < 6] and the scientific one otherwise; trailing zeros of the
    fraction go, and the point with them. *)
Module Text.

(** [10^X <= num/den], for [den > 0]. *)
Definition pow10_le (X : Z) (num den : Z) : bool :=
  if 0 <=? X then 10 ^ X * den <=? num else den <=? num * 10 ^ (- X).

(** The decimal exponent of [num/den > 0], the largest [X] with
    [10^X <= num/den]: looked for upwards from 0 where the value is at
    least 1, downwards from -1 where it is less.  The fuel spans the range
    of a [double]. *)
Fixpoint exponent_up (fuel : nat) (X : Z) (num den : Z) : Z :=
  match fuel with
  | O => X
  | S fuel' =>
      if pow10_le (X + 1) num den then exponent_up fuel' (X + 1) num den else X
  end.

Fixpoint exponent_down (fuel : nat) (X : Z) (num den : Z) : Z :=
  match fuel with
  | O => X
  | S fuel' =>
      if pow10_le X num den then X else exponent_down fuel' (X - 1) num den
  end.

Definition exponent10 (num den : Z) : Z :=
  if den <=? num then exponent_up 400 0 num den
  else exponent_down 400 (-1) num den.

(** [n/d] rounded to the nearest integer, a tie to the even one. *)
Definition round_half_even (n d : Z) : Z :=
  let q := n / d in
  let r := n mod d in
  if (d <? 2 * r) || ((d =? 2 * r) && Z.odd q) then q + 1 else q.

(** The six significant digits [D] and the decimal exponent [X] of
    [num/den > 0]: the value printed is [D * 10^(X-5)], with
    [10^5 <= D < 10^6]. *)
Definition significant6 (num den : Z) : Z * Z :=
  let X := exponent10 num den in
  let D := if X <=? 5 then round_half_even (num * 10 ^ (5 - X)) den
           else round_half_even num (den * 10 ^ (X - 5)) in
  if D =? 1000000 then (100000, X + 1) else (D, X).

(** A string without its trailing zeros. *)
Fixpoint strip_zeros (s : string) : string :=
  match s with
  | EmptyString => EmptyString
  | String c s' =>
      match strip_zeros s' with
      | EmptyString => if Ascii.eqb c "0" then EmptyString else String c EmptyString
      | r => String c r
      end
  end.

Fixpoint zeros (n : nat) : string :=
  match n with
  | O => EmptyString
  | S n' => String "0" (zeros n')
  end.

(** A fraction after its point, or nothing where no digit is left. *)
Definition fraction (digits : string) : string :=
  match strip_zeros digits with
  | EmptyString => EmptyString
  | r => "." +:+ r
  end.

(** The exponent of the scientific notation: a sign and at least two
    digits. *)
Definition exponent_field (X : Z) : string :=
  "e" +:+ (if X <? 0 then "-" else "+") +:+
  (if Z.abs X <? 10 then "0" else EmptyString) +:+ pretty (Z.abs X).

(** [num/den > 0] in the style of [%g]. *)
Definition positive (num den : Z) : string :=
  let '(D, X) := significant6 num den in
  let digits := pretty D in
  if (-4 <=? X) && (X <? 6) then
    if 0 <=? X then
      substring 0 (Z.to_nat (X + 1)) digits +:+
      fraction (substring (Z.to_nat (X + 1)) (Z.to_nat (5 - X)) digits)
    else
      "0" +:+ fraction (zeros (Z.to_nat (- X - 1)) +:+ digits)
  else
    substring 0 1 digits +:+ fraction (substring 1 5 digits) +:+ exponent_field X.

Definition sign (s : bool) : string := if s then "-" else EmptyString.

(** A binary floating-point number of any format; the sign of a NaN is not
    kept by [spec_float] and is not printed here. *)
Definition render_float (f : spec_float) : string :=
  match f with
  | S754_zero s => sign s +:+ "0"
  | S754_infinity s => sign s +:+ "inf"
  | S754_nan => "nan"
  | S754_finite s m e =>
      sign s +:+
      (if 0 <=? e then positive (Zpos m * 2 ^ e) 1
       else positive (Zpos m) (2 ^ (- e)))
  end.

(** What [<<] appends for an item streamed without a manipulator. *)
Definition item (i : Item) : string :=
  match i with
  | Str s => s
  | Int z => pretty z
  | Flt f => render_float f
  | Dbl d => render_float d
  end.

(** The text of a log line. *)
Definition line (msg : list Item) : string := String.concat EmptyString (map item msg).

(** The texts of the log lines of a trace, in order. *)
Definition lines (t : list Event) : list string :=
  flat_map (fun e => match e with
                     | Log _ msg => [line msg]
                     | Call _ => []
                     end) t.

End Text.

(* ===================================================================== *)
(** * The effect monad *)
(* ===================================================================== *)

Lemma bind_Ret {A B} (t : list Event) (a : A) (k : A -> M B) :
  bind (t, Ret a) k = (t ++ fst (k a), snd (k a)).
Proof. unfold bind. destruct (k a); reflexivity. Qed.

Lemma bind_Halt {A B} (t : list Event) (s : Stop) (k : A -> M B) :
  bind (t, Halt s) k = (t, Halt s).
Proof. reflexivity. Qed.

Lemma bind_ret_l {A B} (a : A) (k : A -> M B) : bind (ret a) k = k a.
Proof. unfold ret. rewrite bind_Ret. destruct (k a); reflexivity. Qed.

Ltac munfold :=
  unfold mbind, M_bind, mret, M_ret in *.

(** A loop of steps that cannot stop runs to its end. *)
Lemma foldM_total {A S} (f : S -> A -> M S) (l : list A) :
  (forall s x, exists t s', f s x = (t, Ret s')) ->
  forall s, exists t s', foldM f l s = (t, Ret s').
Proof.
  intros Hf. induction l as [|x l IH]; intros s; simpl.
  - exists [], s. reflexivity.
  - destruct (Hf s x) as (t & s' & E). destruct (IH s') as (t' & s'' & E').
    munfold. rewrite E, bind_Ret, E'. simpl. eauto.
Qed.

(** A loop whose steps keep an invariant and cannot stop ends in a state
    that has it. *)
Lemma foldM_invariant {A S} (P : S -> Prop) (f : S -> A -> M S) (l : list A) :
  (forall s x, P s -> exists t s', f s x = (t, Ret s') /\ P s') ->
  forall s, P s -> exists t s', foldM f l s = (t, Ret s') /\ P s'.
Proof.
  intros Hf. induction l as [|x l IH]; intros s Hs; simpl.
  - exists [], s. split; [reflexivity | assumption].
  - destruct (Hf s x Hs) as (t & s' & E & Hs').
    destruct (IH s' Hs') as (t' & s'' & E' & Hs'').
    munfold. rewrite E, bind_Ret, E'. simpl. eauto.
Qed.

Lemma forM__total {A} (f : A -> M unit) (l : list A) :
  (forall x, exists t, f x = (t, Ret tt)) ->
  exists t, forM_ f l = (t, Ret tt).
Proof.
  intros Hf. unfold forM_.
  destruct (foldM_total (fun _ x => f x) l) with (s := tt) as (t & [] & E).
  - intros _ x. destruct (Hf x) as [t E]. exists t, tt. exact E.
  - exists t. exact E.
Qed.

Lemma nonempty_true (s : string) : s <> EmptyString -> nonempty s = true.
Proof. destruct s; [congruence | reflexivity]. Qed.

(* ===================================================================== *)
(** * The training orchestrator *)
(* ===================================================================== *)

(** C7.  When both a snapshot and a list of weights are given, [train]
    aborts on a fatal check before it calls anything: the trace holds no
    call into the library at all, so no solver is built and nothing is
    restored or copied. *)
Theorem train_rejects_snapshot_with_weights (build : Build) (env : Env) (F : Flags) :
  FLAGS_snapshot F <> EmptyString ->
  FLAGS_weights F <> EmptyString ->
  result (train build env F) = Halt Fatal /\
  (exists msg, trace (train build env F) = [Log FATAL msg]) /\
  (forall c, ~ In (Call c) (trace (train build env F))) /\
  forallb (fun e => negb (touches_solver e)) (trace (train build env F)) = true.
Proof.
  intros Hs Hw. unfold train.
  rewrite (nonempty_true _ Hs), (nonempty_true _ Hw). simpl negb. simpl orb.
  destruct (0 <? Z.of_nat (String.length (FLAGS_solver F))); cbn.
  - repeat split; eauto. intros c [H | []]. discriminate.
  - repeat split; eauto. intros c [H | []]. discriminate.
Qed.

Lemma train_rejects_snapshot_with_weights_witness :
  FLAGS_snapshot flags_snapshot_and_weights <> EmptyString /\
  FLAGS_weights flags_snapshot_and_weights <> EmptyString /\
  result (train cuda_build small_env flags_snapshot_and_weights) = Halt Fatal.
Proof.
  assert (Hs : FLAGS_snapshot flags_snapshot_and_weights <> EmptyString)
    by (simpl; discriminate).
  assert (Hw : FLAGS_weights flags_snapshot_and_weights <> EmptyString)
    by (simpl; discriminate).
  split; [exact Hs | split; [exact Hw |]].
  exact (proj1 (train_rejects_snapshot_with_weights
                  cuda_build small_env flags_snapshot_and_weights Hs Hw)).
Defined.

(** C3.  In a build without CUDA (an OpenCL build, say) [train] with two
    devices neither aborts nor trains: it builds the solver, skips the
    optimization altogether, reports that it is done and returns 0.  No
    fatal line is logged; [Solve] is not run either. *)
Theorem train_two_gpus_without_cuda :
  train opencl_build small_env flags_train_two_gpus =
    ([Call (ReadSolverParamsFromTextFileOrDie "solver.prototxt");
      Call (SetDevices [0; 1]);
      Log INFO [Str "Using GPUs "; Str "0, 1"];
      Call (SetDevice 0); Call (set_mode GPU); Call (set_solver_count 2);
      Call (NewSignalHandler STOP SNAPSHOT);
      Call (CreateSolver {| solver_mode := None; device_id := Some 0;
                            train_state_level := 0;
                            train_state_stage := [EmptyString] |});
      Call SetActionFunction;
      Log INFO [Str "Starting Optimization"];
      Log INFO [Str "Optimization Done."]],
     Ret 0) /\
  existsb is_fatal_log (trace (train opencl_build small_env flags_train_two_gpus)) = false /\
  (* the sibling build, CUDA without NCCL, does abort *)
  result (train cuda_build small_env flags_train_two_gpus) = Halt Fatal.
Proof. repeat split; vm_compute; reflexivity. Qed.

(* ===================================================================== *)
(** * The command registry *)
(* ===================================================================== *)

Lemma actions_returns_0 : exists t, actions = (t, Ret 0).
Proof. eexists. vm_compute. reflexivity. Qed.

Lemma actions_is_registered : g_brew_map !! "actions" = Some fn_actions.
Proof. vm_compute. reflexivity. Qed.

(** C2.  A command name the registry does not hold is logged as an error
    and answered with the listing command, as the claim says; but the
    listing returns 0, so the process exits with status 0 and not with a
    failure status. *)
Theorem main_unknown_command_exits_0
    (build : Build) (env : Env) (F : Flags) (prog name : string) :
  g_brew_map !! name = None ->
  GetBrewFunction name =
    ([Log ERROR [Str "Unknown action: "; Str name]], Ret (Some fn_actions)) /\
  process_end (main build env F [prog; name]) = Exited 0.
Proof.
  intros Hnone.
  assert (Hget : GetBrewFunction name =
                 ([Log ERROR [Str "Unknown action: "; Str name]], Ret (Some fn_actions))).
  { unfold GetBrewFunction. rewrite Hnone, actions_is_registered. reflexivity. }
  split; [exact Hget |].
  unfold process_end, result, main. rewrite Hget.
  destruct actions_returns_0 as [t Ht].
  munfold. cbn [emit bind call]. rewrite Ht. reflexivity.
Qed.

Lemma main_unknown_command_exits_0_witness :
  g_brew_map !! "bogus" = None /\
  process_end (main opencl_build small_env default_flags ["caffe"; "bogus"]) = Exited 0.
Proof.
  assert (H : g_brew_map !! "bogus" = None) by (vm_compute; reflexivity).
  split; [exact H |].
  exact (proj2 (main_unknown_command_exits_0
                  opencl_build small_env default_flags "caffe" "bogus" H)).
Defined.

(** For a registered command the exit status is 0 exactly when the command
    returns 0. *)
Lemma main_registered_command_status
    (build : Build) (env : Env) (F : Flags) (prog name : string)
    (f : BrewFunction) (r : Z) :
  g_brew_map !! name = Some f ->
  result (call build env F (Some f)) = Ret r ->
  process_end (main build env F [prog; name]) = Exited (if r =? 0 then 0 else 1) /\
  (process_end (main build env F [prog; name]) = Exited 0 <-> r = 0).
Proof.
  intros Hf Hr.
  assert (E : process_end (main build env F [prog; name]) =
              Exited (if r =? 0 then 0 else 1)).
  { unfold process_end, result, main, GetBrewFunction. rewrite Hf.
    munfold. cbn [emit bind ret].
    destruct (call build env F (Some f)) as [t [r' | s]] eqn:Ec.
    - simpl in Hr. injection Hr as ->. reflexivity.
    - discriminate Hr. }
  split; [exact E |]. rewrite E.
  destruct (Z.eqb_spec r 0); split; intros H; try congruence; try reflexivity.
Qed.

(* ===================================================================== *)
(** * The benchmark *)
(* ===================================================================== *)

Section Benchmark.
Variable build : Build.
Variable env : Env.

Lemma when_false_total (m : M unit) : when false m = ([], Ret tt).
Proof. reflexivity. Qed.

Lemma forward_pass_total (lt : bool) :
  exists t, forward_pass env lt = (t, Ret tt).
Proof.
  apply forM__total. intros i. destruct lt; eexists; reflexivity.
Qed.

Lemma backward_pass_total (lt : bool) :
  exists t, backward_pass env lt = (t, Ret tt).
Proof.
  apply forM__total. intros i. destruct lt; eexists; reflexivity.
Qed.

Lemma time_iteration_untimed (phase : Phase) (acc : TimeAccumulator) (j : nat) :
  untimed env acc ->
  exists t acc', time_iteration env false phase acc j = (t, Ret acc') /\ untimed env acc'.
Proof.
  intros (Hf & Hb & Ht). unfold time_iteration.
  destruct (forward_pass_total false) as [tf Ef].
  destruct (backward_pass_total false) as [tb Eb].
  munfold. cbn [emit bind]. rewrite Ef. cbn [bind emit].
  destruct phase; cbn [bind emit ret].
  - rewrite Eb. cbn. eexists _, _. split; [reflexivity |].
    repeat split; assumption.
  - cbn. eexists _, _. split; [reflexivity |]. repeat split; assumption.
Qed.

Lemma time_loop_untimed (phase : Phase) (iterations : Z) :
  exists t acc, time_loop env false phase iterations = (t, Ret acc) /\ untimed env acc.
Proof.
  unfold time_loop. apply foldM_invariant with (P := untimed env).
  - intros acc j H. apply time_iteration_untimed. exact H.
  - repeat split.
Qed.

End Benchmark.

(** C1.  Without per-layer timing the benchmark loop runs to its end with
    the per-layer tables all zero, as the claim says, but the aggregate
    backward time is never added to either: it is still 0.0 after the
    loop, in the TRAIN phase too and however long the passes took; the
    line "Average Backward pass" of a run of one iteration over a net of one
    layer reports zero. *)
Theorem time_backward_time_zero_without_layer_timing
    (env : Env) (phase : Phase) (iterations : Z) :
  (exists t acc,
     time_loop env false phase iterations = (t, Ret acc) /\
     forward_time_per_layer acc = replicate (nlayers env) F64.zero /\
     backward_time_per_layer acc = replicate (nlayers env) F64.zero /\
     backward_time acc = F64.zero) /\
  result (time opencl_build small_env flags_time_once) = Ret 0 /\
  In (Log INFO [Str "Average Backward pass: "; Dbl (S754_zero false); Str " ms."])
     (trace (time opencl_build small_env flags_time_once)) /\
  In (Call (LayerBackward 0)) (trace (time opencl_build small_env flags_time_once)).
Proof.
  split.
  - destruct (time_loop_untimed env phase iterations) as (t & acc & E & H).
    exists t, acc. split; [exact E | exact H].
  - vm_compute. intuition.
Qed.

(* ===================================================================== *)
(** * The device selector *)
(* ===================================================================== *)

Lemma split_nonempty sep s : split sep s <> [].
Proof.
  destruct s as [|c s]; simpl; [discriminate |].
  destruct (sep c); [discriminate |].
  destruct (split sep s); discriminate.
Qed.

Lemma split_comma_free (t : string) :
  comma_free t = true -> split is_comma t = [t].
Proof.
  induction t as [|c t IH]; simpl; [reflexivity |].
  intros H. apply andb_true_iff in H as [Hc Ht].
  apply negb_true_iff in Hc. rewrite Hc, (IH Ht). reflexivity.
Qed.

Lemma split_token_comma (t rest : string) :
  comma_free t = true ->
  split is_comma (t +:+ "," +:+ rest) = t :: split is_comma rest.
Proof.
  induction t as [|c t IH]; simpl.
  - reflexivity.
  - intros H. apply andb_true_iff in H as [Hc Ht].
    apply negb_true_iff in Hc. rewrite Hc.
    change (String.append t (String "," rest)) with (t +:+ "," +:+ rest).
    rewrite (IH Ht). reflexivity.
Qed.

Lemma split_join (tokens : list string) :
  tokens <> [] ->
  Forall (fun t => comma_free t = true) tokens ->
  split is_comma (join_tokens tokens) = tokens.
Proof.
  intros Hne H. induction H as [|t ts Ht Hts IH]; [congruence |].
  destruct ts as [|t' ts'].
  - simpl. apply split_comma_free. exact Ht.
  - change (join_tokens (t :: t' :: ts')) with (t +:+ "," +:+ join_tokens (t' :: ts')).
    rewrite split_token_comma by exact Ht. rewrite IH by discriminate. reflexivity.
Qed.

Lemma digit_not_comma c d : digit_of c = Some d -> is_comma c = false.
Proof.
  unfold is_comma. destruct (Ascii.eqb_spec c ","%char) as [-> | _]; [|reflexivity].
  vm_compute. discriminate.
Qed.

Lemma parse_digits_comma_free s : forall acc z,
  parse_digits acc s = Some z -> comma_free s = true.
Proof.
  induction s as [|c s IH]; simpl; intros acc z H; [reflexivity |].
  destruct (digit_of c) as [d|] eqn:Ed; [|discriminate].
  rewrite (digit_not_comma _ _ Ed). simpl. eapply IH. exact H.
Qed.

Lemma lexical_cast_int_cases c r :
  lexical_cast_int (String c r) =
  let neg := Ascii.eqb c "-" in
  let body := if Ascii.eqb c "-" || Ascii.eqb c "+" then r else String c r in
  match body with
  | EmptyString => None
  | _ => match parse_digits 0 body with
         | Some n => let v := if neg then - n else n in
                     if Int.in_range v then Some v else None
         | None => None
         end
  end.
Proof.
  destruct c as [[] [] [] [] [] [] [] []]; reflexivity.
Qed.

Lemma lexical_cast_comma_free s z :
  lexical_cast_int s = Some z -> comma_free s = true.
Proof.
  destruct s as [|c r]; [discriminate |].
  rewrite lexical_cast_int_cases. cbv zeta.
  destruct (Ascii.eqb_spec c "-") as [-> | Hm]; simpl orb.
  - destruct r; [discriminate|]. destruct (parse_digits 0 (String a r)) eqn:E; [|discriminate].
    intros _. apply parse_digits_comma_free in E. exact E.
  - destruct (Ascii.eqb_spec c "+") as [-> | Hp].
    + destruct r; [discriminate|]. destruct (parse_digits 0 (String a r)) eqn:E; [|discriminate].
      intros _. apply parse_digits_comma_free in E. exact E.
    + destruct (parse_digits 0 (String c r)) eqn:E; [|discriminate].
      intros _. apply parse_digits_comma_free in E. exact E.
Qed.

Section DeviceSelector.
Variable build : Build.
Variable env : Env.

(** The loop of [get_gpus] over tokens that all convert. *)
Lemma get_gpus_loop_converts (tokens : list string) (ids : list Z) :
  Forall2 (fun t id => lexical_cast_int t = Some id) tokens ids ->
  forall gpus,
    foldM (fun (gpus : list Z) (s : string) =>
             match lexical_cast_int s with
             | Some id => ret (gpus ++ [id])
             | None => halt (Thrown "bad_lexical_cast")
             end) tokens gpus
    = ([], Ret (gpus ++ ids)).
Proof.
  induction 1 as [|t id ts ids' Ht _ IH]; intros gpus; simpl.
  - rewrite app_nil_r. reflexivity.
  - rewrite Ht. munfold. rewrite bind_ret_l, IH, <- app_assoc. reflexivity.
Qed.

(** The loop of [get_gpus] over tokens one of which does not convert. *)
Lemma get_gpus_loop_throws (tokens : list string) :
  Exists (fun t => lexical_cast_int t = None) tokens ->
  forall gpus,
    foldM (fun (gpus : list Z) (s : string) =>
             match lexical_cast_int s with
             | Some id => ret (gpus ++ [id])
             | None => halt (Thrown "bad_lexical_cast")
             end) tokens gpus
    = ([], Halt (Thrown "bad_lexical_cast")).
Proof.
  induction tokens as [|t ts IH]; intros Hex gpus.
  - inversion Hex.
  - simpl. destruct (lexical_cast_int t) as [id|] eqn:Et.
    + munfold. rewrite bind_ret_l. apply IH.
      inversion Hex as [? ? Hbad | ? ? Hrest]; subst; [congruence | exact Hrest].
    + reflexivity.
Qed.

Lemma converting_tokens_comma_free (tokens : list string) (ids : list Z) :
  Forall2 (fun t id => lexical_cast_int t = Some id) tokens ids ->
  Forall (fun t => comma_free t = true) tokens.
Proof.
  induction 1 as [|t id ts ids' Ht _ IH]; constructor; [|exact IH].
  eapply lexical_cast_comma_free. exact Ht.
Qed.

(** C8.  A list of tokens that each convert to an [int], written with
    commas between them, resolves to the converted tokens, one per token,
    in the order of the input and with repetitions kept, appended to what
    the caller passed in (every caller passes an empty vector).  A device
    string other than the empty one and "all" with a token that does not
    convert ends in the uncaught [bad_lexical_cast]. *)
Theorem get_gpus_resolves_the_list (gpus : list Z) :
  (forall (tokens : list string) (ids : list Z),
     tokens <> [] ->
     Forall2 (fun t id => lexical_cast_int t = Some id) tokens ids ->
     get_gpus build env (join_tokens tokens) gpus = ([], Ret (gpus ++ ids)) /\
     List.length ids = List.length tokens) /\
  (forall gpu : string,
     gpu <> EmptyString -> gpu <> "all" ->
     Exists (fun t => lexical_cast_int t = None) (split is_comma gpu) ->
     get_gpus build env gpu gpus = ([], Halt (Thrown "bad_lexical_cast"))).
Proof.
  split.
  - intros tokens ids Hne Hall.
    pose proof (split_join tokens Hne (converting_tokens_comma_free _ _ Hall)) as Hsplit.
    split; [| symmetry; eapply Forall2_length; exact Hall].
    unfold get_gpus.
    destruct (String.eqb_spec (join_tokens tokens) "all") as [Eall | _].
    { rewrite Eall in Hsplit. cbn in Hsplit. subst tokens.
      inversion Hall as [|? ? ? ? Hbad]; subst. discriminate Hbad. }
    destruct (join_tokens tokens) as [|c r] eqn:Ej.
    { cbn in Hsplit. subst tokens.
      inversion Hall as [|? ? ? ? Hbad]; subst. discriminate Hbad. }
    cbn [nonempty String.eqb negb]. rewrite Hsplit.
    apply get_gpus_loop_converts. exact Hall.
  - intros gpu Hne Hall Hex. unfold get_gpus.
    destruct (String.eqb_spec gpu "all") as [E | _]; [contradiction |].
    rewrite (nonempty_true _ Hne).
    apply get_gpus_loop_throws. exact Hex.
Qed.

End DeviceSelector.

Lemma get_gpus_resolves_the_list_witness :
  get_gpus cuda_build small_env "1,0,1" [] = ([], Ret [1; 0; 1]) /\
  get_gpus cuda_build small_env "0,x" [] = ([], Halt (Thrown "bad_lexical_cast")).
Proof.
  destruct (get_gpus_resolves_the_list cuda_build small_env []) as [Hok Hbad].
  split.
  - refine (proj1 (Hok tokens_1_0_1 [1; 0; 1] _ _)).
    + discriminate.
    + repeat constructor.
  - apply Hbad.
    + discriminate.
    + discriminate.
    + apply Exists_cons_tl, Exists_cons_hd. reflexivity.
Defined.

(* ===================================================================== *)
(** * Detection evaluation *)
(* ===================================================================== *)

(** ** The accumulation, row by row *)

Lemma detection_row_step j vec acc k :
  detection_row j vec acc k = detection_step acc (j, row_at vec k).
Proof. reflexivity. Qed.

Lemma fold_left_map {A B C} (f : A -> B -> A) (g : C -> B) (l : list C) (a : A) :
  fold_left f (map g l) a = fold_left (fun a c => f a (g c)) l a.
Proof. revert a. induction l as [|c l IH]; intros a; simpl; [reflexivity | apply IH]. Qed.

Lemma fold_left_flat_map {A B C} (f : A -> B -> A) (g : C -> list B) (l : list C) (a : A) :
  fold_left f (flat_map g l) a = fold_left (fun a c => fold_left f (g c) a) l a.
Proof.
  revert a. induction l as [|c l IH]; intros a; simpl; [reflexivity |].
  rewrite fold_left_app. apply IH.
Qed.

Lemma detection_blob_steps acc jb :
  detection_blob acc jb = fold_left detection_step (rows_of_blob jb) acc.
Proof.
  unfold detection_blob, rows_of_blob. rewrite fold_left_map. reflexivity.
Qed.

Lemma fold_left_ext {A B} (f g : A -> B -> A) (l : list B) (a : A) :
  (forall a b, f a b = g a b) -> fold_left f l a = fold_left g l a.
Proof.
  intros H. revert a. induction l as [|b l IH]; intros a; simpl; [reflexivity |].
  rewrite H. apply IH.
Qed.

Lemma detection_result_steps acc result :
  detection_result acc result
  = fold_left detection_step (rows_of_result result) acc.
Proof.
  unfold detection_result, rows_of_result. rewrite fold_left_flat_map.
  apply fold_left_ext. intros a jb. apply detection_blob_steps.
Qed.

Lemma detection_accumulate_steps env iterations :
  detection_accumulate env iterations
  = fold_left detection_step (rows_seen env iterations) empty_accumulator.
Proof.
  unfold detection_accumulate, rows_seen. rewrite fold_left_flat_map.
  apply fold_left_ext. intros a i. apply detection_result_steps.
Qed.

Lemma find2_insert {V} (m : gmap nat (gmap Z V)) (j0 j : nat) (inner : gmap Z V) (label : Z) :
  find2 (<[j0 := inner]> m) j label =
  if decide (j0 = j) then inner !! label else find2 m j label.
Proof.
  unfold find2. rewrite lookup_insert. destruct (decide (j0 = j)); reflexivity.
Qed.

Lemma at_output_lookup {V} (m : gmap nat (gmap Z V)) (j : nat) (label : Z) :
  at_output m j !! label = find2 m j label.
Proof.
  unfold at_output, find2. destruct (m !! j); [reflexivity | apply lookup_empty].
Qed.

Lemma entry_of_snoc {A} (l : list A) (x : A) :
  entry_of (l ++ [x]) = Some (default [] (entry_of l) ++ [x]).
Proof. destruct l; reflexivity. Qed.

Lemma for_label_true j label x :
  for_label j label x = true <-> fst x = j /\ row_label (snd x) = label.
Proof.
  unfold for_label. rewrite andb_true_iff, Nat.eqb_eq, Z.eqb_eq. reflexivity.
Qed.

Lemma for_label_false j label x :
  fst x <> j \/ row_label (snd x) <> label -> for_label j label x = false.
Proof.
  intros H. destruct (for_label j label x) eqn:E; [|reflexivity].
  apply for_label_true in E. destruct E, H; congruence.
Qed.

Lemma sentinel_counts_snoc rows x j label :
  sentinel_counts (rows ++ [x]) j label =
  sentinel_counts rows j label ++
  (if for_label j label x && is_sentinel (snd x)
   then [F32.to_int (row_third (snd x))] else []).
Proof.
  unfold sentinel_counts. rewrite List.filter_app, map_app. cbn [List.filter].
  destruct (for_label j label x && is_sentinel (snd x)); reflexivity.
Qed.

Lemma records_snoc rows x j label :
  records (rows ++ [x]) j label =
  records rows j label ++
  (if for_label j label x && is_record (snd x) then [snd x] else []).
Proof.
  unfold records. rewrite List.filter_app, map_app. cbn [List.filter].
  destruct (for_label j label x && is_record (snd x)); reflexivity.
Qed.

Lemma summed_positives_snoc rows x j label :
  summed_positives (rows ++ [x]) j label =
  if for_label j label x && is_sentinel (snd x) then
    match summed_positives rows j label with
    | None => Some (F32.to_int (row_third (snd x)))
    | Some old => Some (Int.add old (F32.to_int (row_third (snd x))))
    end
  else summed_positives rows j label.
Proof.
  unfold summed_positives. rewrite sentinel_counts_snoc.
  destruct (for_label j label x && is_sentinel (snd x)).
  - destruct (sentinel_counts rows j label) as [|n ns]; cbn [app]; [reflexivity |].
    rewrite fold_left_app. reflexivity.
  - rewrite app_nil_r. reflexivity.
Qed.

Lemma for_label_same j r : for_label j (row_label r) (j, r) = true.
Proof. unfold for_label. cbn. rewrite Nat.eqb_refl, Z.eqb_refl. reflexivity. Qed.

Lemma for_label_other_label j label r :
  row_label r <> label -> for_label j label (j, r) = false.
Proof.
  intros H. unfold for_label. cbn. rewrite Nat.eqb_refl.
  apply Z.eqb_neq. exact H.
Qed.

Lemma for_label_other_output j0 j label r :
  j0 <> j -> for_label j label (j0, r) = false.
Proof.
  intros H. unfold for_label. cbn. apply Nat.eqb_neq in H. rewrite H. reflexivity.
Qed.

Lemma holds_step rows acc x :
  holds rows acc -> holds (rows ++ [x]) (detection_step acc x).
Proof.
  intros H j label. specialize (H j label) as (Hn & Ht & Hf).
  destruct x as [j0 r].
  rewrite summed_positives_snoc, records_snoc.
  unfold detection_step, is_record. cbn [fst snd].
  destruct (is_sentinel r) eqn:Es; cbn [negb andb].
  - (* a sentinel row *)
    rewrite andb_false_r, andb_true_r, app_nil_r.
    cbn [all_true_pos all_false_pos all_num_pos].
    split; [| split; assumption].
    rewrite find2_insert.
    destruct (decide (j0 = j)) as [-> | Hj].
    + destruct (decide (row_label r = label)) as [<- | Hl].
      * rewrite for_label_same, <- Hn, at_output_lookup.
        destruct (find2 (all_num_pos acc) j (row_label r));
          apply lookup_insert_eq.
      * rewrite (for_label_other_label _ _ _ Hl).
        destruct (at_output (all_num_pos acc) j !! row_label r);
          rewrite lookup_insert_ne by exact Hl; rewrite at_output_lookup; exact Hn.
    + rewrite (for_label_other_output _ _ _ _ Hj). exact Hn.
  - (* not a sentinel *)
    rewrite andb_false_r.
    destruct ((row_tp r =? 0) && (row_fp r =? 0)) eqn:Ez; cbn [negb].
    + (* both flags zero: ignored *)
      rewrite andb_false_r, app_nil_r. auto.
    + rewrite andb_true_r. cbn [all_true_pos all_false_pos all_num_pos].
      split; [exact Hn |].
      rewrite !find2_insert.
      destruct (decide (j0 = j)) as [-> | Hj].
      * destruct (decide (row_label r = label)) as [<- | Hl].
        -- rewrite for_label_same, !lookup_insert_eq.
           unfold true_pos_pairs, false_pos_pairs in *.
           rewrite !map_app. cbn [map]. rewrite !entry_of_snoc.
           unfold at_label. rewrite !at_output_lookup, Ht, Hf. auto.
        -- rewrite (for_label_other_label _ _ _ Hl), app_nil_r.
           rewrite !lookup_insert_ne by exact Hl. rewrite !at_output_lookup. auto.
      * rewrite (for_label_other_output _ _ _ _ Hj), app_nil_r. auto.
Qed.

Lemma holds_fold rows : holds rows (fold_left detection_step rows empty_accumulator).
Proof.
  induction rows as [|x rows IH] using rev_ind.
  - intros j label. cbn. unfold find2. rewrite !lookup_empty. auto.
  - rewrite fold_left_app. cbn [fold_left]. apply holds_step. exact IH.
Qed.

Lemma detection_accumulate_holds (env : Env) (iterations : Z) :
  holds (rows_seen env iterations) (detection_accumulate env iterations).
Proof. rewrite detection_accumulate_steps. apply holds_fold. Qed.

Lemma default_entry_of {A} (l : list A) : default [] (entry_of l) = l.
Proof. destruct l; reflexivity. Qed.

Lemma at_label_at_output {V} (m : gmap nat (gmap Z (list V))) (j : nat) (label : Z) :
  at_label (at_output m j) label = default [] (find2 m j label).
Proof. unfold at_label. rewrite at_output_lookup. reflexivity. Qed.

(** C5.  Over any run, the positives count of an output and label is the
    sum (in [int] arithmetic, in the order met) of the counts its sentinel
    rows carry, and there is no entry where there is no sentinel; the
    true-positive and false-positive sequences are the (score, flag) pairs
    of its records in the order met, a record being a row that is no
    sentinel and has a flag set.  A row that is no sentinel with both flags
    zero leaves the whole accumulator as it was.  On the worked example
    (sentinels 3 and 2, records (0.9,1,0), (0.8,0,1), (0.5,1,0) and a row
    with both flags zero, all for label 5) the accumulator holds those three
    pairs, the count 5, and nothing else. *)
Theorem detection_accumulate_sums_and_appends
    (env : Env) (iterations : Z) (j : nat) (label : Z) :
  (let acc := detection_accumulate env iterations in
   let rows := rows_seen env iterations in
   find2 (all_num_pos acc) j label = summed_positives rows j label /\
   find2 (all_true_pos acc) j label = entry_of (true_pos_pairs (records rows j label)) /\
   find2 (all_false_pos acc) j label = entry_of (false_pos_pairs (records rows j label))) /\
  (forall (result_vec : list float) (acc : DetectionAccumulator) (k : nat),
     is_sentinel (row_at result_vec k) = false ->
     row_tp (row_at result_vec k) = 0 ->
     row_fp (row_at result_vec k) = 0 ->
     detection_row j result_vec acc k = acc) /\
  (let acc := detection_accumulate example_detection_env 2 in
   all_true_pos acc = {[ 0%nat := {[ 5 := [(tenths 9, 1); (tenths 8, 0); (tenths 5, 1)] ]} ]} /\
   all_false_pos acc = {[ 0%nat := {[ 5 := [(tenths 9, 0); (tenths 8, 1); (tenths 5, 0)] ]} ]} /\
   all_num_pos acc = {[ 0%nat := {[ 5 := 5 ]} ]}).
Proof.
  split; [| split].
  - exact (detection_accumulate_holds env iterations j label).
  - intros result_vec acc k Hs Ht Hf.
    rewrite detection_row_step. unfold detection_step. cbn [fst snd].
    rewrite Hs, Ht, Hf. reflexivity.
  - cbv zeta. repeat split; vm_compute; reflexivity.
Qed.

Lemma detection_accumulate_sums_and_appends_witness :
  detection_row 0 ignored_row_data empty_accumulator 0 = empty_accumulator.
Proof.
  refine (proj1 (proj2 (detection_accumulate_sums_and_appends
                          small_env 0 0 0)) ignored_row_data empty_accumulator 0%nat _ _ _);
    reflexivity.
Defined.

(** C10.  After any run, for every output and label the true-positive and
    the false-positive sequences have the same length and carry the same
    scores position by position; one is present exactly when the other
    is. *)
Theorem true_and_false_pos_in_lockstep
    (env : Env) (iterations : Z) (j : nat) (label : Z) :
  let acc := detection_accumulate env iterations in
  let tps := at_label (at_output (all_true_pos acc) j) label in
  let fps := at_label (at_output (all_false_pos acc) j) label in
  List.length tps = List.length fps /\
  map fst tps = map fst fps /\
  (forall i : nat, fst <$> tps !! i = fst <$> fps !! i) /\
  (find2 (all_true_pos acc) j label = None <->
   find2 (all_false_pos acc) j label = None).
Proof.
  cbv zeta.
  destruct (detection_accumulate_holds env iterations j label) as (_ & Ht & Hf).
  rewrite !at_label_at_output, Ht, Hf, !default_entry_of.
  unfold true_pos_pairs, false_pos_pairs.
  assert (Hfst : map fst (map (fun r => (row_third r, row_tp r))
                              (records (rows_seen env iterations) j label))
                 = map fst (map (fun r => (row_third r, row_fp r))
                                (records (rows_seen env iterations) j label))).
  { rewrite !map_map. reflexivity. }
  split; [| split; [exact Hfst | split]].
  - rewrite !length_map. reflexivity.
  - intros i. rewrite <- !list_lookup_fmap.
    change (@fmap list _ _ _ fst) with (@map (float * Z) float fst).
    rewrite Hfst. reflexivity.
  - destruct (records (rows_seen env iterations) j label); cbn; split; congruence.
Qed.

(** ** The mean over the labels *)

#[local] Instance label_le_total : Total label_le.
Proof. intros a b. unfold label_le. lia. Qed.

#[local] Instance label_le_trans : Transitive label_le.
Proof. intros a b c. unfold label_le. lia. Qed.

(** The labels are visited in ascending order, each entry of the table once. *)
Lemma in_label_order_sorted (num_pos : gmap Z Z) :
  StronglySorted label_le (in_label_order num_pos).
Proof. unfold in_label_order. apply StronglySorted_merge_sort; apply _. Qed.

Lemma in_label_order_perm (num_pos : gmap Z Z) :
  in_label_order num_pos ≡ₚ map_to_list num_pos.
Proof. unfold in_label_order. apply merge_sort_Permutation. Qed.

Lemma in_label_order_length (num_pos : gmap Z Z) :
  List.length (in_label_order num_pos) = size num_pos.
Proof.
  rewrite (Permutation_length (in_label_order_perm num_pos)).
  apply length_map_to_list.
Qed.

Lemma in_label_order_In (num_pos : gmap Z Z) (label n : Z) :
  In (label, n) (in_label_order num_pos) <-> num_pos !! label = Some n.
Proof.
  rewrite <- list_elem_of_In, (in_label_order_perm num_pos).
  apply elem_of_map_to_list.
Qed.

(** One round of the loop over the labels. *)
Lemma mAP_step_result (env : Env) (true_pos false_pos : gmap Z (list (float * Z)))
    (ap : string) (from : float) (it : Z * Z) :
  mAP_step env true_pos false_pos ap from it =
    (missing_warning true_pos false_pos it,
     Ret (if is_scored true_pos false_pos it
          then F32.add from (AP_of env true_pos false_pos ap it)
          else from)).
Proof.
  unfold mAP_step, missing_warning, is_scored, AP_of, at_label.
  destruct (true_pos !! fst it); [destruct (false_pos !! fst it) |]; reflexivity.
Qed.

(** The loop over the labels: the labels that are not scored are warned
    about and leave the sum as it is. *)
Lemma mAP_loop (env : Env) (true_pos false_pos : gmap Z (list (float * Z)))
    (ap : string) (its : list (Z * Z)) : forall from : float,
  foldM (mAP_step env true_pos false_pos ap) its from =
    (flat_map (missing_warning true_pos false_pos) its,
     Ret (AP_sum env true_pos false_pos ap
            (List.filter (is_scored true_pos false_pos) its) from)).
Proof.
  induction its as [|it its IH]; intros from; [reflexivity |].
  cbn [foldM flat_map List.filter]. munfold.
  rewrite mAP_step_result, bind_Ret, IH. cbn [fst snd].
  destruct (is_scored true_pos false_pos it); reflexivity.
Qed.

(** C6.  The mean average precision of an output is the sum of the average
    precisions of the scored labels only, divided by the number of labels
    of the positives table, scored or not.  A label of the table without a
    true-positive sequence is warned about and is not among the scored
    ones; it is among the labels counted.  With two labels of which one
    has no records and an average precision of 1 for the other, the mean
    is 1/2. *)
Theorem mean_AP_skips_in_sum_counts_in_mean
    (env : Env) (true_pos false_pos : gmap Z (list (float * Z)))
    (num_pos : gmap Z Z) (ap : string) :
  mean_AP env true_pos false_pos num_pos ap =
    (flat_map (missing_warning true_pos false_pos) (in_label_order num_pos),
     Ret (F32.div
            (AP_sum env true_pos false_pos ap
               (scored_labels true_pos false_pos num_pos) F32.zero)
            (F32.of_Z (Z.of_nat (size num_pos))))) /\
  List.length (in_label_order num_pos) = size num_pos /\
  (forall label n : Z,
     num_pos !! label = Some n ->
     true_pos !! label = None \/ false_pos !! label = None ->
     In (label, n) (in_label_order num_pos) /\
     ~ In (label, n) (scored_labels true_pos false_pos num_pos) /\
     exists what,
       In (Log WARNING [Str what; Int label])
          (trace (mean_AP env true_pos false_pos num_pos ap))) /\
  mean_AP small_env only_label_5 only_label_5 two_labels "11point" =
    ([Log WARNING [Str "Missing true_pos for label: "; Int 7]],
     Ret (F32.div F32.one (F32.of_Z 2))).
Proof.
  assert (E : mean_AP env true_pos false_pos num_pos ap =
    (flat_map (missing_warning true_pos false_pos) (in_label_order num_pos),
     Ret (F32.div
            (AP_sum env true_pos false_pos ap
               (scored_labels true_pos false_pos num_pos) F32.zero)
            (F32.of_Z (Z.of_nat (size num_pos)))))).
  { unfold mean_AP. munfold. rewrite mAP_loop, bind_Ret. cbn [ret fst snd].
    rewrite app_nil_r. reflexivity. }
  split; [exact E | split; [apply in_label_order_length | split]].
  - intros label n Hn Hmiss.
    pose proof (proj2 (in_label_order_In num_pos label n) Hn) as Hin.
    split; [exact Hin | split].
    + unfold scored_labels. rewrite filter_In. intros [_ Hs].
      unfold is_scored in Hs. cbn [fst] in Hs.
      destruct Hmiss as [H | H]; rewrite H in Hs;
        [| destruct (true_pos !! label)]; discriminate.
    + rewrite E. unfold trace. cbn [fst].
      destruct (true_pos !! label) as [tp|] eqn:Et.
      * destruct Hmiss as [H | Hf]; [discriminate |].
        exists "Missing false_pos for label: ". apply in_flat_map.
        exists (label, n). split; [exact Hin |].
        unfold missing_warning. cbn [fst]. rewrite Et, Hf. left. reflexivity.
      * exists "Missing true_pos for label: ". apply in_flat_map.
        exists (label, n). split; [exact Hin |].
        unfold missing_warning. cbn [fst]. rewrite Et. left. reflexivity.
  - vm_compute. reflexivity.
Qed.

Lemma mean_AP_skips_in_sum_counts_in_mean_witness :
  In (7, 2) (in_label_order two_labels) /\
  ~ In (7, 2) (scored_labels only_label_5 only_label_5 two_labels).
Proof.
  assert (H7 : two_labels !! 7 = Some 2) by (vm_compute; reflexivity).
  assert (Hm : only_label_5 !! 7 = None \/ only_label_5 !! 7 = None)
    by (left; vm_compute; reflexivity).
  destruct (proj1 (proj2 (proj2 (mean_AP_skips_in_sum_counts_in_mean
              small_env only_label_5 only_label_5 two_labels "11point")))
              7 2 H7 Hm) as (Hin & Hout & _).
  split; assumption.
Defined.

(* ===================================================================== *)
(** * Classification evaluation *)
(* ===================================================================== *)

(** ** Loops *)

Lemma bind_assoc {A B C} (m : M A) (f : A -> M B) (g : B -> M C) :
  bind (bind m f) g = bind m (fun a => bind (f a) g).
Proof.
  destruct m as [t [a | s]]; [| reflexivity].
  rewrite !bind_Ret. destruct (f a) as [t' [b | s]]; cbn [fst snd].
  - rewrite !bind_Ret. cbn [fst snd]. rewrite app_assoc. reflexivity.
  - reflexivity.
Qed.

Lemma bind_ext {A B} (m : M A) (f g : A -> M B) :
  (forall a, f a = g a) -> bind m f = bind m g.
Proof.
  intros H. destruct m as [t [a | s]]; [| reflexivity].
  unfold bind. rewrite H. reflexivity.
Qed.

Lemma foldM_app {A S} (f : S -> A -> M S) (l1 l2 : list A) (s : S) :
  foldM f (l1 ++ l2) s = bind (foldM f l1 s) (foldM f l2).
Proof.
  revert s. induction l1 as [|x l1 IH]; intros s; cbn [app foldM].
  - rewrite bind_ret_l. reflexivity.
  - munfold. rewrite bind_assoc. apply bind_ext. exact IH.
Qed.

Lemma foldM_ext {A S} (f g : S -> A -> M S) (l : list A) (s : S) :
  (forall s x, f s x = g s x) -> foldM f l s = foldM g l s.
Proof.
  intros H. revert s. induction l as [|x l IH]; intros s; cbn [foldM]; [reflexivity |].
  munfold. rewrite H. apply bind_ext. exact IH.
Qed.

Lemma foldM_map {A B S} (f : S -> B -> M S) (g : A -> B) (l : list A) (s : S) :
  foldM f (map g l) s = foldM (fun s a => f s (g a)) l s.
Proof.
  revert s. induction l as [|x l IH]; intros s; cbn [map foldM]; [reflexivity |].
  munfold. apply bind_ext. exact IH.
Qed.

Lemma foldM_flat_map {A B S} (f : S -> B -> M S) (g : A -> list B) (l : list A) (s : S) :
  foldM f (flat_map g l) s = foldM (fun s a => foldM f (g a) s) l s.
Proof.
  revert s. induction l as [|x l IH]; intros s; cbn [flat_map foldM]; [reflexivity |].
  rewrite foldM_app. munfold. apply bind_ext. exact IH.
Qed.

Section Scores.
Variable env : Env.

(** The loops over the blobs and their scalars are one loop over the
    tagged scalars. *)
Lemma score_blobs_flat (i : nat) (jbs : list (nat * Blob)) (st : ScoreAccumulator * nat) :
  foldM (score_blob env i) jbs st =
  foldM (fun st js => score_step env i (fst js) st (snd js)) (tagged_scalars jbs) st.
Proof.
  unfold tagged_scalars. rewrite foldM_flat_map.
  apply foldM_ext. intros s jb. unfold score_blob. rewrite foldM_map. reflexivity.
Qed.

Lemma tagged_scalars_snd (result : list Blob) :
  map snd (tagged_scalars (combine (upto (List.length result)) result)) = scalars result.
Proof.
  unfold tagged_scalars, scalars, upto. generalize 0%nat.
  induction result as [|b result IH]; intros n;
    cbn [List.length seq combine flat_map]; [reflexivity |].
  rewrite map_app, map_map, IH. cbn [snd]. rewrite map_id. reflexivity.
Qed.

Lemma score_step_first (j : nat) (acc : ScoreAccumulator) (idx : nat) (x : float) :
  score_step env 0 j (acc, idx) x =
    ([Log INFO [Str "Batch "; Int 0; Str ", "; Str (output_name env j);
                Str " = "; Flt x]],
     Ret ({| loss := loss acc;
             test_score := test_score acc ++ [x];
             test_score_output_id := test_score_output_id acc ++ [j] |}, S idx)).
Proof. reflexivity. Qed.

Lemma score_step_later (i j : nat) (acc : ScoreAccumulator) (idx : nat) (x sum : float) :
  i <> 0%nat ->
  test_score acc !! idx = Some sum ->
  score_step env i j (acc, idx) x =
    ([Log INFO [Str "Batch "; Int (Z.of_nat i); Str ", "; Str (output_name env j);
                Str " = "; Flt x]],
     Ret ({| loss := loss acc;
             test_score := <[idx := F32.add sum x]> (test_score acc);
             test_score_output_id := test_score_output_id acc |}, S idx)).
Proof.
  intros Hi Hs. unfold score_step.
  destruct (Nat.eqb_spec i 0) as [| _]; [contradiction |].
  rewrite Hs. reflexivity.
Qed.

Lemma score_step_out_of_range (i j : nat) (acc : ScoreAccumulator) (idx : nat) (x : float) :
  i <> 0%nat ->
  test_score acc !! idx = None ->
  score_step env i j (acc, idx) x = ([], Halt (Undefined "test_score[idx]")).
Proof.
  intros Hi Hs. unfold score_step.
  destruct (Nat.eqb_spec i 0) as [| _]; [contradiction |].
  rewrite Hs. reflexivity.
Qed.

(** Iteration 0 appends every scalar. *)
Lemma score_first_pass (tagged : list (nat * float)) :
  forall (acc : ScoreAccumulator) (idx : nat),
  exists t,
    foldM (fun st js => score_step env 0 (fst js) st (snd js)) tagged (acc, idx) =
    (t, Ret ({| loss := loss acc;
                test_score := test_score acc ++ map snd tagged;
                test_score_output_id := test_score_output_id acc ++ map fst tagged |},
             (idx + List.length tagged)%nat)).
Proof.
  induction tagged as [|[j x] tagged IH]; intros acc idx; cbn [foldM map List.length].
  - exists []. rewrite !app_nil_r, Nat.add_0_r. destruct acc; reflexivity.
  - cbn [fst snd]. rewrite score_step_first. munfold. rewrite bind_Ret. cbn [fst snd].
    edestruct IH as [t Et]. rewrite Et. cbn [fst snd loss test_score test_score_output_id].
    eexists. rewrite <- !app_assoc. cbn [app]. rewrite Nat.add_succ_r. reflexivity.
Qed.

(** A later iteration adds every scalar to the sum at its index, as long
    as the sums reach that far. *)
Lemma score_later_pass (i : nat) (tagged : list (nat * float)) :
  i <> 0%nat ->
  forall (acc : ScoreAccumulator) (done todo : list float),
    test_score acc = done ++ todo ->
    (List.length tagged <= List.length todo)%nat ->
    exists t,
      foldM (fun st js => score_step env i (fst js) st (snd js)) tagged
            (acc, List.length done) =
      (t, Ret ({| loss := loss acc;
                  test_score := done ++ add_scores (take (List.length tagged) todo) (map snd tagged)
                                     ++ drop (List.length tagged) todo;
                  test_score_output_id := test_score_output_id acc |},
               (List.length done + List.length tagged)%nat)).
Proof.
  intros Hi. induction tagged as [|[j x] tagged IH]; intros acc done todo Hacc Hlen;
    cbn [foldM map List.length].
  - exists []. rewrite Nat.add_0_r, drop_0, take_0. cbn [add_scores zip_with app].
    rewrite <- Hacc. destruct acc; reflexivity.
  - destruct todo as [|s todo]; [cbn in Hlen; lia |].
    cbn [fst snd].
    rewrite (score_step_later i j acc (List.length done) x s Hi)
      by (rewrite Hacc; apply list_lookup_middle; reflexivity).
    munfold. rewrite bind_Ret. cbn [fst snd]. rewrite Hacc.
    replace (<[List.length done := F32.add s x]> (done ++ s :: todo))
      with ((done ++ [F32.add s x]) ++ todo).
    2:{ rewrite insert_app_r_alt by lia. rewrite Nat.sub_diag. cbn.
        rewrite <- app_assoc. reflexivity. }
    edestruct (IH {| loss := loss acc;
                     test_score := (done ++ [F32.add s x]) ++ todo;
                     test_score_output_id := test_score_output_id acc |}
                  (done ++ [F32.add s x]) todo) as [t Et].
    { reflexivity. }
    { cbn in Hlen. lia. }
    replace (S (List.length done)) with (List.length (done ++ [F32.add s x]))
      by (rewrite length_app; cbn; lia).
    rewrite Et. cbn [fst snd loss test_score test_score_output_id].
    eexists. rewrite length_app, <- (app_assoc done).
    cbn [List.length take drop map add_scores zip_with app].
    replace (List.length done + 1 + List.length tagged)%nat
      with (List.length done + S (List.length tagged))%nat by lia.
    reflexivity.
Qed.

(** Iteration 0 of [test]. *)
Lemma score_iteration_first (acc : ScoreAccumulator) :
  exists t ids,
    score_iteration env acc 0 =
    (t, Ret {| loss := F32.add (loss acc) (snd (forward env 0));
               test_score := test_score acc ++ scalars (fst (forward env 0));
               test_score_output_id := test_score_output_id acc ++ ids |}) /\
    List.length ids = List.length (scalars (fst (forward env 0))).
Proof.
  unfold score_iteration. destruct (forward env 0) as [result iter_loss]. cbn [fst snd].
  munfold. unfold emit. rewrite bind_Ret, score_blobs_flat.
  edestruct (score_first_pass (tagged_scalars (combine (upto (List.length result)) result)))
    as [t Et].
  rewrite Et, bind_Ret. cbn [fst snd loss test_score test_score_output_id ret].
  rewrite tagged_scalars_snd. eexists _, _. split; [reflexivity |].
  rewrite <- (tagged_scalars_snd result), !length_map. reflexivity.
Qed.

(** A later iteration of [test] that delivers as many scalars as there are
    sums. *)
Lemma score_iteration_later (acc : ScoreAccumulator) (i : nat) :
  i <> 0%nat ->
  List.length (scalars (fst (forward env i))) = List.length (test_score acc) ->
  exists t,
    score_iteration env acc i =
    (t, Ret {| loss := F32.add (loss acc) (snd (forward env i));
               test_score := add_scores (test_score acc) (scalars (fst (forward env i)));
               test_score_output_id := test_score_output_id acc |}).
Proof.
  intros Hi Hlen. unfold score_iteration.
  destruct (forward env i) as [result iter_loss]. cbn [fst snd] in *.
  munfold. unfold emit. rewrite bind_Ret, score_blobs_flat.
  rewrite <- tagged_scalars_snd, length_map in Hlen.
  edestruct (score_later_pass i (tagged_scalars (combine (upto (List.length result)) result)) Hi
               {| loss := F32.add (loss acc) iter_loss;
                  test_score := test_score acc;
                  test_score_output_id := test_score_output_id acc |}
               [] (test_score acc)) as [t Et].
  { reflexivity. }
  { cbn [test_score]. lia. }
  cbn [List.length] in Et. rewrite Et, bind_Ret.
  cbn [fst snd loss test_score test_score_output_id ret app].
  rewrite Hlen, firstn_all, drop_all, ?app_nil_r, tagged_scalars_snd. eauto.
Qed.


(** A later iteration that delivers more scalars than there are sums runs
    past the end of [test_score]. *)
Lemma score_pass_out_of_range (i : nat) (tagged : list (nat * float)) :
  i <> 0%nat ->
  forall (acc : ScoreAccumulator) (done todo : list float),
    test_score acc = done ++ todo ->
    (List.length todo < List.length tagged)%nat ->
    exists t,
      foldM (fun st js => score_step env i (fst js) st (snd js)) tagged
            (acc, List.length done) =
      (t, Halt (Undefined "test_score[idx]")).
Proof.
  intros Hi. induction tagged as [|[j x] tagged IH]; intros acc done todo Hacc Hlen;
    cbn [foldM List.length] in *; [lia |].
  cbn [fst snd]. destruct todo as [|s todo].
  - rewrite score_step_out_of_range; [eexists; reflexivity | exact Hi |].
    rewrite Hacc, app_nil_r. apply lookup_ge_None. lia.
  - rewrite (score_step_later i j acc (List.length done) x s Hi)
      by (rewrite Hacc; apply list_lookup_middle; reflexivity).
    munfold. rewrite bind_Ret. cbn [fst snd]. rewrite Hacc.
    replace (<[List.length done := F32.add s x]> (done ++ s :: todo))
      with ((done ++ [F32.add s x]) ++ todo).
    2:{ rewrite insert_app_r_alt by lia. rewrite Nat.sub_diag. cbn.
        rewrite <- app_assoc. reflexivity. }
    edestruct (IH {| loss := loss acc;
                     test_score := (done ++ [F32.add s x]) ++ todo;
                     test_score_output_id := test_score_output_id acc |}
                  (done ++ [F32.add s x]) todo) as [t Et].
    { reflexivity. }
    { cbn in Hlen. lia. }
    replace (S (List.length done)) with (List.length (done ++ [F32.add s x]))
      by (rewrite length_app; cbn; lia).
    rewrite Et. eexists. reflexivity.
Qed.

End Scores.

(** A loop over [a, a+1, ..] whose state after [k] rounds is [state k]. *)
Lemma foldM_seq_states {S} (f : S -> nat -> M S) (state : nat -> S) (n : nat) :
  forall a : nat,
    (forall k, (a <= k < a + n)%nat -> exists t, f (state k) k = (t, Ret (state (Datatypes.S k)))) ->
    exists t, foldM f (seq a n) (state a) = (t, Ret (state (a + n)%nat)).
Proof.
  induction n as [|n IH]; intros a Hstep; cbn [seq foldM].
  - exists []. rewrite Nat.add_0_r. reflexivity.
  - destruct (Hstep a) as [t Et]; [lia |].
    destruct (IH (Datatypes.S a)) as [t' Et'].
    { intros k Hk. apply Hstep. lia. }
    munfold. rewrite Et, bind_Ret, Et'. cbn [fst snd].
    rewrite Nat.add_succ_r. eauto.
Qed.

Lemma foldM_invariant_In {A S} (P : S -> Prop) (f : S -> A -> M S) (l : list A) :
  (forall s x, In x l -> P s -> exists t s', f s x = (t, Ret s') /\ P s') ->
  forall s, P s -> exists t s', foldM f l s = (t, Ret s') /\ P s'.
Proof.
  induction l as [|x l IH]; intros Hf s Hs; cbn [foldM].
  - exists [], s. split; [reflexivity | assumption].
  - destruct (Hf s x (or_introl eq_refl) Hs) as (t & s' & E & Hs').
    destruct (IH (fun s x Hx => Hf s x (or_intror Hx)) s' Hs') as (t' & s'' & E' & Hs'').
    munfold. rewrite E, bind_Ret, E'. cbn [fst snd]. eauto.
Qed.

(** C9.  The sums are laid out by iteration 0 and no later iteration
    checks its count against them.  When every later iteration delivers as
    many scalars as iteration 0, the whole loop runs to its end: no update
    [test_score[idx] += score] falls outside [test_score] (the loop would
    stop as undefined there), and the sums are as many as iteration 0
    delivered.  Without that, a pass that delivers more runs past the end. *)
Theorem score_accumulate_in_bounds (env : Env) (iterations : Z) :
  (forall i : nat,
     (0 < i < Z.to_nat iterations)%nat ->
     List.length (scalars (fst (forward env i)))
     = List.length (scalars (fst (forward env 0)))) ->
  (exists t acc,
     score_accumulate env iterations = (t, Ret acc) /\
     (0 < iterations ->
      List.length (test_score acc) = List.length (scalars (fst (forward env 0))))) /\
  result (score_accumulate growing_passes_env 2) = Halt (Undefined "test_score[idx]").
Proof.
  intros Hsame. split; [| vm_compute; reflexivity].
  unfold score_accumulate, upto.
  destruct (Z.to_nat iterations) as [|n] eqn:En.
  - exists [], empty_scores. split; [reflexivity | lia].
  - cbn [seq foldM]. destruct (score_iteration_first env empty_scores) as (t0 & ids & E0 & _).
    munfold. rewrite E0, bind_Ret. cbn [fst snd].
    set (P := fun acc : ScoreAccumulator =>
                List.length (test_score acc)
                = List.length (scalars (fst (forward env 0)))).
    assert (Hstep : forall acc i, In i (seq 1 n) -> P acc ->
                    exists t acc', score_iteration env acc i = (t, Ret acc') /\ P acc').
    { intros acc i Hi Hlen. apply in_seq in Hi. unfold P in *.
      destruct (score_iteration_later env acc i) as [ti Ei]; [lia | |].
      - rewrite Hlen. apply Hsame. lia.
      - rewrite Ei. eexists _, _. split; [reflexivity |].
        cbn [test_score]. unfold add_scores. rewrite length_zip_with.
        rewrite Hlen, (Hsame i) by lia. lia. }
    destruct (foldM_invariant_In P (score_iteration env) (seq 1 n) Hstep
                {| loss := F32.add (loss empty_scores) (snd (forward env 0));
                   test_score := test_score empty_scores ++ scalars (fst (forward env 0));
                   test_score_output_id := test_score_output_id empty_scores ++ ids |})
      as (t & acc & E & Hacc).
    { unfold P. reflexivity. }
    rewrite E. eexists _, _. split; [reflexivity |]. intros _. exact Hacc.
Qed.

Lemma score_accumulate_in_bounds_witness :
  exists t acc,
    score_accumulate identical_passes_env 3 = (t, Ret acc) /\
    (0 < 3 -> List.length (test_score acc) = 2%nat).
Proof.
  refine (proj1 (score_accumulate_in_bounds identical_passes_env 3 _)).
  intros i Hi. reflexivity.
Defined.

(** ** Exact [float] arithmetic on small integers *)

Lemma digits2_pos_size (p : positive) : digits2_pos p = Pos.size p.
Proof. induction p as [p IH | p IH |]; cbn; rewrite ?IH; reflexivity. Qed.

Lemma digits2_pos_log2 (p : positive) :
  Zpos (digits2_pos p) = Z.log2 (Zpos p) + 1.
Proof.
  rewrite digits2_pos_size.
  destruct p as [p | p |]; cbn [Z.log2 Pos.size]; lia.
Qed.

(** A positive number of exactly [n] binary digits. *)
Lemma digits2_pos_bounds (p : positive) (n : Z) :
  2 ^ (n - 1) <= Zpos p < 2 ^ n -> Zpos (digits2_pos p) = n.
Proof.
  intros H. rewrite digits2_pos_log2.
  assert (Hn : 0 <= n - 1).
  { destruct (Z.le_gt_cases 0 (n - 1)) as [|Hneg]; [assumption |].
    destruct H as [_ H]. assert (n <= 0) by lia.
    destruct (Z.eq_dec n 0) as [-> | Hn0]; [cbn in H; lia |].
    rewrite Z.pow_neg_r in H by lia. lia. }
  rewrite (Z.log2_unique (Zpos p) (n - 1)); [lia | lia |].
  replace (Z.succ (n - 1)) with n by lia. exact H.
Qed.

Lemma digits2_pos_24 (p : positive) :
  Zpos (digits2_pos p) = 24 <-> 2 ^ 23 <= Zpos p < 2 ^ 24.
Proof.
  split.
  - intros H. rewrite digits2_pos_log2 in H.
    assert (Hl : Z.log2 (Zpos p) = 23) by lia.
    pose proof (Z.log2_spec (Zpos p) ltac:(lia)) as Hs. rewrite Hl in Hs.
    exact Hs.
  - intros H. apply digits2_pos_bounds. exact H.
Qed.

Lemma iter_pos_nat {A} (f : A -> A) (n : positive) : forall x : A,
  SpecFloat.iter_pos f n x = Nat.iter (Pos.to_nat n) f x.
Proof.
  induction n as [n IH | n IH |]; intros x; cbn [SpecFloat.iter_pos].
  - rewrite !IH, Pos2Nat.inj_xI, <- Nat.iter_succ_r, <- Nat.iter_add.
    f_equal. lia.
  - rewrite !IH, Pos2Nat.inj_xO, <- Nat.iter_add. f_equal. lia.
  - reflexivity.
Qed.

Lemma shiftl_nat_Z (a : positive) (n : nat) :
  Zpos (Pos.shiftl_nat a n) = Zpos a * 2 ^ Z.of_nat n.
Proof.
  induction n as [|n IH].
  - cbn. lia.
  - rewrite Nat2Z.inj_succ, Z.pow_succ_r by lia.
    change (Pos.shiftl_nat a (S n)) with (xO (Pos.shiftl_nat a n)).
    rewrite Pos2Z.inj_xO, IH. lia.
Qed.

Lemma pos_iter_xO_shiftl (a n : positive) :
  Pos.iter xO a n = Pos.shiftl_nat a (Pos.to_nat n).
Proof. rewrite Pos2Nat.inj_iter. reflexivity. Qed.

(** Shifting out the zeros shifted in loses nothing. *)
Lemma shr_1_shiftl_nat (a : positive) (n : nat) :
  Nat.iter n shr_1 {| shr_m := Zpos (Pos.shiftl_nat a n); shr_r := false; shr_s := false |}
  = {| shr_m := Zpos a; shr_r := false; shr_s := false |}.
Proof.
  induction n as [|n IH]; [reflexivity |].
  rewrite Nat.iter_succ_r. exact IH.
Qed.

(** A mantissa of 24 digits followed by [n] zeros. *)
Lemma digits2_pos_shiftl_nat (a : positive) (n : nat) :
  Zpos (digits2_pos a) = 24 ->
  Zpos (digits2_pos (Pos.shiftl_nat a n)) = 24 + Z.of_nat n.
Proof.
  intros Ha. apply digits2_pos_24 in Ha. apply digits2_pos_bounds.
  rewrite shiftl_nat_Z.
  replace (24 + Z.of_nat n - 1) with (23 + Z.of_nat n) by lia.
  rewrite !Z.pow_add_r by lia.
  assert (0 < 2 ^ Z.of_nat n) by (apply Z.pow_pos_nonneg; lia).
  nia.
Qed.

Lemma fexp_24 (e : Z) : -149 <= e -> fexp 24 128 (24 + e) = e.
Proof. intros H. unfold fexp, emin. lia. Qed.

(** Rounding a mantissa of 24 digits followed by [n] zeros shifts the
    zeros out and is exact. *)
Lemma shr_fexp_exact (a : positive) (n : nat) (e : Z) :
  Zpos (digits2_pos a) = 24 ->
  -149 <= e + Z.of_nat n ->
  shr_fexp 24 128 (Zpos (Pos.shiftl_nat a n)) e loc_Exact
  = ({| shr_m := Zpos a; shr_r := false; shr_s := false |}, e + Z.of_nat n).
Proof.
  intros Ha He. unfold shr_fexp. cbn [Zdigits2 shr_record_of_loc].
  rewrite (digits2_pos_shiftl_nat a n Ha).
  replace (24 + Z.of_nat n + e) with (24 + (e + Z.of_nat n)) by lia.
  rewrite fexp_24 by exact He.
  replace (e + Z.of_nat n - e) with (Z.of_nat n) by lia.
  destruct n as [|n].
  - cbn. rewrite Z.add_0_r. reflexivity.
  - unfold shr. rewrite Nat2Z.inj_succ, <- Zpos_P_of_succ_nat.
    rewrite iter_pos_nat, SuccNat2Pos.id_succ, shr_1_shiftl_nat.
    reflexivity.
Qed.

Lemma binary_round_aux_exact (a : positive) (n : nat) (e : Z) :
  Zpos (digits2_pos a) = 24 ->
  -149 <= e + Z.of_nat n <= 104 ->
  binary_round_aux 24 128 false (Zpos (Pos.shiftl_nat a n)) e loc_Exact
  = S754_finite false a (e + Z.of_nat n).
Proof.
  intros Ha He. unfold binary_round_aux.
  rewrite (shr_fexp_exact a n e Ha) by lia.
  cbn [shr_m loc_of_shr_record round_nearest_even].
  change (Zpos a) with (Zpos (Pos.shiftl_nat a 0)) at 1.
  rewrite (shr_fexp_exact a 0 (e + Z.of_nat n) Ha) by (cbn; lia).
  cbn [shr_m Z.of_nat]. rewrite Z.add_0_r.
  replace (e + Z.of_nat n <=? 128 - 24) with true by (symmetry; apply Z.leb_le; lia).
  reflexivity.
Qed.

(** Normalising [x * 2^e] where that value has the 24-digit mantissa [a]
    at exponent [e']: the value is returned as it is. *)
Lemma binary_normalize_exact (x a : positive) (e e' : Z) :
  Zpos (digits2_pos a) = 24 ->
  -149 <= e' <= 104 ->
  -149 <= e ->
  Zpos x * 2 ^ (e + 149) = Zpos a * 2 ^ (e' + 149) ->
  binary_normalize 24 128 (Zpos x) e false = S754_finite false a e'.
Proof.
  intros Ha He' He Hval. cbn [binary_normalize]. unfold binary_round.
  destruct (Z.le_gt_cases e e') as [Hle | Hgt].
  - (* the mantissa is [a] followed by [e' - e] zeros *)
    assert (Hx : x = Pos.shiftl_nat a (Z.to_nat (e' - e))).
    { apply Pos2Z.inj. rewrite shiftl_nat_Z, Z2Nat.id by lia.
      replace (e' + 149) with ((e + 149) + (e' - e)) in Hval by lia.
      rewrite (Z.pow_add_r 2 (e + 149) (e' - e)) in Hval by lia.
      assert (0 < 2 ^ (e + 149)) by (apply Z.pow_pos_nonneg; lia).
      apply Z.mul_reg_r with (p := 2 ^ (e + 149)); [lia |].
      rewrite Hval. ring. }
    rewrite Hx, digits2_pos_shiftl_nat by exact Ha.
    rewrite Z2Nat.id by lia.
    replace (24 + (e' - e) + e) with (24 + e') by lia.
    rewrite fexp_24 by lia. unfold shl_align.
    destruct (e' - e) as [|d|d] eqn:Ed; try lia.
    + rewrite binary_round_aux_exact by (cbn; lia). f_equal. cbn. lia.
    + rewrite binary_round_aux_exact by (rewrite ?Z2Nat.id; lia).
      f_equal. rewrite Z2Nat.id; lia.
  - (* the mantissa [a] is [x] followed by [e - e'] zeros *)
    assert (Hx : a = Pos.shiftl_nat x (Z.to_nat (e - e'))).
    { apply Pos2Z.inj. rewrite shiftl_nat_Z, Z2Nat.id by lia.
      replace (e + 149) with ((e' + 149) + (e - e')) in Hval by lia.
      rewrite (Z.pow_add_r 2 (e' + 149) (e - e')) in Hval by lia.
      assert (0 < 2 ^ (e' + 149)) by (apply Z.pow_pos_nonneg; lia).
      apply Z.mul_reg_r with (p := 2 ^ (e' + 149)); [lia |].
      rewrite <- Hval. ring. }
    assert (Hd : Zpos (digits2_pos x) = 24 - (e - e')).
    { apply digits2_pos_24 in Ha. apply digits2_pos_bounds.
      rewrite Hx, shiftl_nat_Z, Z2Nat.id in Ha by lia.
      assert (e - e' <= 23).
      { destruct (Z.le_gt_cases (e - e') 23) as [|Hbig]; [assumption |].
        exfalso. destruct Ha as [_ Ha].
        assert (2 ^ 24 <= 2 ^ (e - e')) by (apply Z.pow_le_mono_r; lia).
        nia. }
      replace 23 with ((24 - (e - e') - 1) + (e - e')) in Ha at 1 by lia.
      replace 24 with ((24 - (e - e')) + (e - e')) in Ha at 2 by lia.
      rewrite !Z.pow_add_r in Ha by lia.
      assert (0 < 2 ^ (e - e')) by (apply Z.pow_pos_nonneg; lia).
      nia. }
    rewrite Hd. replace (24 - (e - e') + e) with (24 + e') by lia.
    rewrite fexp_24 by lia. unfold shl_align.
    destruct (e' - e) as [|d|d] eqn:Ed; try lia.
    rewrite pos_iter_xO_shiftl.
    replace (Pos.to_nat d) with (Z.to_nat (e - e')) by lia.
    rewrite <- Hx.
    change (Zpos a) with (Zpos (Pos.shiftl_nat a 0)).
    rewrite binary_round_aux_exact by (cbn; lia). f_equal. cbn. lia.
Qed.

Lemma shl_align_fst (mx : positive) (ex ex' : Z) :
  ex' <= ex ->
  fst (shl_align mx ex ex') = Pos.shiftl_nat mx (Z.to_nat (ex - ex')).
Proof.
  intros H. unfold shl_align.
  destruct (ex' - ex) as [|d|d] eqn:Ed; try lia; cbn [fst].
  - replace (ex - ex') with 0 by lia. reflexivity.
  - rewrite pos_iter_xO_shiftl. f_equal. lia.
Qed.

(** An addition of two positive [float]s whose exact sum has the 24-digit
    mantissa [a] at exponent [e] returns that sum. *)
Lemma SFadd_exact (mx my a : positive) (ex ey e : Z) :
  Zpos (digits2_pos a) = 24 ->
  -149 <= e <= 104 ->
  -149 <= ex -> -149 <= ey ->
  Zpos mx * 2 ^ (ex + 149) + Zpos my * 2 ^ (ey + 149) = Zpos a * 2 ^ (e + 149) ->
  SFadd 24 128 (S754_finite false mx ex) (S754_finite false my ey)
  = S754_finite false a e.
Proof.
  intros Ha He Hex Hey Hval. cbn [SFadd cond_Zopp].
  rewrite !shl_align_fst by lia.
  cbn [Z.add]. apply binary_normalize_exact; try assumption; [lia |].
  rewrite Pos2Z.inj_add, !shiftl_nat_Z, !Z2Nat.id by lia.
  rewrite <- Hval, Z.mul_add_distr_r, <- !Z.mul_assoc, <- !Z.pow_add_r by lia.
  f_equal; f_equal; f_equal; lia.
Qed.

(** A division of two positive [float]s with one and the same 24-digit
    mantissa returns the power of two their exponents differ by. *)
Lemma SFdiv_same_mantissa (a : positive) (e1 e2 : Z) :
  Zpos (digits2_pos a) = 24 ->
  -125 <= e1 - e2 <= 127 ->
  SFdiv 24 128 (S754_finite false a e1) (S754_finite false a e2)
  = S754_finite false 8388608 (e1 - e2 - 23).
Proof.
  intros Ha He. cbn [SFdiv xorb]. unfold SFdiv_core_binary. cbn [Zdigits2].
  rewrite Ha.
  replace (24 + e1 - (24 + e2)) with (24 + (e1 - e2 - 24)) by lia.
  rewrite fexp_24 by lia.
  replace (Z.min (e1 - e2 - 24) (e1 - e2)) with (e1 - e2 - 24) by lia.
  replace (e1 - e2 - (e1 - e2 - 24)) with 24 by lia.
  cbv iota beta.
  rewrite Z.shiftl_mul_pow2 by lia.
  destruct (Z.div_eucl (Zpos a * 2 ^ 24) (Zpos a)) as [q r] eqn:Eq.
  assert (Hq : q = 2 ^ 24).
  { change q with (fst (q, r)). rewrite <- Eq.
    change (fst (Z.div_eucl (Zpos a * 2 ^ 24) (Zpos a))) with (Zpos a * 2 ^ 24 / Zpos a).
    rewrite Z.mul_comm. apply Z.div_mul. lia. }
  assert (Hr : r = 0).
  { change r with (snd (q, r)). rewrite <- Eq.
    change (snd (Z.div_eucl (Zpos a * 2 ^ 24) (Zpos a))) with ((Zpos a * 2 ^ 24) mod Zpos a).
    rewrite Z.mul_comm. apply Z.mod_mul. lia. }
  subst q r.
  replace (new_location (Zpos a) 0) with loc_Exact
    by (unfold new_location; destruct (Z.even (Zpos a)); reflexivity).
  change (2 ^ 24) with (Zpos (Pos.shiftl_nat 8388608 1)).
  rewrite binary_round_aux_exact; [f_equal; cbn; lia | reflexivity | cbn; lia].
Qed.

(** The integers up to [2^24] convert to [float] as they are. *)
Lemma of_Z_canonical (k : Z) :
  1 <= k <= 2 ^ 24 ->
  exists (a : positive) (e : Z),
    F32.of_Z k = S754_finite false a e /\
    Zpos (digits2_pos a) = 24 /\
    -23 <= e <= 1 /\
    k * 2 ^ 23 = Zpos a * 2 ^ (e + 23).
Proof.
  intros Hk. destruct (Z.eq_dec k (2 ^ 24)) as [-> | Hne].
  { exists 8388608%positive, 1. repeat split; try reflexivity; lia. }
  destruct k as [|x|x]; try lia.
  pose proof (Z.log2_spec (Zpos x) ltac:(lia)) as Hlog.
  pose proof (Z.log2_nonneg (Zpos x)) as Hd0.
  set (d := Z.log2 (Zpos x)) in *.
  assert (Hd : d <= 23).
  { destruct (Z.le_gt_cases d 23) as [|Hbig]; [assumption |]. exfalso.
    assert (2 ^ 24 <= 2 ^ d) by (apply Z.pow_le_mono_r; lia). lia. }
  assert (Hp : 0 < 2 ^ (23 - d)) by (apply Z.pow_pos_nonneg; lia).
  assert (Hsplit : 2 ^ 23 = 2 ^ d * 2 ^ (23 - d))
    by (rewrite <- Z.pow_add_r by lia; f_equal; lia).
  assert (Hsplit' : 2 ^ 24 = 2 ^ Z.succ d * 2 ^ (23 - d))
    by (rewrite <- Z.pow_add_r by lia; f_equal; lia).
  exists (Pos.shiftl_nat x (Z.to_nat (23 - d))), (d - 23).
  assert (Ha : Zpos (digits2_pos (Pos.shiftl_nat x (Z.to_nat (23 - d)))) = 24).
  { apply digits2_pos_24. rewrite shiftl_nat_Z, Z2Nat.id by lia. nia. }
  split; [| split; [exact Ha | split; [lia |]]].
  - unfold F32.of_Z, F32.prec, F32.emax.
    apply binary_normalize_exact; [exact Ha | lia | lia |].
    rewrite shiftl_nat_Z, Z2Nat.id by lia.
    rewrite <- Z.mul_assoc, <- Z.pow_add_r by lia. f_equal. f_equal. lia.
  - rewrite shiftl_nat_Z, Z2Nat.id by lia.
    rewrite <- Z.mul_assoc, <- Z.pow_add_r by lia. f_equal. f_equal. lia.
Qed.

Lemma scale_0_of_Z (k : Z) : 1 <= k <= 2 ^ 24 -> scale 0 (F32.of_Z k) = F32.of_Z k.
Proof.
  intros Hk. destruct (of_Z_canonical k Hk) as (a & e & -> & _).
  cbn [scale]. rewrite Z.add_0_r. reflexivity.
Qed.

(** Below [2^24] one more round is one more. *)
Lemma add_round_exact (c k : Z) :
  0 <= c <= 2 -> 1 <= k < 2 ^ 24 ->
  F32.add (scale c (F32.of_Z k)) (scale c F32.one) = scale c (F32.of_Z (k + 1)).
Proof.
  intros Hc Hk.
  destruct (of_Z_canonical k ltac:(lia)) as (a & e & -> & Ha & He & Hv).
  destruct (of_Z_canonical (k + 1) ltac:(lia)) as (a' & e' & -> & Ha' & He' & Hv').
  change F32.one with (S754_finite false 8388608 (-23)). cbn [scale].
  unfold F32.add, F32.prec, F32.emax.
  apply SFadd_exact; [exact Ha' | lia | lia | lia |].
  replace (e + c + 149) with ((e + 23) + (c + 126)) by lia.
  replace (e' + c + 149) with ((e' + 23) + (c + 126)) by lia.
  replace (-23 + c + 149) with (c + 126) by lia.
  rewrite (Z.pow_add_r 2 (e + 23) (c + 126)), (Z.pow_add_r 2 (e' + 23) (c + 126)) by lia.
  rewrite !Z.mul_assoc, <- Hv, <- Hv'.
  change (Zpos 8388608) with (2 ^ 23). ring.
Qed.

(** From [2^24] on one more round changes nothing. *)
Lemma add_round_stalls (c : Z) :
  0 <= c <= 2 ->
  F32.add (scale c (F32.of_Z (2 ^ 24))) (scale c F32.one) = scale c (F32.of_Z (2 ^ 24)).
Proof.
  intros Hc.
  assert (Hcases : c = 0 \/ c = 1 \/ c = 2) by lia.
  destruct Hcases as [-> | [-> | ->]]; vm_compute; reflexivity.
Qed.

Lemma sum_of_rounds_step (c k : Z) :
  0 <= c <= 2 -> 1 <= k ->
  F32.add (sum_of_rounds c k) (scale c F32.one) = sum_of_rounds c (k + 1).
Proof.
  intros Hc Hk. unfold sum_of_rounds.
  destruct (Z.lt_ge_cases k (2 ^ 24)) as [Hlt | Hge].
  - rewrite !Z.min_l by lia. apply add_round_exact; lia.
  - rewrite !Z.min_r by lia. apply add_round_stalls; lia.
Qed.

(** Up to [2^24] rounds the sum divided by the number of rounds is the
    summand. *)
Lemma div_rounds_exact (c k : Z) :
  0 <= c <= 2 -> 1 <= k <= 2 ^ 24 ->
  F32.div (scale c (F32.of_Z k)) (F32.of_Z k) = scale c F32.one.
Proof.
  intros Hc Hk.
  destruct (of_Z_canonical k Hk) as (a & e & -> & Ha & He & Hv).
  cbn [scale]. unfold F32.div, F32.prec, F32.emax.
  rewrite SFdiv_same_mantissa by (try exact Ha; lia).
  change F32.one with (S754_finite false 8388608 (-23)). cbn [scale].
  f_equal. lia.
Qed.

Lemma mean_of_rounds (c N : Z) :
  0 <= c <= 2 -> 1 <= N <= 2 ^ 24 + 1 ->
  F32.div (sum_of_rounds c N) (F32.of_Z N) = scale c F32.one.
Proof.
  intros Hc HN. unfold sum_of_rounds.
  destruct (Z.eq_dec N (2 ^ 24 + 1)) as [-> | Hne].
  - assert (Hcases : c = 0 \/ c = 1 \/ c = 2) by lia.
    destruct Hcases as [-> | [-> | ->]]; vm_compute; reflexivity.
  - rewrite Z.min_l by lia. apply div_rounds_exact; lia.
Qed.

(** ** Identical passes *)

(** The loop of [test] over passes that all deliver the scalars 2.0 and
    4.0 with loss 1.0: the three sums after any number of rounds. *)
Lemma score_accumulate_identical (env : Env) (iterations : Z) :
  1 <= iterations ->
  (forall i : nat,
     (i < Z.to_nat iterations)%nat ->
     scalars (fst (forward env i)) = [F32.of_Z 2; F32.of_Z 4] /\
     snd (forward env i) = F32.one) ->
  exists t j0 j1,
    score_accumulate env iterations =
    (t, Ret {| loss := sum_of_rounds 0 iterations;
               test_score := [sum_of_rounds 1 iterations; sum_of_rounds 2 iterations];
               test_score_output_id := [j0; j1] |}).
Proof.
  intros HN Hsame. unfold score_accumulate, upto.
  destruct (Z.to_nat iterations) as [|n] eqn:En; [lia |].
  cbn [seq foldM].
  destruct (score_iteration_first env empty_scores) as (t0 & ids & E0 & Hids).
  destruct (Hsame 0%nat ltac:(lia)) as [Hs0 Hl0].
  rewrite Hs0, Hl0 in E0. rewrite Hs0 in Hids.
  destruct ids as [|j0 [|j1 [|]]]; try discriminate Hids.
  cbn [empty_scores loss test_score test_score_output_id app] in E0.
  munfold. rewrite E0, bind_Ret. cbn [fst snd].
  set (state := fun k : nat =>
         {| loss := sum_of_rounds 0 (Z.of_nat k);
            test_score := [sum_of_rounds 1 (Z.of_nat k); sum_of_rounds 2 (Z.of_nat k)];
            test_score_output_id := [j0; j1] |}).
  destruct (foldM_seq_states (score_iteration env) state n 1) as [t Et].
  { intros k Hk.
    destruct (Hsame k ltac:(lia)) as [Hsk Hlk].
    destruct (score_iteration_later env (state k) k) as [tk Ek]; [lia | |].
    - rewrite Hsk. reflexivity.
    - exists tk. rewrite Ek, Hsk, Hlk. unfold state.
      cbn [loss test_score test_score_output_id add_scores zip_with].
      rewrite Nat2Z.inj_succ, <- Z.add_1_r.
      rewrite <- !sum_of_rounds_step by lia. reflexivity. }
  change (F32.add F32.zero F32.one) with (sum_of_rounds 0 (Z.of_nat 1)).
  change (F32.of_Z 2) with (sum_of_rounds 1 (Z.of_nat 1)).
  change (F32.of_Z 4) with (sum_of_rounds 2 (Z.of_nat 1)).
  fold (state 1%nat). rewrite Et. unfold state.
  replace (Z.of_nat (1 + n)) with iterations by lia.
  eauto.
Qed.

(** The means of identical passes as they are printed: up to
    [2^24 + 1] rounds they are exact, and for the eight counts after that
    the quotient is still within half a unit of the sixth digit. *)
Lemma printed_mean_of_rounds (N : Z) :
  1 <= N <= 16777225 ->
  Text.render_float (F32.div (sum_of_rounds 0 N) (F32.of_Z N)) = "1" /\
  Text.render_float (F32.div (sum_of_rounds 1 N) (F32.of_Z N)) = "2" /\
  Text.render_float (F32.div (sum_of_rounds 2 N) (F32.of_Z N)) = "4".
Proof.
  intros HN. destruct (Z_le_gt_dec N 16777217) as [Hle | Hgt].
  - rewrite !mean_of_rounds by (change (2 ^ 24 + 1) with 16777217; lia).
    vm_compute. repeat split.
  - assert (Hcases : N = 16777218 \/ N = 16777219 \/ N = 16777220 \/ N = 16777221 \/
                     N = 16777222 \/ N = 16777223 \/ N = 16777224 \/ N = 16777225) by lia.
    repeat destruct Hcases as [-> | Hcases]; try subst N; vm_compute; repeat split.
Qed.

(** C4, as it holds.  Over [N] identical passes, each delivering the
    scalars 2.0 and 4.0 with loss 1.0, the means are printed as 2 and 4 and
    the mean loss as 1 for every [N] from 1 to 16777225: the report of an
    evaluation whose outputs carry no loss weight reads "Loss: 1",
    "<name> = 2", "<name> = 4".  Up to 16777217 (that is [2^24 + 1]) every
    sum and every quotient is exact in [float] arithmetic, so the means
    are 2.0, 4.0 and 1.0 themselves; from there to 16777225 the means fall
    short of them by less than the six significant digits printed show. *)
Theorem classification_means_of_identical_passes (env : Env) (iterations : Z) :
  1 <= iterations <= 16777225 ->
  (forall i : nat,
     (i < Z.to_nat iterations)%nat ->
     scalars (fst (forward env i)) = [F32.of_Z 2; F32.of_Z 4] /\
     snd (forward env i) = F32.one) ->
  exists t acc,
    score_accumulate env iterations = (t, Ret acc) /\
    map Text.render_float (mean_scores acc iterations) = ["2"; "4"] /\
    Text.render_float (mean_loss acc iterations) = "1" /\
    (iterations <= 16777217 ->
     mean_scores acc iterations = [F32.of_Z 2; F32.of_Z 4] /\
     mean_loss acc iterations = F32.one) /\
    ((forall j, F32.is_zero (output_loss_weight env j) = true) ->
     exists j0 j1,
       Text.lines (trace (score_report env acc iterations)) =
       ["Loss: 1"; output_name env j0 +:+ " = 2"; output_name env j1 +:+ " = 4"]).
Proof.
  intros HN Hsame.
  destruct (score_accumulate_identical env iterations ltac:(lia) Hsame)
    as (t & j0 & j1 & E).
  destruct (printed_mean_of_rounds iterations HN) as (P0 & P1 & P2).
  eexists t, _. split; [exact E |].
  unfold mean_scores, mean_loss. cbn [loss test_score map].
  split; [rewrite P1, P2; reflexivity |].
  split; [exact P0 |].
  split.
  - intros Hle.
    rewrite !mean_of_rounds by (change (2 ^ 24 + 1) with 16777217; lia).
    split; reflexivity.
  - intros Hw. exists j0, j1.
    unfold score_report, mean_scores, mean_loss, score_line.
    cbn [loss test_score test_score_output_id map combine]. cbv zeta.
    unfold forM_. cbn [foldM LOG]. munfold. rewrite !Hw.
    cbn [bind ret app trace fst Text.lines flat_map].
    unfold Text.line. cbn [map Text.item String.concat app].
    rewrite P0, P1, P2. reflexivity.
Qed.

Lemma classification_means_of_identical_passes_witness :
  exists t acc,
    score_accumulate identical_passes_env 16777220 = (t, Ret acc) /\
    Text.lines (trace (score_report identical_passes_env acc 16777220)) =
      ["Loss: 1"; "prob = 2"; "prob = 4"].
Proof.
  destruct (classification_means_of_identical_passes identical_passes_env 16777220)
    as (t & acc & E & _ & _ & _ & Hlines).
  - lia.
  - intros i _. split; reflexivity.
  - destruct Hlines as (j0 & j1 & H); [intros j; reflexivity |].
    exists t, acc. split; [exact E | exact H].
Defined.

(** C4, as it fails.  Over 16777226 identical passes the loss sum has
    stopped at 16777216.0, where adding 1.0 rounds back to the sum; the
    mean loss is 16777216/16777226 in [float] and the report reads
    "Loss: 0.999999", not "Loss: 1". *)
Lemma classification_means_counterexample :
  (forall i : nat,
     scalars (fst (forward identical_passes_env i)) = [F32.of_Z 2; F32.of_Z 4] /\
     snd (forward identical_passes_env i) = F32.one) /\
  exists t acc,
    score_accumulate identical_passes_env 16777226 = (t, Ret acc) /\
    Text.lines (trace (score_report identical_passes_env acc 16777226)) =
      ["Loss: 0.999999"; "prob = 2"; "prob = 4"] /\
    Text.render_float (mean_loss acc 16777226) <> "1".
Proof.
  split; [intros i; split; reflexivity |].
  destruct (score_accumulate_identical identical_passes_env 16777226)
    as (t & j0 & j1 & E).
  - lia.
  - intros i _. split; reflexivity.
  - eexists t, _. split; [exact E |].
    assert (P0 : Text.render_float
                   (F32.div (sum_of_rounds 0 16777226) (F32.of_Z 16777226)) = "0.999999")
      by (vm_compute; reflexivity).
    assert (P1 : Text.render_float
                   (F32.div (sum_of_rounds 1 16777226) (F32.of_Z 16777226)) = "2")
      by (vm_compute; reflexivity).
    assert (P2 : Text.render_float
                   (F32.div (sum_of_rounds 2 16777226) (F32.of_Z 16777226)) = "4")
      by (vm_compute; reflexivity).
    unfold score_report, mean_scores, mean_loss, score_line.
    cbn [loss test_score test_score_output_id map combine]. cbv zeta.
    change (output_loss_weight identical_passes_env) with (fun _ : nat => F32.zero).
    change (output_name identical_passes_env) with (fun _ : nat => "prob").
    cbv beta. change (F32.is_zero F32.zero) with true. cbv iota.
    unfold forM_. cbn [foldM LOG]. munfold.
    cbn [bind ret app trace fst Text.lines flat_map].
    unfold Text.line. cbn [map Text.item String.concat app].
    rewrite P0, P1, P2. split; [reflexivity | discriminate].
Qed.

(* ===================================================================== *)
(** * Further properties of the commands *)
(* ===================================================================== *)

(** ** Traces of composed computations *)

Lemma only_events_ret {A} (P : Event -> Prop) (a : A) : only_events P (ret a).
Proof. intros e []. Qed.

Lemma only_events_halt {A} (P : Event -> Prop) (s : Stop) : only_events P (@halt A s).
Proof. intros e []. Qed.

Lemma only_events_bind {A B} (P : Event -> Prop) (m : M A) (k : A -> M B) :
  only_events P m -> (forall a, only_events P (k a)) -> only_events P (bind m k).
Proof.
  intros Hm Hk e. destruct m as [t [a | s]].
  - rewrite bind_Ret. unfold trace. cbn [fst]. rewrite in_app_iff.
    intros [H | H]; [apply Hm; exact H | apply (Hk a); exact H].
  - apply Hm.
Qed.

Lemma only_events_foldM {A S} (P : Event -> Prop) (f : S -> A -> M S) (l : list A) :
  (forall s x, In x l -> only_events P (f s x)) ->
  forall s, only_events P (foldM f l s).
Proof.
  induction l as [|x l IH]; intros Hf s; cbn [foldM].
  - apply only_events_ret.
  - munfold. apply only_events_bind.
    + apply Hf. left. reflexivity.
    + intros s'. apply IH. intros s'' y Hy. apply Hf. right. exact Hy.
Qed.

Lemma only_events_forM_ {A} (P : Event -> Prop) (f : A -> M unit) (l : list A) :
  (forall x, In x l -> only_events P (f x)) -> only_events P (forM_ f l).
Proof. intros Hf. unfold forM_. apply only_events_foldM. intros _ x. apply Hf. Qed.

Lemma only_events_LOG (P : Event -> Prop) (sev : Severity) (msg : list Item) :
  P (Log sev msg) -> only_events P (LOG sev msg).
Proof. intros H e. destruct sev; cbn; intros [<- | []]; exact H. Qed.

Lemma only_events_emit (P : Event -> Prop) (c : ExtCall) :
  P (Call c) -> only_events P (emit c).
Proof. intros H e [<- | []]. exact H. Qed.

Lemma only_events_CHECK (P : Event -> Prop) (cond : bool) (what msg : string) :
  (forall m, P (Log FATAL m)) -> only_events P (CHECK cond what msg).
Proof.
  intros H. unfold CHECK. destruct cond; [apply only_events_ret |].
  apply only_events_LOG. apply H.
Qed.

Lemma only_calls_ret {A} (Q : ExtCall -> Prop) (a : A) : only_calls Q (ret a).
Proof. apply only_events_ret. Qed.

Lemma only_calls_halt {A} (Q : ExtCall -> Prop) (s : Stop) : only_calls Q (@halt A s).
Proof. apply only_events_halt. Qed.

Lemma only_calls_bind {A B} (Q : ExtCall -> Prop) (m : M A) (k : A -> M B) :
  only_calls Q m -> (forall a, only_calls Q (k a)) -> only_calls Q (bind m k).
Proof. apply only_events_bind. Qed.

(** The rest of a computation only runs where its first part returned. *)
Lemma only_calls_bind_result {A B} (Q : ExtCall -> Prop) (m : M A) (k : A -> M B) :
  only_calls Q m ->
  (forall a, result m = Ret a -> only_calls Q (k a)) ->
  only_calls Q (bind m k).
Proof.
  intros Hm Hk e. destruct m as [t [a | s]].
  - rewrite bind_Ret. unfold trace. cbn [fst]. rewrite in_app_iff.
    intros [H | H]; [apply Hm; exact H | apply (Hk a eq_refl); exact H].
  - apply Hm.
Qed.

Lemma only_calls_foldM {A S} (Q : ExtCall -> Prop) (f : S -> A -> M S) (l : list A) (s : S) :
  (forall s x, only_calls Q (f s x)) -> only_calls Q (foldM f l s).
Proof. intros Hf. apply only_events_foldM. intros s' x _. apply Hf. Qed.

Lemma only_calls_forM_ {A} (Q : ExtCall -> Prop) (f : A -> M unit) (l : list A) :
  (forall x, only_calls Q (f x)) -> only_calls Q (forM_ f l).
Proof. intros Hf. apply only_events_forM_. intros x _. apply Hf. Qed.

Lemma only_calls_LOG (Q : ExtCall -> Prop) (sev : Severity) (msg : list Item) :
  only_calls Q (LOG sev msg).
Proof. apply only_events_LOG. exact I. Qed.

Lemma only_calls_CHECK (Q : ExtCall -> Prop) (cond : bool) (what msg : string) :
  only_calls Q (CHECK cond what msg).
Proof. apply only_events_CHECK. intros m. exact I. Qed.

Lemma only_calls_emit (Q : ExtCall -> Prop) (c : ExtCall) :
  Q c -> only_calls Q (emit c).
Proof. intros H. apply only_events_emit. exact H. Qed.

Lemma only_calls_when (Q : ExtCall -> Prop) (b : bool) (m : M unit) :
  only_calls Q m -> only_calls Q (when b m).
Proof. intros H. destruct b; [exact H | apply only_calls_ret]. Qed.

Lemma only_calls_pair {A} (Q : ExtCall -> Prop) (t : list Event) (r : Res A) :
  (forall c, In (Call c) t -> Q c) -> only_calls Q (t, r).
Proof. intros H [sev msg | c] Hin; [exact I | apply H; exact Hin]. Qed.

Lemma only_calls_weaken {A} (Q Q' : ExtCall -> Prop) (m : M A) :
  (forall c, Q c -> Q' c) -> only_calls Q m -> only_calls Q' m.
Proof. intros H Hm [sev msg | c] Hin; [exact I | apply H, (Hm (Call c)), Hin]. Qed.

Lemma only_calls_In {A} (Q : ExtCall -> Prop) (m : M A) (c : ExtCall) :
  only_calls Q m -> In (Call c) (trace m) -> Q c.
Proof. intros H Hin. exact (H (Call c) Hin). Qed.

(** Breaks a computation down along its binds, loops and branches, and
    stops at the functions it is built from. *)
Ltac calls_step :=
  match goal with
  | |- only_calls _ (ret _) => apply only_calls_ret
  | |- only_calls _ (halt _) => apply only_calls_halt
  | |- only_calls _ (LOG _ _) => apply only_calls_LOG
  | |- only_calls _ (CHECK _ _ _) => apply only_calls_CHECK
  | |- only_calls _ (emit _) => apply only_calls_emit
  | |- only_calls _ (when _ _) => apply only_calls_when
  | |- only_calls _ (bind _ _) => apply only_calls_bind_result; [| intros ? ?]
  | |- only_calls _ (forM_ _ _) => apply only_calls_forM_; intros ?
  | |- only_calls _ (foldM _ _ _) => apply only_calls_foldM; intros ? ?
  | |- only_calls _ (match ?x with _ => _ end) => destruct x eqn:?
  | |- only_calls _ (let _ := _ in _) => cbv zeta
  end.

Ltac calls := munfold; repeat calls_step.

Lemma stops_bind_l {A B} (m : M A) (k : A -> M B) : stops m -> stops (bind m k).
Proof.
  intros [s Hs]. destruct m as [t [a | s']]; [discriminate Hs |].
  exists s'. reflexivity.
Qed.

Lemma stops_bind_r {A B} (m : M A) (k : A -> M B) :
  (forall a, stops (k a)) -> stops (bind m k).
Proof.
  intros Hk. destruct m as [t [a | s]].
  - destruct (Hk a) as [s Hs]. exists s. rewrite bind_Ret. exact Hs.
  - exists s. reflexivity.
Qed.

Lemma stops_not_returned {A} (m : M A) (a : A) : stops m -> result m = Ret a -> False.
Proof. intros [s Hs] Hr. congruence. Qed.

Lemma stops_LOG_FATAL (msg : list Item) : stops (LOG FATAL msg).
Proof. exists Fatal. reflexivity. Qed.

Section CallsOfCommands.
Variable build : Build.
Variable env : Env.

Lemma only_calls_get_gpus (Q : ExtCall -> Prop) (gpu : string) (gpus : list Z) :
  Q (EnumerateDevices true) -> only_calls Q (get_gpus build env gpu gpus).
Proof.
  intros HQ. unfold get_gpus, NO_GPU. calls. exact HQ.
Qed.

Lemma get_gpus_no_flag (gpus : list Z) :
  only_calls (fun _ => False) (get_gpus build env EmptyString gpus) /\
  forall gpus', result (get_gpus build env EmptyString gpus) = Ret gpus' -> gpus' = [].
Proof.
  unfold get_gpus. cbn [String.eqb nonempty negb]. split.
  - calls.
  - destruct gpus; cbn; intros gpus' H; [injection H as <-; reflexivity | discriminate].
Qed.

End CallsOfCommands.

(** The same over the functions of the tool. *)
Ltac calls_cmd :=
  calls;
  repeat
    (match goal with
     | |- only_calls _ (use_device _ _) => unfold use_device
     | |- only_calls _ (teardown_device _ _ _) => unfold teardown_device
     | |- only_calls _ (score_accumulate _ _) => unfold score_accumulate
     | |- only_calls _ (score_iteration _ _ _) => unfold score_iteration
     | |- only_calls _ (score_blob _ _ _ _) => unfold score_blob
     | |- only_calls _ (score_step _ _ _ _ _) => unfold score_step
     | |- only_calls _ (score_report _ _ _) => unfold score_report
     | |- only_calls _ (test_detection _ _) => unfold test_detection
     | |- only_calls _ (detection_report _ _ _) => unfold detection_report
     | |- only_calls _ (mean_AP _ _ _ _ _) => unfold mean_AP
     | |- only_calls _ (mAP_step _ _ _ _ _ _) => unfold mAP_step
     | |- only_calls _ (get_phase_from_flags _ _) => unfold get_phase_from_flags
     | |- only_calls _ (GetRequestedAction _) => unfold GetRequestedAction
     | |- only_calls _ (make_signal_handler _) => unfold make_signal_handler
     | |- only_calls _ (CopyLayers _ _) => unfold CopyLayers
     | |- only_calls _ (time_loop _ _ _ _) => unfold time_loop
     | |- only_calls _ (time_iteration _ _ _ _ _) => unfold time_iteration
     | |- only_calls _ (time_report _ _ _ _) => unfold time_report
     | |- only_calls _ (forward_pass _ _) => unfold forward_pass
     | |- only_calls _ (backward_pass _ _) => unfold backward_pass
     | |- only_calls _ (NO_GPU) => unfold NO_GPU
     end; calls).

Section PathsOfCommands.
Variable build : Build.
Variable env : Env.

(** X1.  Whatever its flags, [test] only selects a device, builds the net
    in the TEST phase, loads its weights, runs forward passes and releases
    the device: it makes no backward pass, builds no solver and starts no
    timer. *)
Theorem test_is_forward_only (F : Flags) :
  only_calls (fun c => is_evaluation_call c = true) (test build env F).
Proof.
  unfold test. calls_cmd; try reflexivity.
  apply only_calls_get_gpus. reflexivity.
Qed.

(** X2.  With [-phase TEST] the benchmark runs no backward pass, neither
    the warm-up one of the whole net nor one of a layer. *)
Theorem time_test_phase_runs_no_backward (F : Flags) :
  FLAGS_phase F = "TEST" ->
  only_calls (fun c => is_backward_call c = false) (time build env F).
Proof.
  intros Hp. unfold time, get_phase_from_flags. rewrite Hp. cbn [String.eqb Ascii.eqb Bool.eqb].
  munfold. rewrite (bind_ret_l TEST). calls_cmd; try reflexivity.
  apply only_calls_get_gpus. reflexivity.
Qed.

Lemma GetRequestedAction_unknown (flag_value : string) :
  is_signal_effect flag_value = false -> stops (GetRequestedAction flag_value).
Proof.
  unfold is_signal_effect, GetRequestedAction. intros H.
  apply orb_false_iff in H as [H H3]. apply orb_false_iff in H as [H1 H2].
  rewrite H1, H2, H3. munfold. apply stops_bind_l, stops_LOG_FATAL.
Qed.

Lemma make_signal_handler_unknown (F : Flags) :
  is_signal_effect (FLAGS_sigint_effect F) = false \/
  is_signal_effect (FLAGS_sighup_effect F) = false ->
  stops (make_signal_handler F).
Proof.
  intros [H | H]; unfold make_signal_handler; munfold.
  - apply stops_bind_l, GetRequestedAction_unknown, H.
  - apply stops_bind_r. intros sigint. apply stops_bind_l, GetRequestedAction_unknown, H.
Qed.

End PathsOfCommands.

(** Breaks a computation down to the part that stops. *)
Ltac stops_at H :=
  munfold;
  repeat
    (match goal with
     | |- stops (bind (make_signal_handler _) _) =>
         apply stops_bind_l, make_signal_handler_unknown, H
     | |- stops (bind _ _) => apply stops_bind_r; intros ?
     | |- stops (match ?x with _ => _ end) => destruct x
     | |- stops (let _ := _ in _) => cbv zeta
     end).

Section StopsOfCommands.
Variable build : Build.
Variable env : Env.

(** X3.  A signal effect other than "stop", "snapshot" and "none", for
    SIGINT or for SIGHUP, stops [train] and [autotune]: [train] before it
    builds, restores or runs a solver, [autotune] before it builds the
    net. *)
Theorem unknown_signal_effect_stops_before_solver (F : Flags) :
  is_signal_effect (FLAGS_sigint_effect F) = false \/
  is_signal_effect (FLAGS_sighup_effect F) = false ->
  stops (train build env F) /\
  only_calls (fun c => touches_solver (Call c) = false) (train build env F) /\
  stops (autotune build env F) /\
  only_calls (fun c => forall m ph l st, c <> NewNet m ph l st) (autotune build env F).
Proof.
  intros H. pose proof (make_signal_handler_unknown F H) as Hstop.
  repeat split.
  - unfold train. stops_at H.
  - unfold train. calls_cmd; try reflexivity;
      try (exfalso; eapply stops_not_returned; [exact Hstop | eassumption]).
    apply only_calls_get_gpus. reflexivity.
  - unfold autotune. stops_at H.
  - unfold autotune. calls_cmd; try discriminate;
      try (exfalso; eapply stops_not_returned; [exact Hstop | eassumption]).
    apply only_calls_get_gpus. discriminate.
Qed.

(** X4.  In a build without CUDA or without NCCL [train] never starts a
    multi-device run, whatever the device list. *)
Theorem train_NCCL_needs_the_build (F : Flags) :
  USE_CUDA build && USE_NCCL build = false ->
  only_calls (fun c => is_NCCL_Run c = false) (train build env F).
Proof.
  intros H. unfold train. calls_cmd; try reflexivity.
  - apply only_calls_get_gpus. reflexivity.
  - exfalso. repeat match goal with E : _ build = true |- _ => rewrite E in H end.
    discriminate H.
Qed.

End StopsOfCommands.

Lemma time_test_phase_runs_no_backward_witness :
  only_calls (fun c => is_backward_call c = false)
             (time opencl_build small_env flags_time_test_phase).
Proof. apply time_test_phase_runs_no_backward. reflexivity. Defined.

Lemma unknown_signal_effect_stops_before_solver_witness :
  stops (train cuda_build small_env flags_train_unknown_signal) /\
  stops (autotune cuda_build small_env flags_train_unknown_signal).
Proof.
  destruct (unknown_signal_effect_stops_before_solver
              cuda_build small_env flags_train_unknown_signal) as (H1 & _ & H3 & _).
  - left. reflexivity.
  - split; assumption.
Defined.

Lemma train_NCCL_needs_the_build_witness :
  only_calls (fun c => is_NCCL_Run c = false)
             (train opencl_build small_env flags_train_two_gpus).
Proof. apply train_NCCL_needs_the_build. reflexivity. Defined.

Section MoreCallsOfCommands.
Variable build : Build.
Variable env : Env.

(** X5.  A command that lacks the file it works on aborts on a check with
    one fatal line and before any call into the library: [train] without a
    solver, [test] without a model or without weights, [time] and
    [autotune] without a model. *)
Theorem missing_file_aborts_before_any_call (F : Flags) :
  (FLAGS_solver F = EmptyString ->
   exists msg, train build env F = ([Log FATAL msg], Halt Fatal)) /\
  (FLAGS_model F = EmptyString \/ FLAGS_weights F = EmptyString ->
   exists msg, test build env F = ([Log FATAL msg], Halt Fatal)) /\
  (FLAGS_model F = EmptyString ->
   exists msg, time build env F = ([Log FATAL msg], Halt Fatal)) /\
  (FLAGS_model F = EmptyString ->
   exists msg, autotune build env F = ([Log FATAL msg], Halt Fatal)).
Proof.
  repeat split.
  - intros H. unfold train. rewrite H. eexists. reflexivity.
  - intros [H | H]; unfold test; rewrite H.
    + eexists. reflexivity.
    + destruct (FLAGS_model F); eexists; reflexivity.
  - intros H. unfold time. rewrite H. eexists. reflexivity.
  - intros H. unfold autotune. rewrite H. eexists. reflexivity.
Qed.

Lemma get_gpus_no_flag_returned (a : list Z) :
  result (get_gpus build env EmptyString []) = Ret a -> a = [].
Proof. intros H. injection H as <-. reflexivity. Qed.

(** X6.  Without a [-gpu] flag [test], [time] and [autotune] run on the
    CPU: they make no call that enumerates, selects, queries or releases a
    device, in any build. *)
Theorem no_gpu_flag_runs_on_cpu (F : Flags) :
  FLAGS_gpu F = EmptyString ->
  only_calls (fun c => is_device_call c = false) (test build env F) /\
  only_calls (fun c => is_device_call c = false) (time build env F) /\
  only_calls (fun c => is_device_call c = false) (autotune build env F).
Proof.
  intros Hgpu.
  assert (Hget : only_calls (fun c => is_device_call c = false)
                   (get_gpus build env EmptyString [])).
  { eapply only_calls_weaken; [| apply get_gpus_no_flag]. intros c []. }
  repeat split.
  - unfold test. rewrite Hgpu. calls_cmd; try reflexivity; try exact Hget;
      match goal with
      | Hr : result (get_gpus _ _ _ _) = Ret _ |- _ =>
          apply get_gpus_no_flag_returned in Hr; discriminate Hr
      end.
  - unfold time. rewrite Hgpu. calls_cmd; try reflexivity; try exact Hget;
      match goal with
      | Hr : result (get_gpus _ _ _ _) = Ret _ |- _ =>
          apply get_gpus_no_flag_returned in Hr; discriminate Hr
      end.
  - unfold autotune. rewrite Hgpu. calls_cmd; try reflexivity; try exact Hget;
      match goal with
      | Hr : result (get_gpus _ _ _ _) = Ret _ |- _ =>
          apply get_gpus_no_flag_returned in Hr; discriminate Hr
      end.
Qed.
End MoreCallsOfCommands.

Lemma missing_file_aborts_before_any_call_witness :
  exists msg, train opencl_build small_env default_flags = ([Log FATAL msg], Halt Fatal).
Proof.
  apply (proj1 (missing_file_aborts_before_any_call opencl_build small_env default_flags)).
  reflexivity.
Defined.

Lemma no_gpu_flag_runs_on_cpu_witness :
  only_calls (fun c => is_device_call c = false)
             (time opencl_build small_env flags_time_once).
Proof.
  exact (proj1 (proj2 (no_gpu_flag_runs_on_cpu
                         opencl_build small_env flags_time_once eq_refl))).
Defined.

(** ** Splitting and joining *)

(** Joining the tokens of a string gives the string back. *)
Lemma join_split (s : string) : join_tokens (split is_comma s) = s.
Proof.
  induction s as [|c s IH]; [reflexivity |].
  cbn [split]. destruct (is_comma c) eqn:Ec.
  - unfold is_comma in Ec. apply Ascii.eqb_eq in Ec. subst c.
    pose proof (split_nonempty is_comma s) as Hne.
    destruct (split is_comma s) as [|t ts] eqn:Es; [contradiction |].
    change (join_tokens (EmptyString :: t :: ts)) with ("," +:+ join_tokens (t :: ts)).
    rewrite IH. reflexivity.
  - pose proof (split_nonempty is_comma s) as Hne.
    destruct (split is_comma s) as [|t ts] eqn:Es; [contradiction |].
    destruct ts as [|t' ts'].
    + cbn in IH |- *. rewrite IH. reflexivity.
    + change (join_tokens (String c t :: t' :: ts'))
        with (String c (t +:+ "," +:+ join_tokens (t' :: ts'))).
      change (join_tokens (t :: t' :: ts')) with (t +:+ "," +:+ join_tokens (t' :: ts')) in IH.
      rewrite IH. reflexivity.
Qed.

Lemma split_length (s : string) :
  List.length (split is_comma s) = S (commas s).
Proof.
  induction s as [|c s IH]; [reflexivity |].
  cbn [split commas]. destruct (is_comma c).
  - cbn [List.length]. rewrite IH. reflexivity.
  - destruct (split is_comma s) as [|t ts]; [discriminate IH |].
    cbn [List.length] in *. lia.
Qed.

(** X7.  The stages [get_stages_from_flags] hands on are the pieces of
    [-stage] between its commas: joined with commas they give the flag
    back, there is one more of them than the flag has commas (an empty flag
    gives one empty stage, not none), and none holds a comma. *)
Theorem stages_round_trip (F : Flags) :
  join_tokens (get_stages_from_flags F) = FLAGS_stage F /\
  List.length (get_stages_from_flags F) = S (commas (FLAGS_stage F)) /\
  Forall (fun stage => comma_free stage = true) (get_stages_from_flags F).
Proof.
  unfold get_stages_from_flags. split; [apply join_split | split; [apply split_length |]].
  induction (FLAGS_stage F) as [|c s IH]; cbn [split].
  - repeat constructor.
  - destruct (is_comma c) eqn:Ec.
    + constructor; [reflexivity | exact IH].
    + destruct (split is_comma s) as [|t ts]; [repeat constructor; cbn; rewrite Ec; reflexivity |].
      inversion IH as [|? ? Ht Hts]; subst. constructor; [| exact Hts].
      cbn. rewrite Ec, Ht. reflexivity.
Qed.

(** ** Printing an [int] and reading it back *)

Lemma digit_of_pretty_N_char (d : N) :
  (d < 10)%N -> digit_of (pretty_N_char d) = Some (Z.of_N d).
Proof.
  intros H.
  assert (Hc : (d = 0 \/ d = 1 \/ d = 2 \/ d = 3 \/ d = 4 \/ d = 5 \/ d = 6 \/
               d = 7 \/ d = 8 \/ d = 9)%N) by lia.
  repeat destruct Hc as [-> | Hc]; try subst d; reflexivity.
Qed.

(** Reading the digits [pretty_N_go] puts in front of [s]. *)
Lemma parse_digits_pretty_N_go (x : N) : forall (s : string),
  exists k : Z, 0 <= k /\ forall acc : Z,
    parse_digits acc (pretty_N_go x s) = parse_digits (acc * 10 ^ k + Z.of_N x) s.
Proof.
  induction (N.lt_wf_0 x) as [x _ IH]. intros s.
  destruct (N.eq_dec x 0%N) as [-> | Hx].
  - exists 0. split; [lia |]. intros acc. rewrite pretty_N_go_0. f_equal. cbn. lia.
  - rewrite pretty_N_go_step by lia.
    destruct (IH (x `div` 10)%N) with (s := String (pretty_N_char (x `mod` 10)) s)
      as (k & Hk & Hparse).
    { apply N.div_lt; lia. }
    exists (k + 1). split; [lia |]. intros acc. rewrite Hparse.
    cbn [parse_digits]. rewrite digit_of_pretty_N_char by (apply N.mod_lt; lia).
    f_equal. rewrite Z.pow_add_r by lia.
    pose proof (N.div_mod x 10 ltac:(lia)) as Hdm.
    apply (f_equal Z.of_N) in Hdm. rewrite N2Z.inj_add, N2Z.inj_mul in Hdm.
    change (Z.of_N 10) with 10 in Hdm. lia.
Qed.

Lemma pretty_N_go_nonempty (x : N) (s : string) :
  (0 < x)%N -> pretty_N_go x s <> EmptyString.
Proof.
  revert s. induction (N.lt_wf_0 x) as [x _ IH]. intros s Hx.
  rewrite pretty_N_go_step by exact Hx.
  destruct (N.eq_dec (x `div` 10)%N 0%N) as [E | E].
  - rewrite E, pretty_N_go_0. discriminate.
  - apply IH; [apply N.div_lt; lia | apply N.neq_0_lt_0; exact E].
Qed.

Lemma pretty_N_go_head (x : N) : forall (s : string),
  (0 < x)%N ->
  exists c r, pretty_N_go x s = String c r /\ c <> "-"%char /\ c <> "+"%char.
Proof.
  induction (N.lt_wf_0 x) as [x _ IH]. intros s Hx.
  rewrite pretty_N_go_step by exact Hx.
  destruct (N.eq_dec (x `div` 10)%N 0%N) as [E | E].
  - rewrite E, pretty_N_go_0. eexists _, _. split; [reflexivity |].
    unfold pretty_N_char. repeat case_match; split; discriminate.
  - apply IH; [apply N.div_lt; lia | apply N.neq_0_lt_0; exact E].
Qed.

Lemma parse_pretty_positive (p : positive) :
  pretty (Npos p) <> EmptyString /\
  parse_digits 0 (pretty (Npos p)) = Some (Zpos p) /\
  exists c r, pretty (Npos p) = String c r /\ c <> "-"%char /\ c <> "+"%char.
Proof.
  unfold pretty, pretty_N. rewrite decide_False by discriminate.
  split; [apply pretty_N_go_nonempty; lia | split].
  - destruct (parse_digits_pretty_N_go (Npos p) EmptyString) as (k & _ & H).
    rewrite H. reflexivity.
  - apply pretty_N_go_head. lia.
Qed.

(** An [int] printed by [lexical_cast<string>] is read back by
    [lexical_cast<int>]. *)
Lemma lexical_cast_round_trip (z : Z) :
  Int.in_range z = true -> lexical_cast_int (lexical_cast_string z) = Some z.
Proof.
  intros Hz. unfold lexical_cast_string. destruct z as [|p|p].
  - reflexivity.
  - change (pretty (Zpos p)) with (pretty (Npos p)).
    destruct (parse_pretty_positive p) as (Hne & Hparse & c & r & E & Hm & Hp).
    rewrite E in Hparse |- *. rewrite lexical_cast_int_cases. cbv zeta.
    destruct (Ascii.eqb_spec c "-"); [contradiction |].
    destruct (Ascii.eqb_spec c "+"); [contradiction |].
    cbn [orb]. rewrite Hparse, Hz. reflexivity.
  - change (pretty (Zneg p)) with ("-" +:+ pretty (Npos p)).
    destruct (parse_pretty_positive p) as (Hne & Hparse & c & r & E & Hm & Hp).
    rewrite E in Hparse |- *.
    change ("-" +:+ String c r) with (String "-" (String c r)).
    rewrite lexical_cast_int_cases.
    change (Ascii.eqb "-" "-") with true. cbv zeta. cbn [orb].
    rewrite Hparse. change (- Zpos p) with (Zneg p). rewrite Hz. reflexivity.
Qed.

(** ** Devices resolved *)

Lemma trace_bind {A B} (m : M A) (k : A -> M B) (a : A) :
  result m = Ret a -> trace (bind m k) = trace m ++ trace (k a).
Proof.
  destruct m as [t [a' | s]]; cbn [result snd]; intros H; [| discriminate H].
  injection H as ->. rewrite bind_Ret. reflexivity.
Qed.

Lemma result_bind {A B} (m : M A) (k : A -> M B) (a : A) :
  result m = Ret a -> result (bind m k) = result (k a).
Proof.
  destruct m as [t [a' | s]]; cbn [result snd]; intros H; [| discriminate H].
  injection H as ->. rewrite bind_Ret. reflexivity.
Qed.

Section DevicesResolved.
Variable build : Build.
Variable env : Env.

(** A device list whose tokens all convert. *)
Lemma get_gpus_of_tokens (tokens : list string) (ids gpus : list Z) :
  tokens <> [] ->
  Forall2 (fun t id => lexical_cast_int t = Some id) tokens ids ->
  nonempty (join_tokens tokens) = true /\
  get_gpus build env (join_tokens tokens) gpus = ([], Ret (gpus ++ ids)).
Proof.
  intros Hne Hall.
  pose proof (split_join tokens Hne (converting_tokens_comma_free _ _ Hall)) as Hsplit.
  unfold get_gpus.
  destruct (String.eqb_spec (join_tokens tokens) "all") as [Eall | _].
  { rewrite Eall in Hsplit. cbn in Hsplit. subst tokens.
    inversion Hall as [|? ? ? ? Hbad]; subst. discriminate Hbad. }
  destruct (join_tokens tokens) as [|c r] eqn:Ej.
  { cbn in Hsplit. subst tokens.
    inversion Hall as [|? ? ? ? Hbad]; subst. discriminate Hbad. }
  split; [reflexivity |].
  cbn [nonempty String.eqb negb]. rewrite Hsplit.
  apply get_gpus_loop_converts. exact Hall.
Qed.

(** The device a solver file names, printed and resolved. *)
Lemma get_gpus_of_device_id (id : Z) :
  Int.in_range id = true ->
  get_gpus build env (lexical_cast_string id) [] = ([], Ret [id]).
Proof.
  intros Hid.
  destruct (get_gpus_of_tokens [lexical_cast_string id] [id] []) as [_ H].
  - discriminate.
  - constructor; [apply lexical_cast_round_trip; exact Hid | constructor].
  - exact H.
Qed.

(** X8.  With [-gpu all] [get_gpus] enumerates the devices once and
    appends every index from 0 up to the count, each once and in ascending
    order, none for a count of zero or less; a CPU-only build aborts
    instead. *)
Theorem get_gpus_all (gpus : list Z) :
  (CPU_ONLY build = false ->
   exists ids,
     get_gpus build env "all" gpus = ([Call (EnumerateDevices true)], Ret (gpus ++ ids)) /\
     Z.of_nat (List.length ids) = Z.max 0 (device_count env) /\
     (forall id, In id ids <-> 0 <= id < device_count env) /\
     NoDup ids /\
     (forall i j a b, ids !! i = Some a -> ids !! j = Some b -> (i < j)%nat -> a < b)) /\
  (CPU_ONLY build = true ->
   exists msg, get_gpus build env "all" gpus = ([Log FATAL msg], Halt Fatal)).
Proof.
  split; intros Hb; unfold get_gpus; cbn [String.eqb Ascii.eqb Bool.eqb andb]; rewrite Hb.
  - exists (map Z.of_nat (upto (Z.to_nat (device_count env)))).
    split; [reflexivity |]. unfold upto.
    split; [rewrite length_map, length_seq; lia |].
    split; [| split].
    + intros id. rewrite in_map_iff. split.
      * intros (k & <- & Hk). apply in_seq in Hk. lia.
      * intros Hid. exists (Z.to_nat id). split; [lia |]. apply in_seq. lia.
    + apply (NoDup_fmap_2 Z.of_nat). apply NoDup_seq.
    + intros i j a b Ha Hb' Hij.
      rewrite list_lookup_fmap in Ha, Hb'.
      destruct (seq 0 (Z.to_nat (device_count env)) !! i) as [x|] eqn:Ex; [| discriminate].
      destruct (seq 0 (Z.to_nat (device_count env)) !! j) as [y|] eqn:Ey; [| discriminate].
      apply lookup_seq in Ex as [-> _]. apply lookup_seq in Ey as [-> _].
      cbn in Ha, Hb'. injection Ha as <-. injection Hb' as <-. lia.
  - eexists. reflexivity.
Qed.
End DevicesResolved.

Lemma get_gpus_all_witness :
  exists ids,
    get_gpus opencl_build small_env "all" [] = ([Call (EnumerateDevices true)], Ret ids) /\
    Z.of_nat (List.length ids) = 2.
Proof.
  destruct (proj1 (get_gpus_all opencl_build small_env []) eq_refl) as (ids & E & Hlen & _).
  exists ids. split; [exact E | exact Hlen].
Defined.

Lemma nonempty_length (s : string) :
  s <> EmptyString -> (0 <? Z.of_nat (String.length s)) = true.
Proof. destruct s; [congruence |]. intros _. cbn [String.length]. apply Z.ltb_lt. lia. Qed.

Lemma trace_emit_bind {B} (c : ExtCall) (k : unit -> M B) :
  trace (bind (emit c) k) = Call c :: trace (k tt).
Proof. unfold emit. rewrite bind_Ret. reflexivity. Qed.

Lemma trace_ret_bind {A B} (a : A) (k : A -> M B) :
  trace (bind (ret a) k) = trace (k a).
Proof. rewrite bind_ret_l. reflexivity. Qed.

Lemma trace_LOG_INFO_bind {B} (msg : list Item) (k : unit -> M B) :
  trace (bind (LOG INFO msg) k) = Log INFO msg :: trace (k tt).
Proof. cbn [LOG]. rewrite bind_Ret. reflexivity. Qed.

Section TrainDevices.
Variable build : Build.
Variable env : Env.

(** X9.  Without a [-gpu] flag, a solver file in GPU mode decides the
    device: [train] selects the device the file names, device 0 where it
    names none, as its one device, right after reading the file. *)
Theorem train_selects_solver_file_device (F : Flags) (p : SolverParameter) :
  FLAGS_solver F <> EmptyString ->
  FLAGS_snapshot F = EmptyString \/ FLAGS_weights F = EmptyString ->
  FLAGS_gpu F = EmptyString ->
  solver_file env (FLAGS_solver F) = Some p ->
  solver_mode p = Some SolverMode_GPU ->
  Int.in_range (default 0 (device_id p)) = true ->
  CPU_ONLY build = false ->
  exists rest,
    trace (train build env F) =
    [Call (ReadSolverParamsFromTextFileOrDie (FLAGS_solver F));
     Call (SetDevices [default 0 (device_id p)]);
     Log INFO [Str "Using GPUs "; Str (lexical_cast_string (default 0 (device_id p)))];
     Call (SetDevice (default 0 (device_id p)));
     Call (set_mode GPU);
     Call (set_solver_count 1)] ++ rest.
Proof.
  intros Hsolver Hexcl Hgpu Hfile Hmode Hid Hcpu.
  unfold train. rewrite (nonempty_length _ Hsolver), Hgpu, Hfile.
  replace (negb (nonempty (FLAGS_snapshot F)) || negb (nonempty (FLAGS_weights F)))
    with true by (destruct Hexcl as [-> | ->]; cbn; rewrite ?orb_true_r; reflexivity).
  cbn [CHECK nonempty String.eqb negb]. munfold.
  rewrite !trace_ret_bind, trace_emit_bind, trace_ret_bind. cbv zeta.
  cbn [solver_mode device_id]. rewrite Hmode.
  assert (Hg : get_gpus build env
                 match device_id p with
                 | Some id => lexical_cast_string id
                 | None => lexical_cast_string 0
                 end [] = ([], Ret [default 0 (device_id p)])).
  { destruct (device_id p) as [id|]; apply get_gpus_of_device_id; exact Hid. }
  rewrite (trace_bind _ _ [default 0 (device_id p)]) by (rewrite Hg; reflexivity).
  rewrite Hg. cbn [trace fst app]. rewrite Hcpu.
  fold (@trace Z). eexists.
  rewrite bind_assoc, trace_emit_bind.
  rewrite bind_assoc, trace_LOG_INFO_bind.
  rewrite bind_assoc, trace_emit_bind.
  rewrite bind_assoc, trace_emit_bind.
  rewrite bind_assoc, trace_emit_bind.
  cbn [List.length Z.of_nat Pos.of_succ_nat gpus_to_string map String.concat app].
  reflexivity.
Qed.

(** X10.  The length of the device list picks the run: with more than
    one device [train] never calls [Solve], with one device or none it never
    starts a multi-device run. *)
Theorem train_device_count_picks_the_run
    (F : Flags) (tokens : list string) (ids : list Z) :
  tokens <> [] ->
  Forall2 (fun t id => lexical_cast_int t = Some id) tokens ids ->
  FLAGS_gpu F = join_tokens tokens ->
  ((1 < List.length ids)%nat ->
   only_calls (fun c => c <> Solve) (train build env F)) /\
  ((List.length ids <= 1)%nat ->
   only_calls (fun c => is_NCCL_Run c = false) (train build env F)).
Proof.
  intros Hne Hall Hgpu.
  destruct (get_gpus_of_tokens build env tokens ids [] Hne Hall) as [Hnonempty Hget].
  split; intros Hlen; unfold train; rewrite Hgpu, Hnonempty; cbn [negb];
    calls_cmd; try discriminate; try reflexivity;
    try (apply only_calls_get_gpus; first [discriminate | reflexivity]);
    exfalso;
    match goal with
    | Hr : result (get_gpus _ _ _ _) = Ret _ |- _ =>
        rewrite Hget in Hr; cbn in Hr; injection Hr as Hr; subst ids
    end;
    match goal with
    | E : (1 <? _)%nat = _ |- _ =>
        first [apply Nat.ltb_ge in E | apply Nat.ltb_lt in E]; cbn [List.length] in *; lia
    end.
Qed.
End TrainDevices.

Lemma train_selects_solver_file_device_witness :
  exists rest,
    trace (train opencl_build gpu_solver_env flags_train_plain) =
    [Call (ReadSolverParamsFromTextFileOrDie "solver.prototxt");
     Call (SetDevices [1]);
     Log INFO [Str "Using GPUs "; Str "1"];
     Call (SetDevice 1);
     Call (set_mode GPU);
     Call (set_solver_count 1)] ++ rest.
Proof.
  refine (train_selects_solver_file_device opencl_build gpu_solver_env flags_train_plain
            gpu_solver _ _ _ _ _ _ _); try reflexivity.
  - discriminate.
  - left. reflexivity.
Defined.

Lemma train_device_count_picks_the_run_witness :
  only_calls (fun c => c <> Solve) (train opencl_build small_env flags_train_two_gpus).
Proof.
  refine (proj1 (train_device_count_picks_the_run opencl_build small_env
                   flags_train_two_gpus ["0"; "1"] [0; 1] _ _ _) _).
  - discriminate.
  - repeat constructor.
  - reflexivity.
  - cbn. lia.
Defined.

(** ** Loops of calls *)

(** A loop whose rounds each return: the trace is the rounds' traces in
    order. *)
Lemma forM__trace {A} (f : A -> M unit) (g : A -> list Event) (l : list A) :
  (forall x, In x l -> f x = (g x, Ret tt)) ->
  forM_ f l = (flat_map g l, Ret tt).
Proof.
  unfold forM_. induction l as [|x l IH]; intros Hf; [reflexivity |].
  cbn [foldM flat_map]. munfold.
  rewrite (Hf x (or_introl eq_refl)), bind_Ret, IH.
  - reflexivity.
  - intros y Hy. apply Hf. right. exact Hy.
Qed.

Lemma flat_map_singleton {A B} (g : A -> B) (l : list A) :
  flat_map (fun x => [g x]) l = map g l.
Proof. induction l as [|x l IH]; [reflexivity |]. cbn. rewrite IH. reflexivity. Qed.

Section LoopsOfCalls.
Variable build : Build.
Variable env : Env.

(** X11.  The forward pass of the benchmark calls the layers in ascending
    order and the backward pass in descending order, each layer once; with
    per-layer timing every call sits between the start and the stop of the
    timer of its layer, and without it no layer timer is touched. *)
Theorem layer_passes_in_order (lt : bool) :
  forward_pass env lt =
    (flat_map (timed_layer_call lt LayerForward) (upto (nlayers env)), Ret tt) /\
  backward_pass env lt =
    (flat_map (timed_layer_call lt LayerBackward) (rev (upto (nlayers env))), Ret tt).
Proof.
  split; apply forM__trace; intros i _; destruct lt; reflexivity.
Qed.

Lemma copies_of_counted (name : string) :
  List.length (List.filter is_copy (copies_of env name)) = S (test_nets_size env).
Proof.
  unfold copies_of. cbn [List.filter is_copy List.length]. f_equal.
  unfold upto. generalize 0%nat.
  induction (test_nets_size env) as [|n IH]; intros a; [reflexivity |].
  cbn [seq map List.filter is_copy List.length]. rewrite IH. reflexivity.
Qed.

Lemma copies_counted (names : list string) :
  List.length (List.filter is_copy (flat_map (copies_of env) names))
  = (List.length names * S (test_nets_size env))%nat.
Proof.
  induction names as [|name names IH]; [reflexivity |].
  cbn [flat_map]. rewrite List.filter_app, length_app, IH, copies_of_counted.
  reflexivity.
Qed.

(** X12.  [CopyLayers] takes the files of the list in order; each is
    announced and loaded into the train net and then into every test net in
    turn.  The loads are (commas + 1) * (test nets + 1) in number: an empty
    list still loads the file with the empty name. *)
Theorem CopyLayers_copies_each_file_to_every_net (model_list : string) :
  CopyLayers env model_list =
    (flat_map (copies_of env) (split is_comma model_list), Ret tt) /\
  List.length (List.filter is_copy (trace (CopyLayers env model_list)))
  = (S (commas model_list) * S (test_nets_size env))%nat.
Proof.
  assert (E : CopyLayers env model_list =
              (flat_map (copies_of env) (split is_comma model_list), Ret tt)).
  { unfold CopyLayers. apply forM__trace. intros name _. munfold.
    rewrite (forM__trace _ (fun j => [Call (CopyTrainedLayersFrom (solver_test_net j) name)]))
      by (intros; reflexivity).
    unfold emit. cbn [LOG]. rewrite !bind_Ret. cbn [fst snd app].
    rewrite flat_map_singleton. reflexivity. }
  split; [exact E |]. rewrite E. unfold trace. cbn [fst].
  rewrite <- split_length. apply copies_counted.
Qed.

(** X13.  [device_query] without [-gpu], or with [-gpu all], only
    enumerates the devices.  With a device list, a CPU-only build does
    nothing at all and returns 0; any other build announces the list,
    selects the devices, then selects and queries each in the order
    given, and releases the first as every command does. *)
Theorem device_query_paths (F : Flags) :
  (FLAGS_gpu F = EmptyString \/ FLAGS_gpu F = "all" ->
   device_query build env F = ([Call (EnumerateDevices false)], Ret 0)) /\
  (FLAGS_gpu F <> EmptyString -> FLAGS_gpu F <> "all" -> CPU_ONLY build = true ->
   device_query build env F = ([], Ret 0)) /\
  (forall (tokens : list string) (ids : list Z),
     tokens <> [] ->
     Forall2 (fun t id => lexical_cast_int t = Some id) tokens ids ->
     FLAGS_gpu F = join_tokens tokens ->
     CPU_ONLY build = false ->
     device_query build env F =
       (Log INFO [Str "Querying GPUs "; Str (FLAGS_gpu F)] ::
        Call (SetDevices ids) ::
        flat_map (fun id => [Call (SetDevice id); Call DeviceQuery]) ids ++
        trace (teardown_device build env ids),
        Ret 0)).
Proof.
  split; [| split].
  - intros [H | H]; unfold device_query; rewrite H; reflexivity.
  - intros Hne Hall Hcpu. unfold device_query.
    rewrite (nonempty_true _ Hne). cbn [negb orb].
    destruct (String.eqb_spec (FLAGS_gpu F) "all") as [| _]; [contradiction |].
    rewrite Hcpu. reflexivity.
  - intros tokens ids Hne Hconv Hgpu Hcpu.
    destruct (get_gpus_of_tokens build env tokens ids [] Hne Hconv) as [Hnonempty Hget].
    unfold device_query. rewrite Hgpu, Hnonempty. cbn [negb orb].
    destruct (String.eqb_spec (join_tokens tokens) "all") as [Eall | _].
    { exfalso. pose proof Hget as Hget'. unfold get_gpus in Hget'.
      rewrite Eall in Hget'. cbn [String.eqb Ascii.eqb Bool.eqb andb] in Hget'.
      rewrite Hcpu in Hget'. discriminate Hget'. }
    rewrite Hcpu. munfold.
    assert (Ht : exists t, teardown_device build env ids = (t, Ret tt)).
    { unfold teardown_device.
      destruct (USE_GREENTEA build), (backend_is_OpenCL env), ids as [|g0 ?];
        try destruct (0 <=? g0); eexists; reflexivity. }
    destruct Ht as [t Ht].
    rewrite Hget. rewrite (bind_Ret [] ids). cbn [app].
    rewrite (forM__trace _ (fun id => [Call (SetDevice id); Call DeviceQuery]))
      by (intros; reflexivity).
    rewrite Ht. unfold emit. cbn [LOG trace fst].
    rewrite (bind_Ret _ tt (fun _ => (t, Ret tt))). cbn [fst snd].
    rewrite (bind_Ret [Call (SetDevices ids)]). cbn [fst snd].
    rewrite (bind_Ret [Log INFO _]). cbn [fst snd].
    rewrite bind_Ret. cbn [fst snd ret app]. rewrite app_nil_r. reflexivity.
Qed.
End LoopsOfCalls.

Lemma device_query_paths_witness :
  device_query opencl_build small_env default_flags =
    ([Call (EnumerateDevices false)], Ret 0).
Proof.
  apply (proj1 (device_query_paths opencl_build small_env default_flags)).
  left. reflexivity.
Defined.

(** ** The sums of the benchmark *)

Lemma foldM_seq_invariant {S} (P : nat -> S -> Prop) (f : S -> nat -> M S) (n : nat) :
  forall (a : nat) (s : S),
    (forall k s, (a <= k < a + n)%nat -> P k s ->
       exists t s', f s k = (t, Ret s') /\ P (Datatypes.S k) s') ->
    P a s ->
    exists t s', foldM f (seq a n) s = (t, Ret s') /\ P (a + n)%nat s'.
Proof.
  induction n as [|n IH]; intros a s Hstep Hs; cbn [seq foldM].
  - exists [], s. rewrite Nat.add_0_r. split; [reflexivity | exact Hs].
  - destruct (Hstep a s ltac:(lia) Hs) as (t & s' & E & Hs').
    destruct (IH (Datatypes.S a) s') as (t' & s'' & E' & Hs'').
    { intros k s0 Hk. apply Hstep. lia. }
    { exact Hs'. }
    munfold. rewrite E, bind_Ret, E'. cbn [fst snd].
    rewrite Nat.add_succ_r. eauto.
Qed.

Lemma sum_readings_snoc (l : list float) (x : float) :
  sum_readings (l ++ [x]) = F64.add (sum_readings l) (F64.of_float x).
Proof. unfold sum_readings. rewrite fold_left_app. reflexivity. Qed.

Lemma upto_S (k : nat) : upto (S k) = upto k ++ [k].
Proof. unfold upto. rewrite seq_S. reflexivity. Qed.

(** [v[i] += g i] for every [i] below [n]. *)
Lemma add_at_each_lookup (g : nat -> double) (n : nat) (v : list double) (i : nat) :
  fold_left (fun v k => add_at v k (g k)) (upto n) v !! i =
  if decide (i < n)%nat then (fun x => F64.add x (g i)) <$> v !! i else v !! i.
Proof.
  unfold upto. induction n as [|n IH].
  - cbn. destruct (decide (i < 0)%nat); [lia | reflexivity].
  - rewrite seq_S, fold_left_app. cbn [fold_left Nat.add]. unfold add_at at 1.
    destruct (decide (i = n)) as [-> | Hne].
    + rewrite list_lookup_alter_eq, IH.
      destruct (decide (n < n)%nat); [lia |].
      destruct (decide (n < S n)%nat); [reflexivity | lia].
    + rewrite list_lookup_alter_ne by congruence. rewrite IH.
      destruct (decide (i < n)%nat), (decide (i < S n)%nat); try lia; reflexivity.
Qed.

Lemma add_at_each_length (g : nat -> double) (l : list nat) (v : list double) :
  List.length (fold_left (fun v k => add_at v k (g k)) l v) = List.length v.
Proof.
  revert v. induction l as [|k l IH]; intros v; [reflexivity |].
  cbn [fold_left]. rewrite IH. unfold add_at. apply length_alter.
Qed.

Section BenchmarkSums.
Variable env : Env.

Lemma add_forward_layers_fields (j : nat) (acc : TimeAccumulator) :
  forward_time_per_layer (add_forward_layers env j acc) =
    fold_left (fun v i => add_at v i (F64.of_float (layer_forward_us env j i)))
              (upto (nlayers env)) (forward_time_per_layer acc) /\
  backward_time_per_layer (add_forward_layers env j acc) = backward_time_per_layer acc /\
  forward_time (add_forward_layers env j acc) = forward_time acc.
Proof.
  unfold add_forward_layers. generalize (upto (nlayers env)). intros l.
  revert acc. induction l as [|i l IH]; intros acc; [repeat split |].
  cbn [fold_left]. destruct (IH
    {| forward_time_per_layer :=
         add_at (forward_time_per_layer acc) i (F64.of_float (layer_forward_us env j i));
       backward_time_per_layer := backward_time_per_layer acc;
       forward_time := forward_time acc;
       backward_time := backward_time acc |}) as (H1 & H2 & H3).
  rewrite H1, H2, H3. repeat split.
Qed.

Lemma add_backward_layers_fields (j : nat) (acc : TimeAccumulator) :
  backward_time_per_layer (add_backward_layers env j acc) =
    fold_left (fun v i => add_at v i (F64.of_float (layer_backward_us env j i)))
              (upto (nlayers env)) (backward_time_per_layer acc) /\
  forward_time_per_layer (add_backward_layers env j acc) = forward_time_per_layer acc /\
  forward_time (add_backward_layers env j acc) = forward_time acc.
Proof.
  unfold add_backward_layers. generalize (upto (nlayers env)). intros l.
  revert acc. induction l as [|i l IH]; intros acc; [repeat split |].
  cbn [fold_left]. cbv zeta.
  match goal with
  | |- context [fold_left _ l ?a] => destruct (IH a) as (H1 & H2 & H3)
  end.
  rewrite H1, H2, H3. repeat split.
Qed.

(** What an iteration of the benchmark comes to. *)
Lemma time_iteration_result (lt : bool) (phase : Phase) (acc : TimeAccumulator) (j : nat) :
  exists t,
    time_iteration env lt phase acc j =
    (t, Ret
          (let acc1 := {| forward_time_per_layer := forward_time_per_layer acc;
                          backward_time_per_layer := backward_time_per_layer acc;
                          forward_time :=
                            F64.add (forward_time acc) (F64.of_float (forward_us env j));
                          backward_time := backward_time acc |} in
           let acc2 := if lt then add_forward_layers env j acc1 else acc1 in
           match phase with
           | TRAIN => if lt then add_backward_layers env j acc2 else acc2
           | TEST => acc2
           end)).
Proof.
  unfold time_iteration.
  destruct (forward_pass_total env lt) as [tf Ef].
  destruct (backward_pass_total env lt) as [tb Eb].
  munfold. cbn [emit bind]. rewrite Ef. cbn [bind emit].
  destruct phase; cbn [bind emit ret].
  - rewrite Eb. cbn [bind emit ret LOG fst snd app]. eexists. reflexivity.
  - cbn [bind emit ret LOG fst snd app]. eexists. reflexivity.
Qed.

Lemma time_iteration_keeps (lt : bool) (phase : Phase) (acc : TimeAccumulator) (k : nat) :
  timed_so_far env lt phase k acc ->
  exists t acc', time_iteration env lt phase acc k = (t, Ret acc') /\
                 timed_so_far env lt phase (S k) acc'.
Proof.
  intros (Hf & Hlf & Hlb & Htf & Htb).
  destruct (time_iteration_result lt phase acc k) as [t E].
  eexists _, _. split; [exact E |]. clear E. cbv zeta.
  set (acc1 := {| forward_time_per_layer := forward_time_per_layer acc;
                  backward_time_per_layer := backward_time_per_layer acc;
                  forward_time := F64.add (forward_time acc) (F64.of_float (forward_us env k));
                  backward_time := backward_time acc |}).
  assert (H1 : timed_so_far env false TEST 0 acc1 -> True) by trivial. clear H1.
  assert (Hsum : forall g : nat -> float,
             sum_readings (map g (upto (S k))) =
             F64.add (sum_readings (map g (upto k))) (F64.of_float (g k))).
  { intros g. rewrite upto_S, map_app. apply sum_readings_snoc. }
  destruct lt.
  - destruct (add_forward_layers_fields k acc1) as (F1 & F2 & F3).
    assert (Hfwd : forall i, (i < nlayers env)%nat ->
               forward_time_per_layer (add_forward_layers env k acc1) !! i =
               Some (sum_readings (map (fun j => layer_forward_us env j i) (upto (S k))))).
    { intros i Hi. rewrite F1.
      rewrite (add_at_each_lookup (fun i => F64.of_float (layer_forward_us env k i))).
      destruct (decide (i < nlayers env)%nat); [| lia].
      cbn [acc1 forward_time_per_layer]. rewrite (Htf i Hi). cbn [fmap option_fmap option_map].
      rewrite (Hsum (fun j => layer_forward_us env j i)). reflexivity. }
    assert (Hlen : List.length (forward_time_per_layer (add_forward_layers env k acc1)) =
                   nlayers env).
    { rewrite F1, add_at_each_length. exact Hlf. }
    destruct phase.
    + destruct (add_backward_layers_fields k (add_forward_layers env k acc1))
        as (B1 & B2 & B3).
      unfold timed_so_far. rewrite B1, B2, B3, F2, F3.
      split; [cbn [acc1 forward_time]; rewrite Hf; symmetry; apply Hsum |].
      split; [exact Hlen |].
      split; [rewrite add_at_each_length; exact Hlb |].
      split; [exact Hfwd |].
      intros i Hi.
      rewrite (add_at_each_lookup (fun i => F64.of_float (layer_backward_us env k i))).
      destruct (decide (i < nlayers env)%nat); [| lia].
      cbn [acc1 backward_time_per_layer]. rewrite (Htb i Hi).
      cbn [fmap option_fmap option_map].
      rewrite (Hsum (fun j => layer_backward_us env j i)). reflexivity.
    + unfold timed_so_far. rewrite F2, F3.
      split; [cbn [acc1 forward_time]; rewrite Hf; symmetry; apply Hsum |].
      split; [exact Hlen |].
      split; [exact Hlb |].
      split; [exact Hfwd | exact Htb].
  - assert (H : timed_so_far env false phase (S k) acc1).
    { unfold timed_so_far. cbn [acc1 forward_time forward_time_per_layer
                                backward_time_per_layer].
      split; [rewrite Hf; symmetry; apply Hsum |].
      repeat split; assumption. }
    destruct phase; exact H.
Qed.

Lemma time_start_timed (lt : bool) (phase : Phase) :
  timed_so_far env lt phase 0 (time_start env).
Proof.
  unfold timed_so_far, time_start. cbn [forward_time forward_time_per_layer
                                        backward_time_per_layer upto seq map].
  rewrite !length_replicate.
  split; [reflexivity |]. split; [reflexivity |]. split; [reflexivity |].
  split; intros i Hi; rewrite lookup_replicate_2 by exact Hi;
    destruct lt; try destruct phase; reflexivity.
Qed.
End BenchmarkSums.

Lemma time_loop_timed (env : Env) (lt : bool) (phase : Phase) (iterations : Z) :
  exists t acc,
    time_loop env lt phase iterations = (t, Ret acc) /\
    timed_so_far env lt phase (Z.to_nat iterations) acc.
Proof.
  unfold time_loop, upto.
  apply (foldM_seq_invariant (timed_so_far env lt phase)).
  - intros k s _ H. apply time_iteration_keeps. exact H.
  - apply time_start_timed.
Qed.

(** X14.  The benchmark loop always runs to its end.  The aggregate
    forward time is then the sum, in [double] arithmetic and in the order
    of the iterations, of the readings of the forward timer, with or
    without per-layer timing and in either phase.  Both per-layer tables
    keep one entry per layer; with per-layer timing the forward entry of a
    layer is the sum of the readings of its timer after the forward passes,
    and in the TRAIN phase the backward entry that of the readings after the
    backward passes; every other entry is still zero. *)
Theorem time_loop_sums_the_timer_readings
    (env : Env) (lt : bool) (phase : Phase) (iterations : Z) :
  exists t acc,
    time_loop env lt phase iterations = (t, Ret acc) /\
    forward_time acc =
      sum_readings (map (forward_us env) (upto (Z.to_nat iterations))) /\
    List.length (forward_time_per_layer acc) = nlayers env /\
    List.length (backward_time_per_layer acc) = nlayers env /\
    (forall i, (i < nlayers env)%nat ->
       forward_time_per_layer acc !! i =
       Some (if lt
             then sum_readings (map (fun j => layer_forward_us env j i)
                                    (upto (Z.to_nat iterations)))
             else F64.zero)) /\
    (forall i, (i < nlayers env)%nat ->
       backward_time_per_layer acc !! i =
       Some (match lt, phase with
             | true, TRAIN => sum_readings (map (fun j => layer_backward_us env j i)
                                                (upto (Z.to_nat iterations)))
             | _, _ => F64.zero
             end)).
Proof. exact (time_loop_timed env lt phase iterations). Qed.

(** ** The tables of the detection evaluation *)

Lemma inhabited_insert {V} (m : gmap nat (gmap Z V)) (j : nat) (inner : gmap Z V) :
  inhabited m -> inner <> ∅ -> inhabited (<[j := inner]> m).
Proof.
  intros Hm Hi j' inner'. rewrite lookup_insert.
  destruct (decide (j = j')); [intros [= <-]; exact Hi | apply Hm].
Qed.

Lemma inhabited_step (acc : DetectionAccumulator) (x : nat * Row) :
  inhabited (all_true_pos acc) /\ inhabited (all_false_pos acc) /\
  inhabited (all_num_pos acc) ->
  inhabited (all_true_pos (detection_step acc x)) /\
  inhabited (all_false_pos (detection_step acc x)) /\
  inhabited (all_num_pos (detection_step acc x)).
Proof.
  intros (Ht & Hf & Hn). unfold detection_step.
  destruct (is_sentinel (snd x)).
  - cbn [all_true_pos all_false_pos all_num_pos].
    split; [exact Ht | split; [exact Hf |]].
    apply inhabited_insert; [exact Hn |].
    destruct (at_output (all_num_pos acc) (fst x) !! row_label (snd x));
      apply insert_non_empty.
  - destruct ((row_tp (snd x) =? 0) && (row_fp (snd x) =? 0)); [auto |].
    cbn [all_true_pos all_false_pos all_num_pos].
    split; [| split; [| exact Hn]];
      (apply inhabited_insert; [assumption | apply insert_non_empty]).
Qed.

Lemma inhabited_fold (rows : list (nat * Row)) :
  let acc := fold_left detection_step rows empty_accumulator in
  inhabited (all_true_pos acc) /\ inhabited (all_false_pos acc) /\
  inhabited (all_num_pos acc).
Proof.
  cbv zeta. induction rows as [|x rows IH] using rev_ind.
  - cbn. repeat split; intros j inner H; rewrite lookup_empty in H; discriminate H.
  - rewrite fold_left_app. cbn [fold_left]. apply inhabited_step. exact IH.
Qed.

Lemma detection_accumulate_inhabited (env : Env) (iterations : Z) :
  let acc := detection_accumulate env iterations in
  inhabited (all_true_pos acc) /\ inhabited (all_false_pos acc) /\
  inhabited (all_num_pos acc).
Proof. rewrite detection_accumulate_steps. apply inhabited_fold. Qed.

(** Where a label is in the true-positive table of an output it is in the
    false-positive table of that output, and the other way round. *)
Lemma find2_true_false (env : Env) (iterations : Z) (j : nat) (label : Z) :
  let acc := detection_accumulate env iterations in
  is_Some (find2 (all_true_pos acc) j label) <->
  is_Some (find2 (all_false_pos acc) j label).
Proof.
  cbv zeta.
  destruct (detection_accumulate_holds env iterations j label) as (_ & Ht & Hf).
  rewrite Ht, Hf. unfold true_pos_pairs, false_pos_pairs.
  destruct (records (rows_seen env iterations) j label); cbn;
    split; intros [x Hx]; try discriminate Hx; eexists; reflexivity.
Qed.

Lemma inhabited_find2 {V} (m : gmap nat (gmap Z V)) (j : nat) :
  inhabited m ->
  (is_Some (m !! j) <-> exists label, is_Some (find2 m j label)).
Proof.
  intros Hm. unfold find2. split.
  - intros [inner E]. rewrite E.
    destruct (map_choose inner (Hm j inner E)) as (label & v & Hv).
    exists label. rewrite Hv. eexists; reflexivity.
  - intros [label [v Hv]]. destruct (m !! j); [eexists; reflexivity | discriminate Hv].
Qed.

Lemma outputs_true_false (env : Env) (iterations : Z) (j : nat) :
  let acc := detection_accumulate env iterations in
  is_Some (all_true_pos acc !! j) <-> is_Some (all_false_pos acc !! j).
Proof.
  cbv zeta.
  destruct (detection_accumulate_inhabited env iterations) as (Ht & Hf & _).
  rewrite (inhabited_find2 _ j Ht), (inhabited_find2 _ j Hf).
  split; intros [label H]; exists label; apply (find2_true_false env iterations j label);
    exact H.
Qed.

(** X15.  After any run no output has an empty table: where an output
    has a true-positive, false-positive or positives table at all, that
    table holds at least one label, so the mean of [mean_AP] never divides
    by zero labels.  An output has a true-positive table exactly when it has
    a false-positive table. *)
Theorem detection_tables_are_never_empty (env : Env) (iterations : Z) (j : nat) :
  let acc := detection_accumulate env iterations in
  (forall tp, all_true_pos acc !! j = Some tp -> tp <> ∅) /\
  (forall fp, all_false_pos acc !! j = Some fp -> fp <> ∅) /\
  (forall np, all_num_pos acc !! j = Some np -> (0 < size np)%nat) /\
  (is_Some (all_true_pos acc !! j) <-> is_Some (all_false_pos acc !! j)).
Proof.
  cbv zeta.
  destruct (detection_accumulate_inhabited env iterations) as (Ht & Hf & Hn).
  split; [apply Ht | split; [apply Hf | split]].
  - intros np E. pose proof (Hn j np E) as Hne.
    destruct (size np) eqn:Es; [| lia].
    apply map_size_empty_iff in Es. contradiction.
  - apply outputs_true_false.
Qed.

(** What [mean_AP] logs and returns. *)
Lemma mean_AP_result (env : Env) (true_pos false_pos : gmap Z (list (float * Z)))
    (num_pos : gmap Z Z) (ap : string) :
  mean_AP env true_pos false_pos num_pos ap =
    (flat_map (missing_warning true_pos false_pos) (in_label_order num_pos),
     Ret (F32.div
            (AP_sum env true_pos false_pos ap
               (scored_labels true_pos false_pos num_pos) F32.zero)
            (F32.of_Z (Z.of_nat (size num_pos))))).
Proof.
  unfold mean_AP. munfold. rewrite mAP_loop, bind_Ret. cbn [ret fst snd].
  rewrite app_nil_r. reflexivity.
Qed.

Section DetectionReport.
Variable env : Env.

(** The round of [detection_report] for output [i]. *)
Lemma detection_report_round (acc : DetectionAccumulator) (ap : string) (i : nat) (m : M unit) :
  m = (true_pos ← match all_true_pos acc !! i with
                  | Some m => ret m
                  | None => LOG FATAL [Str "Missing output_blob true_pos: ";
                                       Int (Z.of_nat i)];; halt Fatal
                  end;
       false_pos ← match all_false_pos acc !! i with
                   | Some m => ret m
                   | None => LOG FATAL [Str "Missing output_blob false_pos: ";
                                        Int (Z.of_nat i)];; halt Fatal
                   end;
       num_pos ← match all_num_pos acc !! i with
                 | Some m => ret m
                 | None => LOG FATAL [Str "Missing output_blob num_pos: ";
                                      Int (Z.of_nat i)];; halt Fatal
                 end;
       mAP ← mean_AP env true_pos false_pos num_pos ap;
       LOG INFO [Str "    Test net output #"; Int (Z.of_nat i); Str ": ";
                 Str (output_name env i); Str " = "; Flt mAP]) ->
  match all_true_pos acc !! i, all_false_pos acc !! i, all_num_pos acc !! i with
  | Some tp, Some fp, Some np =>
      m = (flat_map (missing_warning tp fp) (in_label_order np) ++
           [Log INFO [Str "    Test net output #"; Int (Z.of_nat i); Str ": ";
                      Str (output_name env i); Str " = ";
                      Flt (F32.div (AP_sum env tp fp ap (scored_labels tp fp np) F32.zero)
                                   (F32.of_Z (Z.of_nat (size np))))]],
           Ret tt)
  | Some _, Some _, None =>
      m = ([Log FATAL [Str "Missing output_blob num_pos: "; Int (Z.of_nat i)]], Halt Fatal)
  | Some _, None, _ =>
      m = ([Log FATAL [Str "Missing output_blob false_pos: "; Int (Z.of_nat i)]], Halt Fatal)
  | None, _, _ =>
      m = ([Log FATAL [Str "Missing output_blob true_pos: "; Int (Z.of_nat i)]], Halt Fatal)
  end.
Proof.
  intros ->. munfold.
  destruct (all_true_pos acc !! i) as [tp|]; [| reflexivity].
  destruct (all_false_pos acc !! i) as [fp|]; [| reflexivity].
  destruct (all_num_pos acc !! i) as [np|]; [| reflexivity].
  rewrite !bind_ret_l, mean_AP_result, bind_Ret. reflexivity.
Qed.
End DetectionReport.





(** X17.  [test_detection] never logs a missing false-positive table,
    neither the fatal "Missing output_blob false_pos" nor the warning
    "Missing false_pos for label": the accumulation fills the two tables
    together, so both lines are dead on every run. *)
Theorem test_detection_never_misses_false_pos (env : Env) (F : Flags) :
  only_events (fun e => is_missing_false_pos e = false) (test_detection env F).
Proof.
  unfold test_detection. munfold.
  apply only_events_bind; [| intros _; apply only_events_bind;
                                [| intros _; apply only_events_ret]].
  - apply only_events_forM_. intros x _. apply only_events_emit. reflexivity.
  - unfold detection_report. apply only_events_forM_. intros i _.
    match goal with
    | |- only_events _ ?m =>
        pose proof (detection_report_round env
                      (detection_accumulate env (FLAGS_iterations F)) (FLAGS_ap F) i m eq_refl)
          as H
    end.
    pose proof (outputs_true_false env (FLAGS_iterations F) i) as Hout.
    pose proof (fun label => find2_true_false env (FLAGS_iterations F) i label) as Hlab.
    cbv zeta in Hout, Hlab. unfold find2 in Hlab.
    destruct (all_true_pos (detection_accumulate env (FLAGS_iterations F)) !! i)
      as [tp|] eqn:Et.
    + destruct (all_false_pos (detection_accumulate env (FLAGS_iterations F)) !! i)
        as [fp|] eqn:Ef.
      2:{ destruct (proj1 Hout) as [? Hx]; [eexists; reflexivity | discriminate Hx]. }
      destruct (all_num_pos (detection_accumulate env (FLAGS_iterations F)) !! i)
        as [np|] eqn:En; rewrite H.
      * intros e He. unfold trace in He. cbn [fst] in He.
        apply in_app_iff in He as [He | [<- | []]]; [| reflexivity].
        apply in_flat_map in He as (it & _ & He).
        unfold missing_warning in He.
        destruct (tp !! fst it) eqn:Etl.
        -- destruct (proj1 (Hlab (fst it))) as [v Hv]; [eexists; exact Etl |].
           rewrite Hv in He. destruct He.
        -- destruct He as [<- | []]. reflexivity.
      * intros e [<- | []]. reflexivity.
    + rewrite H. intros e [<- | []]. reflexivity.
Qed.

Lemma records_none (rows : list (nat * Row)) (j : nat) (label : Z) :
  (forall x, In x rows -> is_record (snd x) = false) -> records rows j label = [].
Proof.
  unfold records. induction rows as [|x rows IH]; intros Hno; [reflexivity |].
  cbn [List.filter]. rewrite (Hno x (or_introl eq_refl)), andb_false_r.
  apply IH. intros y Hy. apply Hno. right. exact Hy.
Qed.

(** X18.  A run that meets no detection record (no output rows, or only
    sentinel rows and rows with both flags zero) reports nothing: after the
    forward passes [test_detection] returns 0 without a line about any
    output. *)
Theorem test_detection_without_records_reports_nothing (env : Env) (F : Flags) :
  (forall x, In x (rows_seen env (FLAGS_iterations F)) -> is_record (snd x) = false) ->
  test_detection env F =
    (map (fun _ => Call NetForward) (upto (Z.to_nat (FLAGS_iterations F))), Ret 0).
Proof.
  intros Hno.
  assert (Hempty : all_true_pos (detection_accumulate env (FLAGS_iterations F)) = ∅).
  { apply map_eq. intros j. rewrite lookup_empty.
    destruct (detection_accumulate_inhabited env (FLAGS_iterations F)) as (Ht & _ & _).
    destruct (all_true_pos (detection_accumulate env (FLAGS_iterations F)) !! j)
      as [inner|] eqn:E; [| reflexivity].
    destruct (map_choose inner (Ht j inner E)) as (label & v & Hv).
    destruct (detection_accumulate_holds env (FLAGS_iterations F) j label) as (_ & H & _).
    unfold find2 in H. rewrite E, Hv in H.
    rewrite records_none in H by exact Hno. discriminate H. }
  unfold test_detection, detection_report. rewrite Hempty.
  change (size (∅ : gmap nat (gmap Z (list (float * Z))))) with 0%nat.
  cbn [upto seq forM_ foldM]. munfold.
  rewrite (forM__trace _ (fun _ => [Call NetForward])) by (intros; reflexivity).
  rewrite bind_Ret. cbn [ret fst snd bind app]. rewrite app_nil_r.
  rewrite flat_map_singleton. reflexivity.
Qed.

Lemma test_detection_without_records_reports_nothing_witness :
  test_detection small_env flags_time_once = ([Call NetForward], Ret 0).
Proof.
  apply (test_detection_without_records_reports_nothing small_env flags_time_once).
  intros x H. vm_compute in H. destruct H.
Defined.

(** ** Passes of different sizes *)

Lemma foldM_returned {A S} (P : S -> Prop) (f : S -> A -> M S) (l : list A) :
  (forall s x t s', In x l -> P s -> f s x = (t, Ret s') -> P s') ->
  forall s t s', P s -> foldM f l s = (t, Ret s') -> P s'.
Proof.
  induction l as [|x l IH]; intros Hf s t s' Hs E; cbn [foldM] in E.
  - injection E as _ <-. exact Hs.
  - munfold. destruct (f s x) as [t1 [s1 | st]] eqn:E1; [| discriminate E].
    rewrite bind_Ret in E.
    destruct (foldM f l s1) as [t2 r2] eqn:E2. cbn [fst snd] in E.
    injection E as _ ->.
    apply (IH (fun s x t s' Hx => Hf s x t s' (or_intror Hx)) s1 t2 s'); [| exact E2].
    apply (Hf s x t1 s1 (or_introl eq_refl) Hs E1).
Qed.

Section Passes.
Variable env : Env.

Lemma score_iteration_first_ids (acc : ScoreAccumulator) :
  exists t,
    score_iteration env acc 0 =
    (t, Ret {| loss := F32.add (loss acc) (snd (forward env 0));
               test_score := test_score acc ++ scalars (fst (forward env 0));
               test_score_output_id :=
                 test_score_output_id acc ++ output_ids (fst (forward env 0)) |}).
Proof.
  unfold score_iteration, output_ids.
  destruct (forward env 0) as [result iter_loss]. cbn [fst snd].
  munfold. unfold emit. rewrite bind_Ret, score_blobs_flat.
  edestruct (score_first_pass env (tagged_scalars (combine (upto (List.length result)) result)))
    as [t Et].
  rewrite Et, bind_Ret. cbn [fst snd loss test_score test_score_output_id ret].
  rewrite tagged_scalars_snd. eexists. reflexivity.
Qed.

Lemma output_ids_length (result : list Blob) :
  List.length (output_ids result) = List.length (scalars result).
Proof.
  unfold output_ids. rewrite <- (tagged_scalars_snd result), !length_map. reflexivity.
Qed.

Lemma score_iteration_shorter (acc : ScoreAccumulator) (i : nat) :
  i <> 0%nat ->
  (List.length (scalars (fst (forward env i))) <= List.length (test_score acc))%nat ->
  exists t,
    score_iteration env acc i =
    (t, Ret {| loss := F32.add (loss acc) (snd (forward env i));
               test_score :=
                 add_scores (take (List.length (scalars (fst (forward env i))))
                                  (test_score acc))
                            (scalars (fst (forward env i)))
                 ++ drop (List.length (scalars (fst (forward env i)))) (test_score acc);
               test_score_output_id := test_score_output_id acc |}).
Proof.
  intros Hi Hlen. unfold score_iteration.
  destruct (forward env i) as [result iter_loss]. cbn [fst snd] in *.
  munfold. unfold emit. rewrite bind_Ret, score_blobs_flat.
  rewrite <- tagged_scalars_snd, length_map in Hlen.
  edestruct (score_later_pass env i (tagged_scalars (combine (upto (List.length result)) result)) Hi
               {| loss := F32.add (loss acc) iter_loss;
                  test_score := test_score acc;
                  test_score_output_id := test_score_output_id acc |}
               [] (test_score acc)) as [t Et].
  { reflexivity. }
  { cbn [test_score]. lia. }
  cbn [List.length] in Et. rewrite Et, bind_Ret.
  cbn [fst snd loss test_score test_score_output_id ret app].
  rewrite <- (tagged_scalars_snd result), length_map. eauto.
Qed.

Lemma score_iteration_longer (acc : ScoreAccumulator) (i : nat) :
  i <> 0%nat ->
  (List.length (test_score acc) < List.length (scalars (fst (forward env i))))%nat ->
  result (score_iteration env acc i) = Halt (Undefined "test_score[idx]").
Proof.
  intros Hi Hlen. unfold score_iteration.
  destruct (forward env i) as [result iter_loss]. cbn [fst snd] in *.
  munfold. unfold emit. rewrite bind_Ret, score_blobs_flat.
  rewrite <- tagged_scalars_snd, length_map in Hlen.
  edestruct (score_pass_out_of_range env i
               (tagged_scalars (combine (upto (List.length result)) result)) Hi
               {| loss := F32.add (loss acc) iter_loss;
                  test_score := test_score acc;
                  test_score_output_id := test_score_output_id acc |}
               [] (test_score acc)) as [t Et].
  { reflexivity. }
  { cbn [test_score]. lia. }
  cbn [List.length] in Et. rewrite Et. reflexivity.
Qed.

(** A later iteration that returns leaves the layout of the sums alone. *)
Lemma score_iteration_keeps_layout (acc acc' : ScoreAccumulator) (i : nat) (t : list Event) :
  i <> 0%nat ->
  score_iteration env acc i = (t, Ret acc') ->
  test_score_output_id acc' = test_score_output_id acc /\
  List.length (test_score acc') = List.length (test_score acc).
Proof.
  intros Hi E.
  destruct (le_lt_dec (List.length (scalars (fst (forward env i))))
                      (List.length (test_score acc))) as [Hle | Hlt].
  - destruct (score_iteration_shorter acc i Hi Hle) as [t' E'].
    rewrite E' in E. injection E as _ <-. cbn [test_score test_score_output_id].
    split; [reflexivity |].
    unfold add_scores. rewrite length_app, length_zip_with, length_take, length_drop. lia.
  - pose proof (score_iteration_longer acc i Hi Hlt) as H.
    rewrite E in H. discriminate H.
Qed.
End Passes.

(** X19.  A pass after the first is not checked against the sums.  One
    that delivers no more scalars than there are sums returns: it adds its
    scalars to the first sums and leaves the others and the output indices
    as they were.  One that delivers more writes past the end of
    [test_score], which is undefined. *)
Theorem later_pass_is_not_checked_against_the_sums
    (env : Env) (acc : ScoreAccumulator) (i : nat) :
  i <> 0%nat ->
  let scores := scalars (fst (forward env i)) in
  let n := List.length scores in
  ((n <= List.length (test_score acc))%nat ->
   exists t,
     score_iteration env acc i =
     (t, Ret {| loss := F32.add (loss acc) (snd (forward env i));
                test_score := add_scores (take n (test_score acc)) scores
                              ++ drop n (test_score acc);
                test_score_output_id := test_score_output_id acc |})) /\
  ((List.length (test_score acc) < n)%nat ->
   result (score_iteration env acc i) = Halt (Undefined "test_score[idx]")).
Proof.
  intros Hi. cbv zeta. split.
  - apply score_iteration_shorter. exact Hi.
  - apply score_iteration_longer. exact Hi.
Qed.

(** X20.  Whenever the accumulation of [test] returns, every sum has its
    output index: the indices are those of the blobs the scalars of the
    first pass came from, in order (none when no pass ran), and they are as
    many as the sums, so the report prints one line per sum. *)
Theorem sums_remember_their_output
    (env : Env) (iterations : Z) (t : list Event) (acc : ScoreAccumulator) :
  score_accumulate env iterations = (t, Ret acc) ->
  test_score_output_id acc =
    (if 0 <? iterations then output_ids (fst (forward env 0)) else []) /\
  List.length (test_score acc) = List.length (test_score_output_id acc).
Proof.
  unfold score_accumulate, upto. intros E.
  destruct (Z.ltb_spec 0 iterations) as [Hpos | Hneg].
  - destruct (Z.to_nat iterations) as [|n] eqn:En; [lia |].
    cbn [seq foldM] in E. munfold.
    destruct (score_iteration_first_ids env empty_scores) as [t0 E0].
    rewrite E0, bind_Ret in E. cbn [empty_scores loss test_score test_score_output_id app] in E.
    destruct (foldM (score_iteration env) (seq 1 n) _) as [t1 r1] eqn:E1.
    cbn [fst snd] in E. injection E as _ ->.
    refine (foldM_returned
              (fun s => test_score_output_id s = output_ids (fst (forward env 0)) /\
                        List.length (test_score s) = List.length (test_score_output_id s))
              (score_iteration env) (seq 1 n) _ _ _ _ _ E1).
    + intros s x tx s' Hx [Hids Hlen] Ex. apply in_seq in Hx.
      destruct (score_iteration_keeps_layout env s s' x tx ltac:(lia) Ex) as [H1 H2].
      rewrite H1, H2. split; assumption.
    + cbn [test_score test_score_output_id]. split; [reflexivity |].
      rewrite output_ids_length. reflexivity.
  - replace (Z.to_nat iterations) with 0%nat in E by lia.
    cbn [seq foldM] in E. injection E as _ <-. split; reflexivity.
Qed.

Lemma later_pass_is_not_checked_against_the_sums_witness :
  exists t acc,
    score_iteration growing_passes_env three_sums 1 = (t, Ret acc) /\
    test_score acc = [F32.add F32.one F32.one; F32.add F32.one F32.one; F32.one].
Proof.
  destruct (proj1 (later_pass_is_not_checked_against_the_sums
                     growing_passes_env three_sums 1 ltac:(discriminate)))
    as [t E].
  - cbn. lia.
  - eexists _, _. split; [exact E | reflexivity].
Defined.

Lemma sums_remember_their_output_witness :
  exists acc,
    result (score_accumulate identical_passes_env 3) = Ret acc /\
    test_score_output_id acc = [0%nat; 0%nat].
Proof.
  destruct (score_accumulate identical_passes_env 3) as [t [acc | s]] eqn:E.
  - exists acc. split; [reflexivity |].
    exact (proj1 (sums_remember_their_output identical_passes_env 3 t acc E)).
  - exfalso. vm_compute in E. discriminate E.
Defined.

(** ** Exit statuses *)

Lemma returns_only_ret {A} (P : A -> Prop) (a : A) : P a -> returns_only P (ret a).
Proof. intros H a' E. injection E as <-. exact H. Qed.

Lemma returns_only_bind {A B} (P : B -> Prop) (m : M A) (k : A -> M B) :
  (forall a, returns_only P (k a)) -> returns_only P (bind m k).
Proof.
  intros Hk b. destruct m as [t [a | s]]; [| discriminate].
  rewrite bind_Ret. unfold result. cbn [snd]. intros E. apply (Hk a b).
  unfold result. destruct (k a). exact E.
Qed.

Ltac returns_0 :=
  munfold;
  repeat (first [ apply returns_only_bind; intros ?
                | progress cbv zeta ]);
  apply returns_only_ret; reflexivity.

Lemma command_returns_0 (build : Build) (env : Env) (F : Flags) (f : BrewFunction) :
  returns_only (fun r => r = 0) (call build env F (Some f)).
Proof.
  destruct f; cbn [call].
  - unfold actions. returns_0.
  - unfold device_query. returns_0.
  - unfold train. returns_0.
  - unfold test. returns_0.
  - unfold time. returns_0.
  - unfold autotune. returns_0.
Qed.

Lemma GetBrewFunction_not_null (name : string) :
  exists t f, GetBrewFunction name = (t, Ret (Some f)).
Proof.
  unfold GetBrewFunction. destruct (g_brew_map !! name) as [f|].
  - exists [], f. reflexivity.
  - rewrite actions_is_registered. eexists _, _. reflexivity.
Qed.

(** X21.  Every command name resolves to a function of the registry,
    never to a null pointer, and a command that returns returns 0: [main]
    then exits with status 0.  So a command that fails never shows in the
    exit status by returning; it ends the process by an abort or an
    exception, about which nothing is said here. *)
Theorem returned_command_exits_0
    (build : Build) (env : Env) (F : Flags) (prog command : string) :
  exists f,
    result (GetBrewFunction command) = Ret (Some f) /\
    forall r : Z,
      result (call build env F (Some f)) = Ret r ->
      r = 0 /\
      process_end (main build env F [prog; command]) = Exited 0.
Proof.
  destruct (GetBrewFunction_not_null command) as (tg & f & Eg).
  exists f. split; [rewrite Eg; reflexivity |].
  intros r Hr.
  pose proof (command_returns_0 build env F f r Hr) as H0. cbv beta in H0. subst r.
  split; [reflexivity |].
  unfold process_end, main. munfold. unfold emit. rewrite bind_Ret, Eg, bind_Ret.
  destruct (call build env F (Some f)) as [t [r | s]]; [| discriminate Hr].
  cbn in Hr. injection Hr as ->. reflexivity.
Qed.

Lemma returned_command_exits_0_witness :
  process_end (main opencl_build small_env default_flags ["caffe"; "device_query"])
  = Exited 0.
Proof.
  destruct (returned_command_exits_0 opencl_build small_env default_flags
              "caffe" "device_query") as (f & Hf & H).
  vm_compute in Hf. injection Hf as <-.
  exact (proj2 (H 0 eq_refl)).
Defined.

(** X22.  When the command line is not one command after the flags are
    taken out (no command, or more than one word), [main] shows the usage
    and exits with status 0, and runs nothing. *)
Theorem main_without_a_command_shows_usage
    (build : Build) (env : Env) (F : Flags) (argv : list string) :
  List.length argv <> 2%nat ->
  main build env F argv = ([Call GlobalInit; Call ShowUsageWithFlagsRestrict], Ret 0).
Proof.
  intros H. unfold main.
  destruct argv as [|prog [|command [|more argv]]]; try reflexivity.
  contradiction H; reflexivity.
Qed.

(** ** Restoring and finetuning *)

(** X23.  Where [train] runs with a snapshot it copies no weights, and
    without a snapshot it restores nothing; with neither flag the solver
    starts from scratch. *)
Theorem train_loads_state_from_one_source (build : Build) (env : Env) (F : Flags) :
  (FLAGS_snapshot F <> EmptyString ->
   only_calls (fun c => is_copy (Call c) = false) (train build env F)) /\
  (FLAGS_snapshot F = EmptyString ->
   only_calls (fun c => is_Restore c = false) (train build env F)) /\
  (FLAGS_snapshot F = EmptyString -> FLAGS_weights F = EmptyString ->
   only_calls (fun c => is_Restore c = false /\ is_copy (Call c) = false) (train build env F)).
Proof.
  split; [| split].
  - intros Hs. unfold train. rewrite (nonempty_true _ Hs).
    calls_cmd; try reflexivity. apply only_calls_get_gpus. reflexivity.
  - intros Hs. unfold train. rewrite Hs. cbn [nonempty String.eqb negb].
    calls_cmd; try reflexivity. apply only_calls_get_gpus. reflexivity.
  - intros Hs Hw. unfold train. rewrite Hs, Hw. cbn [nonempty String.eqb negb].
    calls_cmd; try (split; reflexivity). apply only_calls_get_gpus. split; reflexivity.
Qed.

(** X24.  [time] with a [-phase] other than the empty one, "TRAIN" and
    "TEST" aborts on the fatal line about the phase, before it selects a
    device or builds the net. *)
Theorem time_rejects_an_unknown_phase (build : Build) (env : Env) (F : Flags) :
  FLAGS_model F <> EmptyString ->
  is_phase_name (FLAGS_phase F) = false ->
  time build env F =
    ([Log FATAL [Str ("phase must be " +:+ quoted "TRAIN" +:+ " or " +:+ quoted "TEST")]],
     Halt Fatal).
Proof.
  intros Hm Hp. unfold time, get_phase_from_flags, is_phase_name in *.
  apply orb_false_iff in Hp as [Hp H3]. apply orb_false_iff in Hp as [H1 H2].
  rewrite H1, H2, H3.
  destruct (FLAGS_model F) as [|c m]; [contradiction Hm; reflexivity |].
  reflexivity.
Qed.

Lemma main_without_a_command_shows_usage_witness :
  main opencl_build small_env default_flags ["caffe"] =
    ([Call GlobalInit; Call ShowUsageWithFlagsRestrict], Ret 0).
Proof. apply main_without_a_command_shows_usage. discriminate. Defined.

Lemma train_loads_state_from_one_source_witness :
  only_calls (fun c => is_copy (Call c) = false)
             (train opencl_build small_env flags_train_resume).
Proof.
  apply (proj1 (train_loads_state_from_one_source
                  opencl_build small_env flags_train_resume)).
  discriminate.
Defined.

Lemma time_rejects_an_unknown_phase_witness :
  result (time opencl_build small_env flags_time_unknown_phase) = Halt Fatal.
Proof.
  rewrite (time_rejects_an_unknown_phase opencl_build small_env flags_time_unknown_phase).
  - reflexivity.
  - discriminate.
  - reflexivity.
Defined.
